(** * WhatsApp auto-reply gateway: session registry, reply engine and pipeline

    A shallow embedding of the JavaScript sources of the repository

      - [whatsapp-handler.js], class [WhatsAppHandler]: the session registry;
      - [ai-reply.js], class [AIReply] (second half of [unnamed/part_000]):
        the reply engine with a counter per window;
      - [geminiAI.js], class [GeminiAI] ([unnamed/part_001]): the reply
        engine with a minimum gap between replies;
      - [sessionManager.js], class [SessionManager] (first half of
        [unnamed/part_000]): the lifecycle of a session and its message
        pipeline, which calls [GeminiAI];
      - class [WhatsAppBotServer] ([unnamed/part_002]): the pipeline of the
        multi-session server;

    followed by the properties of the specification that concern them.

    Conventions.  A JavaScript string is the list of its UTF-16 code units
    ([list N]).  [Date.now()] is an integer number of milliseconds ([Z]).
    The arithmetic of the typing delays and of the choice of a fallback
    reply is that of IEEE 754 doubles (module [Number]).  Results of calls
    into the outside world (the browser adapter, the completion service,
    [Math.random], the file system) are arguments of the operation that
    performs the call.  A JavaScript [Map] keyed by strings is a
    [gmap (list N) _]; a [Set] is a [gset].  A rejected promise is a thrown
    error.  An [async] method is run to its end as one step, except
    [WhatsAppHandler.restartSession], whose pause is open to the other
    operations of the registry. *)

From Stdlib Require Import ZArith NArith QArith Qminmax Qround Qabs Qpower Qreduction.
From Stdlib Require Import SpecFloat Lia Lqa String Ascii Bool.
From stdpp Require Import base option list gmap sets.

Local Open Scope N_scope.

(** ** JavaScript strings and values *)

Module Js.

(** Decoding of the UTF-8 bytes of a source literal into code points, and
    their UTF-16 encoding (a code point above [0xFFFF] is a surrogate
    pair). *)
Definition utf16 (cp : N) : list N :=
  if cp <? 0x10000 then [cp]
  else [0xD800 + (cp - 0x10000) / 0x400; 0xDC00 + (cp - 0x10000) mod 0x400].

Fixpoint utf8 (bs : list N) : list N :=
  match bs with
  | [] => []
  | b0 :: t0 =>
    if b0 <? 0x80 then b0 :: utf8 t0
    else match t0 with
      | [] => []
      | b1 :: t1 =>
        if b0 <? 0xE0 then (b0 mod 0x20 * 0x40 + b1 mod 0x40) :: utf8 t1
        else match t1 with
          | [] => []
          | b2 :: t2 =>
            if b0 <? 0xF0
            then (b0 mod 0x10 * 0x1000 + b1 mod 0x40 * 0x40 + b2 mod 0x40) :: utf8 t2
            else match t2 with
              | [] => []
              | b3 :: t3 =>
                utf16 (b0 mod 0x8 * 0x40000 + b1 mod 0x40 * 0x1000
                       + b2 mod 0x40 * 0x40 + b3 mod 0x40) ++ utf8 t3
              end
          end
      end
  end.

(** The code units of a literal of the source. *)
Definition js (s : string) : list N :=
  utf8 (N_of_ascii <$> list_ascii_of_string s).

(** Character classes of the regular expressions of the source. *)
Definition inRange (lo hi c : N) : bool := (lo <=? c) && (c <=? hi).

(** [\d] *)
Definition isDigit (c : N) : bool := inRange 48 57 c.

(** [[a-zA-Z]] *)
Definition isLatin (c : N) : bool := inRange 65 90 c || inRange 97 122 c.

(** [\w] *)
Definition isWord (c : N) : bool := isLatin c || isDigit c || (c =? 95).

(** Line terminators: LF, CR, LS, PS (what [.] does not match). *)
Definition isLineTerminator (c : N) : bool :=
  (c =? 0x0A) || (c =? 0x0D) || (c =? 0x2028) || (c =? 0x2029).

(** [\s], also the set removed by [String.prototype.trim]. *)
Definition isSpace (c : N) : bool :=
  inRange 0x09 0x0D c || (c =? 0x20) || (c =? 0xA0) || (c =? 0x1680)
  || inRange 0x2000 0x200A c || (c =? 0x2028) || (c =? 0x2029)
  || (c =? 0x202F) || (c =? 0x205F) || (c =? 0x3000) || (c =? 0xFEFF).

(** [.] *)
Definition isDot (c : N) : bool := negb (isLineTerminator c).

(** [s.startsWith(pre)] *)
Fixpoint startsWith (s pre : list N) : bool :=
  match pre, s with
  | [], _ => true
  | p :: pre', c :: s' => (c =? p) && startsWith s' pre'
  | _ :: _, [] => false
  end.

(** [s.includes(needle)] *)
Fixpoint includes (s needle : list N) : bool :=
  startsWith s needle
  || match s with
     | [] => false
     | _ :: s' => includes s' needle
     end.

Fixpoint trimStart (s : list N) : list N :=
  match s with
  | c :: s' => if isSpace c then trimStart s' else s
  | [] => []
  end.

(** [s.trim()] *)
Definition trim (s : list N) : list N := rev (trimStart (rev (trimStart s))).

(** [a || d] where [a] is the result of [parseInt] ([None] is [NaN]) and
    [d] a numeric literal: [NaN] and [0] are falsy. *)
Definition orDefault (a : option Z) (d : Z) : Z :=
  match a with
  | Some n => if (n =? 0)%Z then d else n
  | None => d
  end.

(** The values that occur as the condition of [checkRateLimit]. *)
Inductive jsval :=
| JBool (b : bool)
| JNum (n : Z).

Definition truthy (v : jsval) : bool :=
  match v with
  | JBool b => b
  | JNum n => negb (n =? 0)%Z
  end.

(** [a || b] *)
Definition jsOr (a b : jsval) : jsval := if truthy a then a else b.

(** [n >= m] where [m] comes out of [parseInt]: any comparison with [NaN]
    is [false]. *)
Definition geNum (n : Z) (m : option Z) : bool :=
  match m with
  | Some k => (k <=? n)%Z
  | None => false
  end.

(** [s.replace(pattern, replacement)] for a string [pattern]: the first
    occurrence is replaced. *)
Fixpoint replaceFirst (s pattern replacement : list N) : list N :=
  if startsWith s pattern then replacement ++ drop (length pattern) s
  else match s with
       | [] => []
       | c :: s' => c :: replaceFirst s' pattern replacement
       end.

End Js.

Import Js.

(** ** JavaScript numbers

    A Number is an IEEE 754 binary64 value.  A finite one is the rational
    it denotes, in lowest terms; the sign of zero is not kept (no operation
    modelled here tells the two zeros apart).  The result of an arithmetic
    operation is the exact result rounded to the nearest double, ties to
    the even significand. *)

Module Number.

Inductive number :=
| Fin (q : Q)
| PInf
| NInf
| NaN.

(** [2^e] *)
Definition pow2 (e : Z) : Q := (2 ^ e)%Q.

(** The binade of [x <> 0]: the [k] with [2^k <= |x| < 2^(k+1)]. *)
Definition ilog2 (x : Q) : Z :=
  let k := (Z.log2 (Z.abs (Qnum x)) - Z.log2 (Zpos (Qden x)))%Z in
  if Qle_bool (pow2 k) (Qabs x) then k else (k - 1)%Z.

(** The nearest integer, a tie going to the even one. *)
Definition roundHalfEven (m : Q) : Z :=
  let f := Qfloor m in
  match (m - inject_Z f ?= 1 # 2)%Q with
  | Lt => f
  | Gt => (f + 1)%Z
  | Eq => if Z.even f then f else (f + 1)%Z
  end.

(** Rounding to binary64: significands of 53 bits, the least exponent of
    the grid being [-1074] (subnormal numbers), and overflow to an infinity
    from [2^1024] on. *)
Definition roundReduced (x : Q) : number :=
  if Qeq_bool x 0 then Fin 0
  else
    let e := Z.max (ilog2 x - 52) (-1074) in
    let n := roundHalfEven (x / pow2 e)%Q in
    let y := (inject_Z n * pow2 e)%Q in
    if Qle_bool (pow2 1024) y then PInf
    else if Qle_bool y (- pow2 1024)%Q then NInf
    else Fin (Qred y).

Definition round (x : Q) : number := roundReduced (Qred x).

(** An integer as a Number (what [parseInt] and an integer literal give). *)
Definition ofZ (n : Z) : number := round (inject_Z n).

(** [a + b] *)
Definition add (a b : number) : number :=
  match a, b with
  | NaN, _ | _, NaN => NaN
  | PInf, NInf | NInf, PInf => NaN
  | PInf, _ | _, PInf => PInf
  | NInf, _ | _, NInf => NInf
  | Fin x, Fin y => round (x + y)%Q
  end.

Definition neg (a : number) : number :=
  match a with
  | Fin x => Fin (- x)%Q
  | PInf => NInf
  | NInf => PInf
  | NaN => NaN
  end.

(** [a - b] *)
Definition sub (a b : number) : number := add a (neg b).

Definition sign (a : number) : comparison :=
  match a with
  | Fin x => (x ?= 0)%Q
  | PInf => Gt
  | NInf => Lt
  | NaN => Eq
  end.

(** [a * b] *)
Definition mul (a b : number) : number :=
  match a, b with
  | NaN, _ | _, NaN => NaN
  | Fin x, Fin y => round (x * y)%Q
  | _, _ =>
    match sign a, sign b with
    | Eq, _ | _, Eq => NaN
    | Gt, Gt | Lt, Lt => PInf
    | _, _ => NInf
    end
  end.

(** [a <= b] *)
Definition leb (a b : number) : bool :=
  match a, b with
  | NaN, _ | _, NaN => false
  | NInf, _ | _, PInf => true
  | Fin x, Fin y => Qle_bool x y
  | _, _ => false
  end.

(** [Math.min(a, b)] *)
Definition min (a b : number) : number :=
  match a, b with
  | NaN, _ | _, NaN => NaN
  | _, _ => if leb a b then a else b
  end.

(** [Math.floor(a)] *)
Definition floor (a : number) : number :=
  match a with
  | Fin x => Fin (inject_Z (Qfloor x))
  | _ => a
  end.

(** [q] is a double: rounding leaves it as it is. *)
Definition isDouble (q : Q) : bool :=
  match round q with
  | Fin y => Qeq_bool y q
  | _ => false
  end.

(** The array index that a number denotes, if any: a non-negative
    integer. *)
Definition index (a : number) : option nat :=
  match a with
  | Fin x =>
    if Qeq_bool (inject_Z (Qfloor x)) x && (0 <=? Qfloor x)%Z
    then Some (Z.to_nat (Qfloor x))
    else None
  | _ => None
  end.

(** The Number that a binary64 datum of the Standard Library denotes. *)
Definition ofSpec (f : spec_float) : number :=
  match f with
  | S754_zero _ => Fin 0
  | S754_infinity false => PInf
  | S754_infinity true => NInf
  | S754_nan => NaN
  | S754_finite s m e => Fin (Qred (inject_Z (if s then Z.neg m else Z.pos m) * pow2 e)%Q)
  end.

End Number.

(** ** Regular expressions

    The fragment of JavaScript regular expressions that the sources use:
    classes, sequence, alternation, a greedy star over a class, positive
    lookahead, [^], [$] and [\b].  The matcher is written in continuation
    passing style; [prev] is the code unit before the current position
    ([None] at the start of the input). *)

Module Regex.

Inductive re :=
| Eps
| Cls (p : N -> bool)
| Seq (a b : re)
| Alt (a b : re)
| Star (p : N -> bool)
| Look (a : re)
| Bol
| Eol
| WordB.

Definition isWordAt (c : option N) : bool :=
  match c with
  | Some x => isWord x
  | None => false
  end.

Fixpoint star (p : N -> bool) (k : option N -> list N -> bool)
         (prev : option N) (s : list N) : bool :=
  match s with
  | c :: s' => (p c && star p k (Some c) s') || k prev s
  | [] => k prev s
  end.

Fixpoint matches (r : re) (prev : option N) (s : list N)
         (k : option N -> list N -> bool) : bool :=
  match r with
  | Eps => k prev s
  | Cls p =>
    match s with
    | c :: s' => p c && k (Some c) s'
    | [] => false
    end
  | Seq a b => matches a prev s (fun prev' s' => matches b prev' s' k)
  | Alt a b => matches a prev s k || matches b prev s k
  | Star p => star p k prev s
  | Look a => matches a prev s (fun _ _ => true) && k prev s
  | Bol =>
    match prev with
    | None => k prev s
    | Some _ => false
    end
  | Eol =>
    match s with
    | [] => k prev s
    | _ :: _ => false
    end
  | WordB => xorb (isWordAt prev) (isWordAt (head s)) && k prev s
  end.

(** A match of [r] starts at the current position. *)
Definition matchesAt (r : re) (prev : option N) (s : list N) : bool :=
  matches r prev s (fun _ _ => true).

Fixpoint search (r : re) (prev : option N) (s : list N) : bool :=
  matchesAt r prev s
  || match s with
     | c :: s' => search r (Some c) s'
     | [] => false
     end.

(** [r.test(s)] for a regular expression without the [g] and [y] flags. *)
Definition test (r : re) (s : list N) : bool := search r None s.

(** Case folding of the [i] flag (without the [u] flag): a code unit is
    compared through its upper case, and no code unit outside ASCII folds
    to an ASCII letter. *)
Definition upper (c : N) : N := if inRange 97 122 c then c - 32 else c.

(** One literal ASCII letter under the [i] flag. *)
Definition chrI (c : N) : re := Cls (fun x => upper x =? upper c).

(** One literal code unit. *)
Definition chr (c : N) : re := Cls (fun x => x =? c).

Definition seqOf (f : N -> re) (w : list N) : re :=
  foldr (fun c r => Seq (f c) r) Eps w.

(** A literal word, and a literal word under the [i] flag. *)
Definition lit (w : string) : re := seqOf chr (js w).
Definition litI (w : string) : re := seqOf chrI (js w).

(** [(?:w1|w2|...)] *)
Definition anyOf (rs : list re) : re :=
  match rs with
  | [] => Eps
  | r :: rs' => foldl Alt r rs'
  end.

End Regex.

Import Regex.

(** ** Statements that may throw

    A method body over a state [S]: it returns a value or throws, and the
    writes made before a throw stay. *)

Module Eff.

Inductive outcome (E A : Type) :=
| Returned (a : A)
| Threw (e : E).
Global Arguments Returned {E A} a.
Global Arguments Threw {E A} e.

Definition M (S E A : Type) : Type := S -> outcome E A * S.

Definition ret {S E A} (a : A) : M S E A := fun s => (Returned a, s).

Definition throw {S E A} (e : E) : M S E A := fun s => (Threw e, s).

Definition bind {S E A B} (m : M S E A) (f : A -> M S E B) : M S E B :=
  fun s =>
    match m s with
    | (Returned a, s') => f a s'
    | (Threw e, s') => (Threw e, s')
    end.

(** [try { m } catch (e) { h e }] *)
Definition tryCatch {S E A} (m : M S E A) (h : E -> M S E A) : M S E A :=
  fun s =>
    match m s with
    | (Returned a, s') => (Returned a, s')
    | (Threw e, s') => h e s'
    end.

(** A statement that cannot throw, given as a function of the state. *)
Definition lift {S E A} (f : S -> A * S) : M S E A :=
  fun s => (Returned (f s).1, (f s).2).

Definition gets {S E A} (f : S -> A) : M S E A := fun s => (Returned (f s), s).

Definition modify {S E} (f : S -> S) : M S E unit := fun s => (Returned tt, f s).

(** A call into the outside world: it goes through, with effect [f], when
    [ok], and throws [e] otherwise. *)
Definition call {S E} (ok : bool) (e : E) (f : S -> S) : M S E unit :=
  fun s => if ok then (Returned tt, f s) else (Threw e, s).

End Eff.

Import Eff.

Notation "x <~ m ;; k" := (bind m (fun x => k))
  (at level 100, m at next level, right associativity, only parsing).
Notation "m ;;; k" := (bind m (fun _ => k))
  (at level 100, right associativity, only parsing).

(** ** ai-reply.js, class [AIReply] *)

Module AIReply.

(** The language categories that [detectLanguage] returns. *)
Inductive language :=
| Hinglish | Hindi | English | Urdu | Bengali | Tamil | Gujarati.

(** *** [this.languagePatterns] *)

Definition isDevanagari (c : N) : bool := inRange 0x0900 0x097F c.

(** The class of the [english] pattern: ASCII letters, [\s], and the
    punctuation [. , ! ?], apostrophe and double quote. *)
Definition isEnglishChar (c : N) : bool :=
  isLatin c || isSpace c
  || (c =? 46) || (c =? 44) || (c =? 33) || (c =? 63) || (c =? 39) || (c =? 34).

(** The code-switch marker words of the [hinglish] pattern. *)
Definition markerWords : list string :=
  ["hai"; "hain"; "kya"; "kaise"; "kaha"; "kab"; "kyun"; "jo"; "ki"; "ka";
   "ke"; "ko"; "me"; "se"; "pe"; "par"]%string.

(** [(?=.*X)] *)
Definition ahead (x : re) : re := Look (Seq (Star isDot) x).

(** [/[\u0900-\u097F]/] *)
Definition hindi : re := Cls isDevanagari.
(** [/^C*$/] with [C] the class above *)
Definition english : re := Seq Bol (Seq (Star isEnglishChar) Eol).
(** [/(?=.*[a-zA-Z])(?=.*[\u0900-\u097F])|(?=.*[a-zA-Z])(?=.*(?:hai|...|par))/i];
    under the [i] flag the class [[a-zA-Z]] still denotes the ASCII letters
    and the Devanagari block has no case. *)
Definition hinglish : re :=
  Alt (Seq (ahead (Cls isLatin)) (ahead (Cls isDevanagari)))
      (Seq (ahead (Cls isLatin)) (ahead (anyOf (litI <$> markerWords)))).
(** [/[\u0600-\u06FF]/] *)
Definition urdu : re := Cls (inRange 0x0600 0x06FF).
(** [/[\u0980-\u09FF]/] *)
Definition bengali : re := Cls (inRange 0x0980 0x09FF).
(** [/[\u0B80-\u0BFF]/] *)
Definition tamil : re := Cls (inRange 0x0B80 0x0BFF).
(** [/[\u0A80-\u0AFF]/] *)
Definition gujarati : re := Cls (inRange 0x0A80 0x0AFF).

(** *** [detectLanguage] *)

(** [/https?:\/\/[^\s]+/] *)
Definition urlRe : re :=
  Seq (lit "http")
      (Seq (Alt (chr 115) Eps)
           (Seq (lit "://")
                (Seq (Cls (fun c => negb (isSpace c)))
                     (Star (fun c => negb (isSpace c)))))).

(** [text.replace(/https?:\/\/[^\s]+/g, '')].  Every code unit of a match
    is a non-space one and the final [[^\s]+] is greedy, so a match that
    starts at some position extends over the whole run of non-space code
    units from there; [skipping] says that the scan is inside a match. *)
Fixpoint stripUrls (skipping : bool) (text : list N) : list N :=
  match text with
  | [] => []
  | c :: rest =>
    if skipping && negb (isSpace c) then stripUrls true rest
    else if matchesAt urlRe None text then stripUrls true rest
    else c :: stripUrls false rest
  end.

(** [.replace(/\d+/g, '')] *)
Definition stripDigits (text : list N) : list N :=
  filter (fun c => isDigit c = false) text.

(** [const cleanText = text.replace(...).replace(...).trim()] *)
Definition cleanText (text : list N) : list N :=
  trim (stripDigits (stripUrls false text)).

Definition detectLanguage (text : list N) : language :=
  let cleanText := cleanText text in
  if test hinglish cleanText then Hinglish
  else if test hindi cleanText then Hindi
  else if test urdu cleanText then Urdu
  else if test bengali cleanText then Bengali
  else if test tamil cleanText then Tamil
  else if test gujarati cleanText then Gujarati
  else if test english cleanText then English
  else Hinglish.

(** *** State *)

(** An entry of a conversation history; [timestamp] is the instant that
    [new Date().toISOString()] prints. *)
Record Turn := {
  userMessage : list N;
  aiReply : list N;
  turnLanguage : language;
  timestamp : Z
}.

(** [{ count, resetTime }] *)
Record RateEntry := {
  count : Z;
  resetTime : Z
}.

Record State := {
  conversationHistory : gmap (list N) (list Turn);
  rateLimits : gmap (list N) RateEntry
}.

Definition initial : State :=
  {| conversationHistory := ∅; rateLimits := ∅ |}.

(** *** Conversation history *)

Definition getConversationHistory (fromNumber : list N) (st : State) : list Turn :=
  default [] (conversationHistory st !! fromNumber).

(** [push], then [shift] when more than ten entries are held, then [set]. *)
Definition updateConversationHistory (now : Z) (fromNumber userMessage aiReply : list N)
           (lang : language) (st : State) : State :=
  let history := getConversationHistory fromNumber st in
  let history :=
    history ++ [{| userMessage := userMessage; aiReply := aiReply;
                   turnLanguage := lang; timestamp := now |}] in
  let history :=
    if (10 <? length history)%nat then tail history else history in
  {| conversationHistory := <[fromNumber := history]> (conversationHistory st);
     rateLimits := rateLimits st |}.

(** *** Rate limit *)

(** The condition [userLimits.count >= parseInt(process.env.MESSAGE_RATE_LIMIT) || 2]
    as JavaScript parses it: [>=] binds tighter than [||]. *)
Definition limitExceeded (limitEnv : option Z) (userLimits : RateEntry) : bool :=
  truthy (jsOr (JBool (geNum (count userLimits) limitEnv)) (JNum 2)).

(** [limitEnv] is [parseInt(process.env.MESSAGE_RATE_LIMIT)].  The object
    [userLimits] is the stored one when the contact has an entry, so the
    reset of the window writes through to the store; a fresh object is
    stored only by the final [set]. *)
Definition checkRateLimit (limitEnv : option Z) (now : Z) (fromNumber : list N)
           (st : State) : bool * State :=
  let stored := rateLimits st !! fromNumber in
  let userLimits := default {| count := 0; resetTime := now |} stored in
  let userLimits :=
    if (resetTime userLimits <? now)%Z
    then {| count := 0; resetTime := now + 60000 |}
    else userLimits in
  let limits :=
    match stored with
    | Some _ => <[fromNumber := userLimits]> (rateLimits st)
    | None => rateLimits st
    end in
  if limitExceeded limitEnv userLimits
  then (false, {| conversationHistory := conversationHistory st; rateLimits := limits |})
  else
    let userLimits := {| count := count userLimits + 1; resetTime := resetTime userLimits |} in
    (true, {| conversationHistory := conversationHistory st;
              rateLimits := <[fromNumber := userLimits]> limits |}).

(** *** Replies *)

Definition getFallbackReply (lang : language) : list N :=
  match lang with
  | Hinglish => js "Sorry yaar, thoda issue ho gaya. Tum bolo kya chahiye? 😅"
  | Hindi => js "माफ करें, कुछ समस्या हो गई। आप बताएं क्या चाहिए? 😅"
  | English => js "Sorry, I encountered an issue. What can I help you with? 😅"
  | Urdu => js "معاف کریں، کچھ مسئلہ ہو گیا۔ آپ بتائیں کیا چاہیے؟ 😅"
  | Bengali => js "দুঃখিত, কিছু সমস্যা হয়েছে। আপনি বলুন কী লাগবে? 😅"
  | Tamil => js "மன்னிக்கவும், சில பிரச்சனை ஏற்பட்டது. நீங்கள் என்ன வேண்டும் என்று சொல்லுங்கள்? 😅"
  | Gujarati => js "માફ કરશો, થોડી સમસ્યા થઈ. તમે કહો શું જોઈએ? 😅"
  end.

Inductive error := Failure.

(** The part of [generateReply] after the rate-limit guard.  [apiResult] is
    what [await this.callGeminiAPI(prompt)] evaluates to: [None] for [null]
    (no candidate, an error response, a timeout: [callGeminiAPI] catches
    them all), [Some r] for the sanitised text.  The empty string is falsy.
    The prompt only feeds the remote call and is not modelled. *)
Definition replyAfterRateCheck (apiResult : option (list N)) (now : Z)
           (message fromNumber : list N) : M State error (option (list N)) :=
  let lang := detectLanguage message in
  match apiResult with
  | Some (c :: r) =>
    let aiResponse := c :: r in
    modify (updateConversationHistory now fromNumber message aiResponse lang) ;;;
    ret (Some aiResponse)
  | _ => ret (Some (getFallbackReply lang))
  end.

(** [generateReply(message, fromNumber)]; [None] is [null]. *)
Definition generateReply (limitEnv : option Z) (apiResult : option (list N)) (now : Z)
           (message fromNumber : list N) : M State error (option (list N)) :=
  tryCatch
    (allowed <~ lift (checkRateLimit limitEnv now fromNumber) ;;
     if negb allowed then ret None
     else replyAfterRateCheck apiResult now message fromNumber)
    (fun _ => ret (Some (getFallbackReply Hinglish))).

(** *** Maintenance *)

(** Whether [cleanupOldConversations] deletes a history. *)
Definition expired (now : Z) (history : list Turn) : bool :=
  match last history with
  | None => true
  | Some lastMessage => (24 * 60 * 60 * 1000 <? now - timestamp lastMessage)%Z
  end.

Definition cleanupOldConversations (now : Z) (st : State) : State :=
  {| conversationHistory :=
       filter (fun kv => expired now kv.2 = false) (conversationHistory st);
     rateLimits :=
       filter (fun kv => (resetTime kv.2 + 300000 <? now)%Z = false) (rateLimits st) |}.

(** [this.conversationHistory.delete(fromNumber)], the effect of the
    [/clear] command in [handleSpecialCommands]. *)
Definition clearHistory (fromNumber : list N) (st : State) : State :=
  {| conversationHistory := delete fromNumber (conversationHistory st);
     rateLimits := rateLimits st |}.

Definition shutdown (st : State) : State := initial.

(** The operations of the class that write [conversationHistory]. *)
Inductive op :=
| OpGenerateReply (limitEnv : option Z) (apiResult : option (list N)) (now : Z)
                  (message fromNumber : list N)
| OpUpdate (now : Z) (fromNumber userMessage aiReply : list N) (lang : language)
| OpCleanup (now : Z)
| OpClear (fromNumber : list N)
| OpShutdown.

Definition run (o : op) (st : State) : State :=
  match o with
  | OpGenerateReply limitEnv apiResult now message fromNumber =>
    (generateReply limitEnv apiResult now message fromNumber st).2
  | OpUpdate now fromNumber userMessage aiReply lang =>
    updateConversationHistory now fromNumber userMessage aiReply lang st
  | OpCleanup now => cleanupOldConversations now st
  | OpClear fromNumber => clearHistory fromNumber st
  | OpShutdown => shutdown st
  end.

Definition runAll (ops : list op) (st : State) : State :=
  foldl (fun st o => run o st) st ops.

(** *** [cleanAIResponse] *)

(** Whether [delim] occurs ahead with no line terminator in front of it:
    what the lazy [(.*?)] followed by the closing delimiter needs. *)
Fixpoint closes (delim s : list N) : bool :=
  startsWith s delim
  || match s with
     | c :: s' => isDot c && closes delim s'
     | [] => false
     end.

(** [s.replace(/D(.*?)D/g, '$1')] for a literal delimiter [D]: from left to
    right, an occurrence of [D] that is followed on its line by another one
    is removed together with the nearest such one, and what stands between
    them is kept.  [inside] says that the scan is between the two, [skip]
    counts the code units of a delimiter still to be passed. *)
Fixpoint unwrap (delim : list N) (inside : bool) (skip : nat) (s : list N) : list N :=
  match s with
  | [] => []
  | c :: s' =>
    match skip with
    | S k => unwrap delim inside k s'
    | O =>
      if inside
      then if startsWith s delim
           then unwrap delim false (length delim - 1) s'
           else c :: unwrap delim true 0 s'
      else if startsWith s delim && closes delim (drop (length delim) s)
           then unwrap delim true (length delim - 1) s'
           else c :: unwrap delim false 0 s'
    end
  end.

(** The line feeds in the run of white space at the head of [s]. *)
Fixpoint newlinesAhead (s : list N) : nat :=
  match s with
  | c :: s' =>
    if isSpace c then (if c =? 10 then S (newlinesAhead s') else newlinesAhead s') else 0%nat
  | [] => 0%nat
  end.

(** [s.replace(/\n\s*\n\s*\n/g, '\n\n')]: a line feed whose run of white
    space holds three line feeds or more is replaced, with the run up to its
    last line feed, by two line feeds.  [pending] counts the line feeds of
    the current match still to be passed. *)
Fixpoint collapseBlankLines (pending : nat) (s : list N) : list N :=
  match s with
  | [] => []
  | c :: s' =>
    match pending with
    | S k => if c =? 10 then collapseBlankLines k s' else collapseBlankLines (S k) s'
    | O =>
      if (c =? 10) && (3 <=? newlinesAhead s)%nat
      then 10 :: 10 :: collapseBlankLines (newlinesAhead s - 1) s'
      else c :: collapseBlankLines 0 s'
    end
  end.

(** The last step: at most five hundred code units. *)
Definition limitLength (cleaned : list N) : list N :=
  if (500 <? length cleaned)%nat then take 497 cleaned ++ js "..." else cleaned.

Definition cleanAIResponse (response : list N) : list N :=
  let cleaned := unwrap (js "**") false 0 response in
  let cleaned := unwrap (js "*") false 0 cleaned in
  let cleaned := unwrap (js "`") false 0 cleaned in
  let cleaned := collapseBlankLines 0 cleaned in
  let cleaned := trim cleaned in
  limitLength cleaned.

(** *** [getStats] *)

Global Instance language_eq_dec : EqDecision language.
Proof. solve_decision. Defined.

(** [languageCounts[entry.language] = (languageCounts[entry.language] || 0) + 1];
    a language without a key counts [0]. *)
Definition countLanguage (languageCounts : language -> nat) (entry : Turn) : language -> nat :=
  fun lang =>
    if decide (lang = turnLanguage entry)
    then S (languageCounts lang)
    else languageCounts lang.

(** [this.conversationHistory.values()] *)
Definition histories (st : State) : list (list Turn) :=
  (map_to_list (conversationHistory st)).*2.

(** [getLanguageStats()]: the two nested loops. *)
Definition getLanguageStats (st : State) : language -> nat :=
  foldl (fun languageCounts history => foldl countLanguage languageCounts history)
        (fun _ => 0%nat) (histories st).

(** [{ activeConversations, totalMessages, rateLimitedUsers, languages }] *)
Record Stats := {
  activeConversations : nat;
  totalMessages : nat;
  rateLimitedUsers : nat;
  languages : language -> nat
}.

Definition getStats (st : State) : Stats :=
  {| activeConversations := size (conversationHistory st);
     totalMessages := foldl (fun sum history => (sum + length history)%nat) 0%nat (histories st);
     rateLimitedUsers := size (rateLimits st);
     languages := getLanguageStats st |}.

End AIReply.

(** ** geminiAI.js, class [GeminiAI] *)

Module GeminiAI.

Inductive language := Hinglish | Hindi | English.

Inductive speaker := User | Bot.

(** [{ type, message, timestamp }] *)
Record Message := {
  type : speaker;
  message : list N;
  timestamp : Z
}.

Record State := {
  chatHistory : gmap (list N) (list Message);
  lastReplyTime : gmap (list N) Z
}.

Definition initial : State := {| chatHistory := ∅; lastReplyTime := ∅ |}.

(** [/\b(w1|w2|...)\b/i] *)
Definition wordPattern (ws : list string) : re :=
  Seq WordB (Seq (anyOf (litI <$> ws)) WordB).

Definition hinglishPatterns : list re :=
  [wordPattern ["kya"; "hai"; "hain"; "mein"; "tum"; "aap"; "bhi"; "kar";
                "kaise"; "kaha"; "kab"]%string;
   wordPattern ["yaar"; "bhai"; "dude"; "bro"; "buddy"]%string;
   wordPattern ["ok"; "okay"; "thanks"; "sorry"; "please"]%string].

Definition detectLanguage (text : list N) : language :=
  let hindiWords := test (Cls (inRange 0x0900 0x097F)) text in
  let englishWords := test (Cls isLatin) text in
  if hindiWords && englishWords then Hinglish
  else if hindiWords then Hindi
  else if englishWords then English
  else if existsb (fun pattern => test pattern text) hinglishPatterns then Hinglish
  else Hinglish.

Definition getChatHistory (contactNumber : list N) (st : State) : list Message :=
  default [] (chatHistory st !! contactNumber).

(** [history.slice(-10)] *)
Definition lastTen {A} (l : list A) : list A := drop (length l - 10)%nat l.

(** Two [push]es, [slice(-10)] when more than ten entries are held, then
    [set]; [tUser] and [tBot] are the two [new Date()]. *)
Definition updateChatHistory (tUser tBot : Z) (contactNumber userMessage botReply : list N)
           (st : State) : State :=
  let history := getChatHistory contactNumber st in
  let history := history ++ [{| type := User; message := userMessage; timestamp := tUser |}] in
  let history := history ++ [{| type := Bot; message := botReply; timestamp := tBot |}] in
  let history := if (10 <? length history)%nat then lastTen history else history in
  {| chatHistory := <[contactNumber := history]> (chatHistory st);
     lastReplyTime := lastReplyTime st |}.

(** [maxEnv] is [parseInt(process.env.MAX_MESSAGES_PER_MINUTE)].  A stored
    instant [0] is falsy, like a missing one.  The quotient
    [oneMinute / maxMessagesPerMinute] is taken in the rationals. *)
Definition canReply (maxEnv : option Z) (now : Z) (contactNumber : list N)
           (st : State) : bool :=
  let maxMessagesPerMinute := orDefault maxEnv 2 in
  let oneMinute := (60 * 1000)%Z in
  match lastReplyTime st !! contactNumber with
  | None => true
  | Some lastReply =>
    if (lastReply =? 0)%Z then true
    else negb (Qle_bool (inject_Z (now - lastReply))
                        (inject_Z oneMinute / inject_Z maxMessagesPerMinute))
  end.

Definition fallbackReplies : list (list N) :=
  [js "Sorry yaar, thoda technical issue ho gaya 😅 Kya keh rahe the?";
   js "Arre yaar, samjha nahi. Thoda aur detail mein batao na 🤔";
   js "Oops! Kuch problem hai mere system mein. Dobara try karo 😊";
   js "Sorry bro, connection issue hai. Thoda wait karo 🙏";
   js "Arre, maine suna nahi properly. Phir se bolo na 👂"].

(** [fallbackReplies[Math.floor(Math.random() * fallbackReplies.length)]];
    [random] is the double that [Math.random()] returns, [None] is
    [undefined]. *)
Definition getFallbackReply (random : Q) : option (list N) :=
  let position :=
    Number.floor (Number.mul (Number.Fin random)
                             (Number.ofZ (Z.of_nat (length fallbackReplies)))) in
  match Number.index position with
  | Some i => fallbackReplies !! i
  | None => None
  end.

(** What one call of [generateReply] meets outside: the instants read by
    [Date.now()] and [new Date()], the outcome of
    [model.generateContent(prompt)] with [response.text()] ([None] when
    either throws) and the value of [Math.random()]. *)
Record World := {
  maxEnv : option Z;
  nowCheck : Z;
  completion : option (list N);
  nowUser : Z;
  nowBot : Z;
  nowReply : Z;
  random : Q
}.

Inductive error := Failure.

(** [await this.model.generateContent(prompt)] followed by
    [result.response.text()]: the text, or a throw. *)
Definition generateContent (completion : option (list N)) : M State error (list N) :=
  match completion with
  | Some text => ret text
  | None => throw Failure
  end.

(** [generateReply(messageText, contactNumber, contactName)]; [None] is
    [null] (or [undefined]).  The prompt only feeds the remote call and is
    not modelled. *)
Definition generateReply (w : World) (messageText contactNumber : list N)
  : M State error (option (list N)) :=
  tryCatch
    (allowed <~ gets (canReply (maxEnv w) (nowCheck w) contactNumber) ;;
     if negb allowed then ret None
     else
       text <~ generateContent (completion w) ;;
       let reply := trim text in
       modify (updateChatHistory (nowUser w) (nowBot w) contactNumber messageText reply) ;;;
       modify (fun st =>
         {| chatHistory := chatHistory st;
            lastReplyTime := <[contactNumber := nowReply w]> (lastReplyTime st) |}) ;;;
       ret (Some reply))
    (fun _ => ret (getFallbackReply (random w))).

Definition clearChatHistory (contactNumber : list N) (st : State) : State :=
  {| chatHistory := delete contactNumber (chatHistory st);
     lastReplyTime := lastReplyTime st |}.

(** Whether [cleanup] deletes a history. *)
Definition stale (now : Z) (history : list Message) : bool :=
  match last history with
  | None => false
  | Some lastMessage => (24 * 60 * 60 * 1000 <? now - timestamp lastMessage)%Z
  end.

Definition cleanup (now : Z) (st : State) : State :=
  {| chatHistory := filter (fun kv => stale now kv.2 = false) (chatHistory st);
     lastReplyTime := lastReplyTime st |}.

(** The operations of the class that write [chatHistory]. *)
Inductive op :=
| OpGenerateReply (w : World) (messageText contactNumber : list N)
| OpUpdate (tUser tBot : Z) (contactNumber userMessage botReply : list N)
| OpClear (contactNumber : list N)
| OpCleanup (now : Z).

Definition run (o : op) (st : State) : State :=
  match o with
  | OpGenerateReply w messageText contactNumber =>
    (generateReply w messageText contactNumber st).2
  | OpUpdate tUser tBot contactNumber userMessage botReply =>
    updateChatHistory tUser tBot contactNumber userMessage botReply st
  | OpClear contactNumber => clearChatHistory contactNumber st
  | OpCleanup now => cleanup now st
  end.

Definition runAll (ops : list op) (st : State) : State :=
  foldl (fun st o => run o st) st ops.

(** *** [getStats] *)

(** [this.chatHistory.values()] *)
Definition histories (st : State) : list (list Message) :=
  (map_to_list (chatHistory st)).*2.

(** The predicate of the [filter] of [getStats]: a last message exists and
    is less than one hour old. *)
Definition recent (now : Z) (history : list Message) : bool :=
  match last history with
  | None => false
  | Some lastMessage => (now - timestamp lastMessage <? 60 * 60 * 1000)%Z
  end.

(** [{ totalChats, totalMessages, activeChats }] *)
Record Stats := {
  totalChats : nat;
  totalMessages : nat;
  activeChats : nat
}.

Definition getStats (now : Z) (st : State) : Stats :=
  {| totalChats := size (chatHistory st);
     totalMessages := foldl (fun total history => (total + length history)%nat) 0%nat
                            (histories st);
     activeChats := length (filter (fun history => recent now history = true) (histories st)) |}.

End GeminiAI.

(** ** whatsapp-handler.js, class [WhatsAppHandler] *)

Module WhatsAppHandler.

(** A [Client] object of the adapter library, by identity. *)
Record Client := { handle : nat }.

Inductive error :=
| MaximumSessions (maxSessions : Z)
| SessionNotFound (sessionId : list N)
| AdapterFailure.

(** Calls made on a client. *)
Inductive adapterCall :=
| Destroy (c : Client)
| GetChatById (c : Client) (chatId : list N)
| SendStateTyping (c : Client) (chatId : list N)
| SendMessage (c : Client) (chatId message : list N).

(** [sessionDirs] are the ids whose directory [session-<id>] exists under
    [this.sessionPath]; [calls] logs the calls on clients that went through,
    the latest first. *)
Record State := {
  clients : gmap (list N) Client;
  maxSessions : Z;
  sessionDirs : gset (list N);
  calls : list adapterCall
}.

(** [constructor]: [maxEnv] is [parseInt(process.env.MAX_SESSIONS)]. *)
Definition create (maxEnv : option Z) (dirs : gset (list N)) : State :=
  {| clients := ∅; maxSessions := orDefault maxEnv 10; sessionDirs := dirs; calls := [] |}.

Definition setClients (f : gmap (list N) Client -> gmap (list N) Client) (st : State) : State :=
  {| clients := f (clients st); maxSessions := maxSessions st;
     sessionDirs := sessionDirs st; calls := calls st |}.

Definition logCall (c : adapterCall) (st : State) : State :=
  {| clients := clients st; maxSessions := maxSessions st;
     sessionDirs := sessionDirs st; calls := c :: calls st |}.

(** [createClient(sessionId)]; [constructed] is the outcome of the [try]
    block that builds the [Client] and registers its handlers ([None] when
    it throws, the error is thrown again). *)
Definition createClient (constructed : option Client) (sessionId : list N)
  : M State error Client :=
  fun st =>
    match clients st !! sessionId with
    | Some client => (Returned client, st)
    | None =>
      if (maxSessions st <=? Z.of_nat (size (clients st)))%Z
      then (Threw (MaximumSessions (maxSessions st)), st)
      else
        match constructed with
        | Some client => (Returned client, setClients (insert sessionId client) st)
        | None => (Threw AdapterFailure, st)
        end
    end.

(** [cleanupSession(sessionId)]: both [try] blocks swallow their errors;
    [removed] says whether [fs.rm] went through. *)
Definition cleanupSession (removed : bool) (sessionId : list N) : M State error unit :=
  modify (fun st =>
    {| clients := clients st; maxSessions := maxSessions st;
       sessionDirs := if removed then sessionDirs st ∖ {[sessionId]} else sessionDirs st;
       calls := calls st |}).

(** [destroySession(sessionId)]; [destroyed] says whether
    [client.destroy()] went through. *)
Definition destroySession (destroyed removed : bool) (sessionId : list N)
  : M State error bool :=
  client <~ gets (fun st => clients st !! sessionId) ;;
  match client with
  | None => ret false
  | Some client =>
    tryCatch
      (call destroyed AdapterFailure (logCall (Destroy client)) ;;;
       modify (setClients (delete sessionId)) ;;;
       cleanupSession removed sessionId ;;;
       ret true)
      (fun _ =>
         modify (setClients (delete sessionId)) ;;;
         ret false)
  end.

(** The handlers that [createClient] registers for [auth_failure] and
    [disconnected]. *)
Definition onAuthFailure (sessionId : list N) (st : State) : State :=
  setClients (delete sessionId) st.

Definition onDisconnected (removed : bool) (sessionId : list N) (st : State) : State :=
  (cleanupSession removed sessionId (setClients (delete sessionId) st)).2.

(** [number.replace(/\D/g, '')]: every code unit that is not an ASCII digit
    is removed. *)
Definition stripNonDigits (number : list N) : list N :=
  filter (fun c => isDigit c = true) number.

Definition formatPhoneNumber (number : list N) : list N :=
  let formatted := stripNonDigits number in
  let formatted :=
    if negb (startsWith formatted (js "91")) && (length formatted =? 10)%nat
    then js "91" ++ formatted
    else formatted in
  let formatted :=
    if negb (includes formatted (js "@c.us"))
    then formatted ++ js "@c.us"
    else formatted in
  formatted.

(** What [sendMessage] meets outside: [process.env.TYPING_SIMULATION ===
    'true'] and whether each call on the client goes through. *)
Record SendWorld := {
  typingSimulation : bool;
  getChatOk : bool;
  typingOk : bool;
  sendOk : bool
}.

(** [sendMessage(sessionId, to, message)]; the value returned is the chat
    id the message was sent to. *)
Definition sendMessage (w : SendWorld) (sessionId to message : list N)
  : M State error (list N) :=
  client <~ gets (fun st => clients st !! sessionId) ;;
  match client with
  | None => throw (SessionNotFound sessionId)
  | Some client =>
    tryCatch
      (let formattedNumber := formatPhoneNumber to in
       (if typingSimulation w
        then call (getChatOk w) AdapterFailure (logCall (GetChatById client formattedNumber)) ;;;
             call (typingOk w) AdapterFailure (logCall (SendStateTyping client formattedNumber))
        else ret tt) ;;;
       call (sendOk w) AdapterFailure (logCall (SendMessage client formattedNumber message)) ;;;
       ret formattedNumber)
      (fun e => throw e)
  end.

(** The chat id a call is addressed to. *)
Definition target (c : adapterCall) : option (list N) :=
  match c with
  | Destroy _ => None
  | GetChatById _ chatId | SendStateTyping _ chatId | SendMessage _ chatId _ => Some chatId
  end.

(** [extractPhoneFromMessage(message)]; the argument is [message.from]
    ([None] when it is missing), [None] in the result is [null]. *)
Definition extractPhoneFromMessage (from : option (list N)) : option (list N) :=
  match from with
  | Some (c :: rest) => Some (replaceFirst (c :: rest) (js "@c.us") [])
  | _ => None
  end.

(** [isValidWhatsAppNumber(number)] *)
Definition isValidWhatsAppNumber (number : list N) : bool :=
  let formattedNumber := formatPhoneNumber number in
  includes formattedNumber (js "@c.us") && (12 <? length formattedNumber)%nat.

(** [restartSession(sessionId)]: [destroySession], a pause of two seconds,
    [createClient].  The method is suspended between the two calls;
    [during] is what the other calls and the events of the clients do to
    the registry until it resumes. *)
Definition restartSession (destroyed removed : bool) (during : State -> State)
           (constructed : option Client) (sessionId : list N) : M State error Client :=
  destroySession destroyed removed sessionId ;;;
  modify during ;;;
  createClient constructed sessionId.

(** A promise under [Promise.allSettled]: its rejection is swallowed. *)
Definition settled {A} (m : M State error A) : M State error unit :=
  tryCatch (m ;;; ret tt) (fun _ => ret tt).

(** [cleanupAllSessions()]: [destroySession] for every key of the registry;
    [outcome sessionId] says whether [client.destroy()] and [fs.rm] go
    through for that session.  The calls are taken one after the other. *)
Definition cleanupAllSessions (outcome : list N -> bool * bool) : M State error unit :=
  sessionIds <~ gets (fun st => (map_to_list (clients st)).*1) ;;
  foldr (fun sessionId rest =>
           settled (destroySession (outcome sessionId).1 (outcome sessionId).2 sessionId) ;;;
           rest)
        (ret tt) sessionIds.

(** [shutdown()] *)
Definition shutdown (outcome : list N -> bool * bool) : M State error unit :=
  cleanupAllSessions outcome.

(** What reaches the registry: the calls of its methods and the two events
    of a registered client that write it.  A restart carries the operations
    that reach the registry during its pause. *)
#[warnings="-register-all"]
Inductive op :=
| OpCreate (constructed : option Client) (sessionId : list N)
| OpDestroy (destroyed removed : bool) (sessionId : list N)
| OpRestart (destroyed removed : bool) (during : list op) (constructed : option Client)
            (sessionId : list N)
| OpSend (w : SendWorld) (sessionId to message : list N)
| OpAuthFailure (sessionId : list N)
| OpDisconnected (removed : bool) (sessionId : list N)
| OpCleanupAll (outcome : list N -> bool * bool).

Fixpoint run (o : op) (st : State) {struct o} : State :=
  match o with
  | OpCreate constructed sessionId => (createClient constructed sessionId st).2
  | OpDestroy destroyed removed sessionId => (destroySession destroyed removed sessionId st).2
  | OpRestart destroyed removed during constructed sessionId =>
    (restartSession destroyed removed (fun st => foldl (fun st o => run o st) st during)
                    constructed sessionId st).2
  | OpSend w sessionId to message => (sendMessage w sessionId to message st).2
  | OpAuthFailure sessionId => onAuthFailure sessionId st
  | OpDisconnected removed sessionId => onDisconnected removed sessionId st
  | OpCleanupAll outcome => (cleanupAllSessions outcome st).2
  end.

Definition runAll (ops : list op) (st : State) : State :=
  foldl (fun st o => run o st) st ops.

End WhatsAppHandler.

(** ** sessionManager.js, class [SessionManager] *)

Module SessionManager.

(** What [setTimeout] and [setInterval] have pending: the reconnection
    scheduled by the [disconnected] handler and the statistics tick started
    by [startStatsUpdater], each with its delay in milliseconds. *)
Inductive timer :=
| Reconnect (ms : Z)
| Stats (ms : Z).

(** What the session does to the outside, in the order of the calls. *)
Inductive effect :=
| Emit (event : string) (data : list N)
| EmitNumber (event : string) (n : Z)
| EmitReply (contact originalMessage reply : list N)
| ClientInitialize (c : nat)
| ClientDestroy (c : nat)
| Sleep (ms : Number.number)
| ChatSendStateTyping (chat : list N)
| ChatClearState (chat : list N)
| MessageReply (chat text : list N)
| SetTimer (t : timer).

Inductive error := Failure.

(** [client] is the identity of the current [Client] object, [created] the
    number of [Client] objects constructed so far, [effects] the log of
    effects, the latest first. *)
Record State := {
  geminiAI : GeminiAI.State;
  client : option nat;
  isReady : bool;
  qrRetries : Z;
  messageCount : Z;
  activeChats : gset (list N);
  timers : list timer;
  created : nat;
  effects : list effect
}.

Definition maxQrRetries : Z := 3.

(** [constructor] *)
Definition initial : State :=
  {| geminiAI := GeminiAI.initial; client := None; isReady := false; qrRetries := 0;
     messageCount := 0; activeChats := ∅; timers := []; created := 0; effects := [] |}.

Definition setGeminiAI (g : GeminiAI.State) (st : State) : State :=
  {| geminiAI := g; client := client st; isReady := isReady st; qrRetries := qrRetries st;
     messageCount := messageCount st; activeChats := activeChats st; timers := timers st;
     created := created st; effects := effects st |}.

Definition setClient (c : option nat) (n : nat) (st : State) : State :=
  {| geminiAI := geminiAI st; client := c; isReady := isReady st; qrRetries := qrRetries st;
     messageCount := messageCount st; activeChats := activeChats st; timers := timers st;
     created := n; effects := effects st |}.

Definition setIsReady (b : bool) (st : State) : State :=
  {| geminiAI := geminiAI st; client := client st; isReady := b; qrRetries := qrRetries st;
     messageCount := messageCount st; activeChats := activeChats st; timers := timers st;
     created := created st; effects := effects st |}.

Definition setQrRetries (n : Z) (st : State) : State :=
  {| geminiAI := geminiAI st; client := client st; isReady := isReady st; qrRetries := n;
     messageCount := messageCount st; activeChats := activeChats st; timers := timers st;
     created := created st; effects := effects st |}.

Definition setMessageCount (n : Z) (st : State) : State :=
  {| geminiAI := geminiAI st; client := client st; isReady := isReady st; qrRetries := qrRetries st;
     messageCount := n; activeChats := activeChats st; timers := timers st;
     created := created st; effects := effects st |}.

Definition setActiveChats (a : gset (list N)) (st : State) : State :=
  {| geminiAI := geminiAI st; client := client st; isReady := isReady st; qrRetries := qrRetries st;
     messageCount := messageCount st; activeChats := a; timers := timers st;
     created := created st; effects := effects st |}.

Definition setTimers (t : list timer) (st : State) : State :=
  {| geminiAI := geminiAI st; client := client st; isReady := isReady st; qrRetries := qrRetries st;
     messageCount := messageCount st; activeChats := activeChats st; timers := t;
     created := created st; effects := effects st |}.

Definition log (e : effect) (st : State) : State :=
  {| geminiAI := geminiAI st; client := client st; isReady := isReady st; qrRetries := qrRetries st;
     messageCount := messageCount st; activeChats := activeChats st; timers := timers st;
     created := created st; effects := e :: effects st |}.

(** [setTimeout(f, ms)] and [setInterval(f, ms)] *)
Definition schedule (t : timer) (st : State) : State :=
  log (SetTimer t) (setTimers (timers st ++ [t]) st).

(** *** Lifecycle *)

(** [initializeClient()]; [initOk] says whether [client.initialize()] goes
    through. *)
Definition initializeClient (initOk : bool) : M State error unit :=
  tryCatch
    (c <~ gets created ;;
     modify (setClient (Some c) (S c)) ;;;
     call initOk Failure (log (ClientInitialize c)))
    (fun e =>
       modify (log (Emit "error" (js "Failed to initialize WhatsApp client"))) ;;;
       throw e).

(** [restartClient()] *)
Definition restartClient (destroyOk initOk : bool) : M State error unit :=
  tryCatch
    (c <~ gets client ;;
     match c with
     | Some c => call destroyOk Failure (log (ClientDestroy c))
     | None => ret tt
     end ;;;
     modify (setIsReady false) ;;;
     modify (setQrRetries 0) ;;;
     modify (log (Sleep (Number.ofZ 3000))) ;;;
     initializeClient initOk)
    (fun _ => modify (log (Emit "error" (js "Failed to restart client")))).

(** [stopClient()] *)
Definition stopClient (destroyOk : bool) : M State error unit :=
  tryCatch
    (c <~ gets client ;;
     match c with
     | Some c =>
       modify (setIsReady false) ;;;
       call destroyOk Failure (log (ClientDestroy c)) ;;;
       n <~ gets created ;;
       modify (setClient None n)
     | None => ret tt
     end ;;;
     modify (log (Emit "disconnected" (js "Client stopped manually"))))
    (fun _ => ret tt).

(** The handlers of [setupEventHandlers].  [qrOk] says whether
    [QRCode.toDataURL] goes through, [infoOk] whether the fields of
    [this.client.info] can be read; with no client held the read throws. *)
Definition onQr (qrOk destroyOk initOk : bool) (qr : list N) : M State error unit :=
  tryCatch
    (call qrOk Failure (log (Emit "qr" qr)) ;;;
     n <~ gets qrRetries ;;
     modify (setQrRetries (n + 1)) ;;;
     n <~ gets qrRetries ;;
     if (maxQrRetries <? n)%Z then restartClient destroyOk initOk else ret tt)
    (fun _ => modify (log (Emit "error" (js "QR generation failed")))).

Definition onAuthenticated : M State error unit :=
  modify (log (Emit "authenticated" [])) ;;;
  modify (setQrRetries 0).

Definition startStatsUpdater : M State error unit :=
  modify (schedule (Stats 30000)).

Definition onReady (infoOk : bool) : M State error unit :=
  modify (setIsReady true) ;;;
  modify (log (Emit "ready" [])) ;;;
  tryCatch
    (c <~ gets client ;;
     match c with
     | Some _ => call infoOk Failure (fun st => st)
     | None => throw Failure
     end ;;;
     startStatsUpdater)
    (fun _ => ret tt).

Definition onDisconnected (reason : list N) : M State error unit :=
  modify (setIsReady false) ;;;
  modify (log (Emit "disconnected" reason)) ;;;
  modify (schedule (Reconnect 5000)).

Definition onAuthFailure : M State error unit :=
  modify (log (Emit "error" (js "Authentication failed - please scan QR again"))).

Definition onError (message : list N) : M State error unit :=
  modify (log (Emit "error" message)).

(** The body of the interval of [startStatsUpdater]. *)
Definition statsTick : M State error unit :=
  ready <~ gets isReady ;;
  if ready
  then
    n <~ gets messageCount ;;
    modify (log (EmitNumber "message_count" n)) ;;;
    a <~ gets activeChats ;;
    modify (log (EmitNumber "active_chats" (Z.of_nat (size a)))) ;;;
    if (50 <? size a)%nat then modify (setActiveChats ∅) else ret tt
  else ret tt.

(** *** Message pipeline *)

(** An inbound message of the adapter; [timestamp] is in seconds. *)
Record Message := {
  from : list N;
  fromMe : bool;
  body : list N;
  timestamp : Z
}.

(** The contact behind a message; an empty [name] or [pushname] stands for
    a missing one (both are falsy). *)
Record Contact := {
  name : list N;
  pushname : list N;
  number : list N
}.

(** [a || b] on strings *)
Definition orString (a b : list N) : list N :=
  match a with
  | [] => b
  | _ :: _ => a
  end.

(** What one run of [handleIncomingMessage] meets outside: the clock, the
    outcome of [message.getContact()] ([None] when it throws), what
    [generateReply] meets, [parseInt] of the two typing variables of the
    environment, [Math.random()], and whether each call on the chat and on
    the message goes through. *)
Record World := {
  now : Z;
  contact : option Contact;
  ai : GeminiAI.World;
  typingDelayMinEnv : option Z;
  typingDelayMaxEnv : option Z;
  typingRandom : Q;
  getChatOk : bool;
  typingOk : bool;
  clearOk : bool;
  replyOk : bool;
  apologyOk : bool
}.

(** The delay of [sendReplyWithTyping], in milliseconds; [random] is the
    double that [Math.random()] returns. *)
Definition typingDelay (minEnv maxEnv : option Z) (random : Q) (reply : list N)
  : Number.number :=
  let typingDelayMin := Number.ofZ (orDefault minEnv 1000) in
  let typingDelayMax := Number.ofZ (orDefault maxEnv 3000) in
  let baseDelay :=
    Number.add typingDelayMin
               (Number.mul (Number.Fin random) (Number.sub typingDelayMax typingDelayMin)) in
  let charDelay := Number.mul (Number.ofZ (Z.of_nat (length reply))) (Number.ofZ 30) in
  Number.min (Number.add baseDelay charDelay) typingDelayMax.

(** The base component of the delay. *)
Definition baseDelay (minEnv maxEnv : option Z) (random : Q) : Number.number :=
  let typingDelayMin := Number.ofZ (orDefault minEnv 1000) in
  let typingDelayMax := Number.ofZ (orDefault maxEnv 3000) in
  Number.add typingDelayMin
             (Number.mul (Number.Fin random) (Number.sub typingDelayMax typingDelayMin)).

Definition sendReplyWithTyping (w : World) (message : Message) (reply : list N)
  : M State error unit :=
  tryCatch
    (call (getChatOk w) Failure (fun st => st) ;;;
     call (typingOk w) Failure (log (ChatSendStateTyping (from message))) ;;;
     let totalDelay := typingDelay (typingDelayMinEnv w) (typingDelayMaxEnv w)
                                   (typingRandom w) reply in
     modify (log (Sleep totalDelay)) ;;;
     call (clearOk w) Failure (log (ChatClearState (from message))) ;;;
     call (replyOk w) Failure (log (MessageReply (from message) reply)))
    (fun e => throw e).

Definition apology : list N :=
  js "Sorry, kuch technical problem hai. Thoda baad try karo 😅".

(** [await this.geminiAI.generateReply(messageText, contact.number, contactName)] *)
Definition askGemini (w : GeminiAI.World) (messageText contactNumber : list N)
  : M State error (option (list N)) :=
  fun st =>
    match GeminiAI.generateReply w messageText contactNumber (geminiAI st) with
    | (Returned reply, g) => (Returned reply, setGeminiAI g st)
    | (Threw _, g) => (Threw Failure, setGeminiAI g st)
    end.

Definition handleIncomingMessage (w : World) (message : Message) : M State error unit :=
  tryCatch
    (ready <~ gets isReady ;;
     if negb ready || fromMe message then ret tt
     else if includes (from message) (js "@g.us") then ret tt
     else
       let messageTime := (timestamp message * 1000)%Z in
       let fiveMinutesAgo := (now w - 5 * 60 * 1000)%Z in
       if (messageTime <? fiveMinutesAgo)%Z then ret tt
       else
         match contact w with
         | None => throw Failure
         | Some contact =>
           let contactName := orString (name contact) (orString (pushname contact) (number contact)) in
           let messageText := trim (body message) in
           match messageText with
           | [] => ret tt
           | _ :: _ =>
             a <~ gets activeChats ;;
             modify (setActiveChats ({[number contact]} ∪ a)) ;;;
             aiReply <~ askGemini (ai w) messageText (number contact) ;;
             match aiReply with
             | Some (c :: r) =>
               sendReplyWithTyping w message (c :: r) ;;;
               n <~ gets messageCount ;;
               modify (setMessageCount (n + 1)) ;;;
               modify (log (EmitReply contactName messageText (c :: r)))
             | _ => ret tt
             end
           end
         end)
    (fun _ =>
       tryCatch
         (call (apologyOk w) Failure (log (MessageReply (from message) apology)))
         (fun _ => ret tt)).

(** [to.includes('@c.us') ? to : to + '@c.us'] *)
Definition chatId (to : list N) : list N :=
  if includes to (js "@c.us") then to else to ++ js "@c.us".

(** [sendMessage(to, message)]; the result is the [success] field.  [send]
    says, for the arguments it is given, whether
    [this.client.sendMessage(chatId, message)] goes through; without a
    client the call throws. *)
Definition sendMessage (send : list N -> list N -> bool) (to message : list N)
  : M State error bool :=
  tryCatch
    (ready <~ gets isReady ;;
     if negb ready then throw Failure
     else
       c <~ gets client ;;
       match c with
       | Some _ => call (send (chatId to) message) Failure (fun st => st)
       | None => throw Failure
       end ;;;
       ret true)
    (fun _ => ret false).

(** *** The session as a machine

    What reaches the session: the events of the adapter, the commands of
    the server ([start_bot], [stop_bot], the restart route) and the expiry
    of a pending timer.  An asynchronous handler is run to its end before
    the next input is taken. *)
Inductive input :=
| Qr (qrOk destroyOk initOk : bool) (qr : list N)
| Authenticated
| Ready (infoOk : bool)
| Incoming (w : World) (message : Message)
| Disconnected (reason : list N)
| AuthFailure
| AdapterError (message : list N)
| Fire (i : nat) (destroyOk initOk : bool)
| Start (initOk : bool)
| Stop (destroyOk : bool)
| Restart (destroyOk initOk : bool).

(** Adapter events and timers, as opposed to the commands of the server. *)
Definition automatic (i : input) : bool :=
  match i with
  | Start _ | Stop _ | Restart _ _ => false
  | _ => true
  end.

(** The expiry of the [i]-th pending timer: a timeout is consumed, an
    interval stays. *)
Definition fire (i : nat) (destroyOk initOk : bool) : M State error unit :=
  t <~ gets (fun st => timers st !! i) ;;
  match t with
  | Some (Reconnect _) =>
    modify (fun st => setTimers (delete i (timers st)) st) ;;;
    restartClient destroyOk initOk
  | Some (Stats _) => statsTick
  | None => ret tt
  end.

(** The handlers of [setupEventHandlers] are closures on the session,
    registered on every [Client] constructed: an adapter event runs its
    handler whichever [Client] emits it, the one held, a replaced one, or
    one left behind by [stopClient]. *)
Definition handler (i : input) : M State error unit :=
  match i with
  | Qr qrOk destroyOk initOk qr => onQr qrOk destroyOk initOk qr
  | Authenticated => onAuthenticated
  | Ready infoOk => onReady infoOk
  | Incoming w message => handleIncomingMessage w message
  | Disconnected reason => onDisconnected reason
  | AuthFailure => onAuthFailure
  | AdapterError message => onError message
  | Fire i destroyOk initOk => fire i destroyOk initOk
  | Start initOk => initializeClient initOk
  | Stop destroyOk => stopClient destroyOk
  | Restart destroyOk initOk => restartClient destroyOk initOk
  end.

Definition step (st : State) (i : input) : State := (handler i st).2.

Definition runAll (ins : list input) (st : State) : State := foldl step st ins.

(** The restarts in a log of effects: a reconnection being scheduled, and a
    [Client] being initialised. *)
Definition isRestart (e : effect) : bool :=
  match e with
  | SetTimer (Reconnect _) | ClientInitialize _ => true
  | _ => false
  end.

Definition restarts (st : State) : list effect :=
  filter (fun e => isRestart e = true) (effects st).

End SessionManager.

(** ** The multi-session server, class [WhatsAppBotServer] *)

Module WhatsAppBotServer.

(** What the message handler does to the outside, in the order of the
    calls. *)
Inductive effect :=
| ChatSendStateTyping (chat : list N)
| Sleep (ms : Number.number)
| MessageReply (chat text : list N)
| EmitMessageSent (fromNumber originalMessage reply : list N)
| DbInsertMessage (sessionId fromNumber messageText aiReply : list N)
| DbCountMessage (sessionId : list N).

Inductive error := Failure.

(** The fields of a session object that the handler reads and writes. *)
Record Session := {
  id : list N;
  messagesSent : Z;
  lastActivity : Z
}.

(** [rateLimits] maps [rate_<number>] to the [lastMessage] instant; the map
    that does not exist yet behaves as the empty one.  [effects] holds the
    latest effect first. *)
Record State := {
  aiReply : AIReply.State;
  rateLimits : gmap (list N) Z;
  session : Session;
  effects : list effect
}.

Definition initial (sessionId : list N) (now : Z) : State :=
  {| aiReply := AIReply.initial; rateLimits := ∅;
     session := {| id := sessionId; messagesSent := 0; lastActivity := now |};
     effects := [] |}.

Definition setAiReply (a : AIReply.State) (st : State) : State :=
  {| aiReply := a; rateLimits := rateLimits st; session := session st;
     effects := effects st |}.

Definition setRateLimits (r : gmap (list N) Z) (st : State) : State :=
  {| aiReply := aiReply st; rateLimits := r; session := session st;
     effects := effects st |}.

Definition setSession (s : Session) (st : State) : State :=
  {| aiReply := aiReply st; rateLimits := rateLimits st; session := s;
     effects := effects st |}.

Definition log (e : effect) (st : State) : State :=
  {| aiReply := aiReply st; rateLimits := rateLimits st; session := session st;
     effects := e :: effects st |}.

Record Message := {
  from : list N;
  fromMe : bool;
  body : list N
}.

(** What one run of the handler meets outside: the number of the contact
    ([None] when [message.getContact()] throws), the clock at the rate
    check, what [AIReply.generateReply] meets, whether the typing state and
    the reply go through, [Math.random()], the clock after the reply, the
    database pool ([None] when there is none, otherwise whether each of the
    two statements goes through), [process.env.FALLBACK_REPLY] (empty when
    unset) and whether the fallback reply goes through. *)
Record World := {
  contactNumber : option (list N);
  now : Z;
  limitEnv : option Z;
  apiResult : option (list N);
  nowAi : Z;
  typingOk : bool;
  random : Q;
  replyOk : bool;
  nowSent : Z;
  dbPool : option (bool * bool);
  fallbackEnv : list N;
  fallbackOk : bool
}.

(** [await this.aiReply.generateReply(messageText, fromNumber)] *)
Definition askAIReply (w : World) (messageText fromNumber : list N)
  : M State error (option (list N)) :=
  fun st =>
    match AIReply.generateReply (limitEnv w) (apiResult w) (nowAi w) messageText fromNumber
                                (aiReply st) with
    | (Returned reply, a) => (Returned reply, setAiReply a st)
    | (Threw _, a) => (Threw Failure, setAiReply a st)
    end.

(** [saveMessage(sessionId, fromNumber, messageText, aiReply)] *)
Definition saveMessage (w : World) (sessionId fromNumber messageText aiReply : list N)
  : M State error unit :=
  match dbPool w with
  | None => ret tt
  | Some (insertOk, updateOk) =>
    tryCatch
      (call insertOk Failure (log (DbInsertMessage sessionId fromNumber messageText aiReply)) ;;;
       call updateOk Failure (log (DbCountMessage sessionId)))
      (fun _ => ret tt)
  end.

(** [rateLimit && (now - rateLimit.lastMessage) < 30000] *)
Definition rateLimited (now : Z) (rateLimit : option Z) : bool :=
  match rateLimit with
  | Some lastMessage => (now - lastMessage <? 30000)%Z
  | None => false
  end.

Definition fallbackReply (w : World) : list N :=
  SessionManager.orString (fallbackEnv w)
                          (js "Sorry, I encountered an issue. Please try again.").

(** [handleIncomingMessage(message, session)] *)
Definition handleIncomingMessage (w : World) (message : Message) : M State error unit :=
  tryCatch
    (match contactNumber w with
     | None => throw Failure
     | Some fromNumber =>
       let messageText := body message in
       let rateLimitKey := js "rate_" ++ fromNumber in
       rateLimit <~ gets (fun st => rateLimits st !! rateLimitKey) ;;
       if rateLimited (now w) rateLimit then ret tt
       else
         modify (fun st => setRateLimits (<[rateLimitKey := now w]> (rateLimits st)) st) ;;;
         aiReply <~ askAIReply w messageText fromNumber ;;
         match aiReply with
         | Some (c :: r) =>
           let aiReply := c :: r in
           call (typingOk w) Failure (log (ChatSendStateTyping (from message))) ;;;
           let delay :=
             Number.add (Number.mul (Number.Fin (random w))
                                    (Number.sub (Number.ofZ 3000) (Number.ofZ 1000)))
                        (Number.ofZ 1000) in
           modify (log (Sleep delay)) ;;;
           call (replyOk w) Failure (log (MessageReply (from message) aiReply)) ;;;
           modify (fun st =>
             setSession {| id := id (session st);
                           messagesSent := messagesSent (session st) + 1;
                           lastActivity := nowSent w |} st) ;;;
           modify (log (EmitMessageSent fromNumber messageText aiReply)) ;;;
           sessionId <~ gets (fun st => id (session st)) ;;
           saveMessage w sessionId fromNumber messageText aiReply
         | _ => ret tt
         end
     end)
    (fun _ =>
       tryCatch
         (call (fallbackOk w) Failure (log (MessageReply (from message) (fallbackReply w))))
         (fun _ => ret tt)).

(** The [message_create] handler that [createWhatsAppSession] registers. *)
Definition onMessageCreate (w : World) (message : Message) : M State error unit :=
  if fromMe message then ret tt
  else tryCatch (handleIncomingMessage w message) (fun _ => ret tt).

End WhatsAppBotServer.

(** ** Vocabulary of the specification *)

Module Spec.

(** The digits that C10 expects in front of the suffix: those of [number],
    with [91] in front exactly when there are ten of them that do not start
    with [91]. *)
Definition nationalPrefix (number : list N) : list N :=
  let digits := filter (fun c => isDigit c = true) number in
  if (length digits =? 10)%nat && negb (startsWith digits (js "91"))
  then js "91" ++ digits
  else digits.

(** Every stored conversation holds at most ten entries. *)
Definition boundedAI (st : AIReply.State) : Prop :=
  forall contact history,
    AIReply.conversationHistory st !! contact = Some history -> (length history <= 10)%nat.

Definition boundedGemini (st : GeminiAI.State) : Prop :=
  forall contact history,
    GeminiAI.chatHistory st !! contact = Some history -> (length history <= 10)%nat.

(** C2 as stated, with the cap as a parameter: of the turns [inserted] for
    a contact, in this order, the history [held] keeps the last [n], in
    their order; the oldest ones are evicted first. *)
Definition capped {A} (n : nat) (inserted held : list A) : Prop :=
  held = drop (length inserted - n)%nat inserted.

(** The insertion of a turn into the history of [AIReply]. *)
Definition insertTurn (contact : list N) (turn : AIReply.Turn) : AIReply.op :=
  AIReply.OpUpdate (AIReply.timestamp turn) contact (AIReply.userMessage turn)
                   (AIReply.aiReply turn) (AIReply.turnLanguage turn).

(** A turn as [GeminiAI] records it: the message of the user and the reply
    of the bot, each with the instant it is stored at. *)
Record Exchange := {
  userEntry : list N;
  userAt : Z;
  botEntry : list N;
  botAt : Z
}.

(** The two entries that a turn leaves in the history of [GeminiAI]. *)
Definition entries (x : Exchange) : list GeminiAI.Message :=
  [{| GeminiAI.type := GeminiAI.User; GeminiAI.message := userEntry x;
      GeminiAI.timestamp := userAt x |};
   {| GeminiAI.type := GeminiAI.Bot; GeminiAI.message := botEntry x;
      GeminiAI.timestamp := botAt x |}].

Definition insertExchange (contact : list N) (x : Exchange) : GeminiAI.op :=
  GeminiAI.OpUpdate (userAt x) (botAt x) contact (userEntry x) (botEntry x).

(** The turns held in a history of [GeminiAI]: its entries, two by two. *)
Fixpoint turnsOf (history : list GeminiAI.Message) : list Exchange :=
  match history with
  | user :: bot :: history' =>
    {| userEntry := GeminiAI.message user; userAt := GeminiAI.timestamp user;
       botEntry := GeminiAI.message bot; botAt := GeminiAI.timestamp bot |}
      :: turnsOf history'
  | _ => []
  end.

(** The rate limiter as the specification words it: a fixed window with a
    maximum count; when the window has elapsed (or the contact has none yet)
    the count goes back to [0] and a new window starts; at or above the
    maximum the attempt is denied; otherwise the count is incremented and
    the attempt allowed. *)
Definition checkRateLimit (limitEnv : option Z) (now : Z) (fromNumber : list N)
           (st : AIReply.State) : bool * AIReply.State :=
  let newWindow := {| AIReply.count := 0; AIReply.resetTime := now + 60000 |} in
  let userLimits :=
    match AIReply.rateLimits st !! fromNumber with
    | Some userLimits =>
      if (AIReply.resetTime userLimits <? now)%Z then newWindow else userLimits
    | None => newWindow
    end in
  let store u :=
    {| AIReply.conversationHistory := AIReply.conversationHistory st;
       AIReply.rateLimits := <[fromNumber := u]> (AIReply.rateLimits st) |} in
  if (orDefault limitEnv 2 <=? AIReply.count userLimits)%Z
  then (false, store userLimits)
  else (true, store {| AIReply.count := AIReply.count userLimits + 1;
                       AIReply.resetTime := AIReply.resetTime userLimits |}).

(** C9 as stated: once the session has been stopped, the adapter events
    and timers that follow neither schedule a reconnection nor initialise
    a client. *)
Definition noRestartAfterStop : Prop :=
  forall (before : list SessionManager.input) (destroyOk : bool)
         (after : list SessionManager.input),
    forallb SessionManager.automatic after = true ->
    let stopped :=
      SessionManager.runAll (before ++ [SessionManager.Stop destroyOk])
                            SessionManager.initial in
    SessionManager.restarts (SessionManager.runAll after stopped)
    = SessionManager.restarts stopped.


(** C3 as stated: the fallback exchange is appended to the history, as one
    entry or more. *)
Definition appended {A} (before after : list A) : Prop :=
  exists entries, entries <> [] /\ after = before ++ entries.

(** For [AIReply.generateReply], where the remote call has failed: the part
    of the method past the rate-limit guard, where a failed call turns into
    a fallback, returns the fallback of the detected language and the
    exchange is appended to the history of the contact. *)
Definition fallbackRecorded (now : Z) (message fromNumber : list N)
           (st : AIReply.State) : Prop :=
  let '(result, st') := AIReply.replyAfterRateCheck None now message fromNumber st in
  result = Returned (Some (AIReply.getFallbackReply (AIReply.detectLanguage message)))
  /\ appended (AIReply.getConversationHistory fromNumber st)
              (AIReply.getConversationHistory fromNumber st').

(** The same for [GeminiAI.generateReply]. *)
Definition fallbackRecordedGemini (w : GeminiAI.World) (messageText contactNumber : list N)
           (st : GeminiAI.State) : Prop :=
  let '(result, st') := GeminiAI.generateReply w messageText contactNumber st in
  (exists reply, result = Returned (Some reply))
  /\ appended (GeminiAI.getChatHistory contactNumber st)
              (GeminiAI.getChatHistory contactNumber st').

(** The scripts that the patterns of [AIReply] tell apart. *)
Inductive script := Latin | Devanagari | Arabic | BengaliScript | TamilScript | GujaratiScript.

Definition inScript (sc : script) (c : N) : bool :=
  match sc with
  | Latin => isLatin c
  | Devanagari => inRange 0x0900 0x097F c
  | Arabic => inRange 0x0600 0x06FF c
  | BengaliScript => inRange 0x0980 0x09FF c
  | TamilScript => inRange 0x0B80 0x0BFF c
  | GujaratiScript => inRange 0x0A80 0x0AFF c
  end.

(** C8 as stated: a text with characters of two scripts is classified as
    mixed. *)
Definition twoScriptsAreMixed : Prop :=
  forall (text : list N) (s1 s2 : script),
    s1 <> s2 ->
    existsb (inScript s1) text = true ->
    existsb (inScript s2) text = true ->
    AIReply.detectLanguage text = AIReply.Hinglish.

(** C8 for the one pair its example names. *)
Definition latinDevanagariIsMixed : Prop :=
  forall text : list N,
    existsb (inScript Latin) text = true ->
    existsb (inScript Devanagari) text = true ->
    AIReply.detectLanguage text = AIReply.Hinglish.

End Spec.

(** ** Invariants of the code *)

Module Inv.

(** The registry holds no more clients than [maxSessions] allows. *)
Definition withinCapacity (st : WhatsAppHandler.State) : Prop :=
  (Z.of_nat (size (WhatsAppHandler.clients st)) <= Z.max 0 (WhatsAppHandler.maxSessions st))%Z.

(** A history of [GeminiAI] made of whole exchanges: a message of the user
    followed by the reply of the bot, any number of times. *)
Fixpoint exchanges (history : list GeminiAI.Message) : bool :=
  match history with
  | [] => true
  | user :: bot :: history' =>
    match GeminiAI.type user, GeminiAI.type bot with
    | GeminiAI.User, GeminiAI.Bot => exchanges history'
    | _, _ => false
    end
  | [_] => false
  end.

(** What holds of every history that [GeminiAI] stores. *)
Definition wellFormed (st : GeminiAI.State) : Prop :=
  forall contact history,
    GeminiAI.chatHistory st !! contact = Some history ->
    exchanges history = true /\ history <> [] /\ (length history <= 10)%nat.

(** The effects of a session that put a message into a chat, and those that
    report a reply to the front end. *)
Definition sent (e : SessionManager.effect) : bool :=
  match e with
  | SessionManager.MessageReply _ _ => true
  | _ => false
  end.

Definition reported (e : SessionManager.effect) : bool :=
  match e with
  | SessionManager.EmitReply _ _ _ => true
  | _ => false
  end.

(** What holds of a session whatever reaches it: the client held is one of
    those constructed so far, and the two counters are not negative. *)
Definition sessionOk (st : SessionManager.State) : Prop :=
  (forall c, SessionManager.client st = Some c -> (c < SessionManager.created st)%nat)
  /\ (0 <= SessionManager.qrRetries st)%Z
  /\ (0 <= SessionManager.messageCount st)%Z.

(** The turns counted in a [languageCounts] object. *)
Definition counted (languageCounts : AIReply.language -> nat) : nat :=
  (languageCounts AIReply.Hinglish + languageCounts AIReply.Hindi
   + languageCounts AIReply.English + languageCounts AIReply.Urdu
   + languageCounts AIReply.Bengali + languageCounts AIReply.Tamil
   + languageCounts AIReply.Gujarati)%nat.

End Inv.

(** * Properties *)

(** Unfolds the combinators of a method body, so that the body reduces on
    the outcomes at hand. *)
Ltac run_body :=
  unfold tryCatch, bind, gets, modify, call, ret, throw in *.

Create HintDb bounded.

(** ** Rounding to the nearest double *)

Section RoundingFacts.

Import Number.
Local Open Scope Q_scope.

Lemma pow2_pos e : 0 < pow2 e.
Proof. apply Qpower_0_lt. reflexivity. Qed.

Lemma pow2_add a b : pow2 (a + b) == pow2 a * pow2 b.
Proof. apply Qpower_plus. discriminate. Qed.

Lemma pow2_le a b : (a <= b)%Z -> pow2 a <= pow2 b.
Proof. intros H. apply Qpower_le_compat_l; [exact H|]. unfold Qle. simpl. lia. Qed.

Lemma pow2_lt a b : (a < b)%Z -> pow2 a < pow2 b.
Proof. intros H. apply Qpower_lt_compat_l; [exact H|]. reflexivity. Qed.

Lemma pow2_lt_inv a b : pow2 a < pow2 b -> (a < b)%Z.
Proof. intros H. apply (Qpower_lt_compat_l_inv 2); [exact H|]. reflexivity. Qed.

Lemma pow2_Z n : (0 <= n)%Z -> pow2 n == inject_Z (2 ^ n).
Proof. intros H. unfold pow2. rewrite (Zpower_Qpower 2 n H). reflexivity. Qed.

Lemma pow2_div x e : x / pow2 e == x * pow2 (- e).
Proof.
  unfold pow2. rewrite Qpower_opp. reflexivity.
Qed.

Lemma pow2_cancel x e : x / pow2 e * pow2 e == x.
Proof.
  pose proof (pow2_pos e) as Hp. field. intros H. rewrite H in Hp. apply (Qlt_irrefl 0 Hp).
Qed.

(** [ilog2 x] is the binade of [x]. *)
Lemma ilog2_spec x : ~ x == 0 -> pow2 (ilog2 x) <= Qabs x < pow2 (ilog2 x + 1).
Proof.
  intros Hx. unfold ilog2.
  set (a := Z.abs (Qnum x)). set (b := Zpos (Qden x)).
  assert (0 < a)%Z as Ha.
  { subst a. destruct x as [n d]. unfold Qeq in Hx. simpl in *. lia. }
  assert (0 < b)%Z as Hb by (subst b; lia).
  pose proof (Z.log2_spec a Ha) as [Hla1 Hla2].
  pose proof (Z.log2_spec b Hb) as [Hlb1 Hlb2].
  pose proof (Z.log2_nonneg a) as Hla0. pose proof (Z.log2_nonneg b) as Hlb0.
  set (la := Z.log2 a) in *. set (lb := Z.log2 b) in *.
  assert (Qabs x * inject_Z b == inject_Z a) as Hab.
  { subst a b. destruct x as [n d]. simpl. unfold Qeq, Qmult, inject_Z. simpl. lia. }
  assert (pow2 la <= inject_Z a) as HA1.
  { rewrite pow2_Z by lia. rewrite <- Zle_Qle. exact Hla1. }
  assert (inject_Z a < pow2 (la + 1)) as HA2.
  { rewrite pow2_Z by lia. rewrite <- Zlt_Qlt. exact Hla2. }
  assert (pow2 lb <= inject_Z b) as HB1.
  { rewrite pow2_Z by lia. rewrite <- Zle_Qle. exact Hlb1. }
  assert (inject_Z b < pow2 (lb + 1)) as HB2.
  { rewrite pow2_Z by lia. rewrite <- Zlt_Qlt. exact Hlb2. }
  assert (0 < Qabs x) as HX.
  { destruct (Qlt_le_dec 0 (Qabs x)) as [|Hle]; [assumption|].
    exfalso. pose proof (Qabs_nonneg x). apply Hx.
    destruct (Qabs_Qle_condition x 0) as [Hc _]. specialize (Hc Hle).
    change (- 0) with 0 in Hc. lra. }
  pose proof (pow2_pos lb) as Hplb. pose proof (pow2_pos (lb + 1)) as Hplb1.
  assert (pow2 (la - lb + 1) * pow2 lb == pow2 (la + 1)) as E1.
  { rewrite <- pow2_add. replace (la - lb + 1 + lb)%Z with (la + 1)%Z by lia. reflexivity. }
  assert (pow2 (la - lb - 1) * pow2 (lb + 1) == pow2 la) as E2.
  { rewrite <- pow2_add. replace (la - lb - 1 + (lb + 1))%Z with la by lia. reflexivity. }
  assert (Qabs x < pow2 (la - lb + 1)) as HU.
  { apply (Qmult_lt_r _ _ (pow2 lb) Hplb). rewrite E1.
    apply Qle_lt_trans with (Qabs x * inject_Z b); [|rewrite Hab; exact HA2].
    apply Qmult_le_l; [exact HX|exact HB1]. }
  assert (pow2 (la - lb - 1) < Qabs x) as HL.
  { apply (Qmult_lt_r _ _ (pow2 (lb + 1)) Hplb1). rewrite E2.
    apply Qle_lt_trans with (Qabs x * inject_Z b); [rewrite Hab; exact HA1|].
    apply Qmult_lt_l; [exact HX|exact HB2]. }
  destruct (Qle_bool (pow2 (la - lb)) (Qabs x)) eqn:Htest.
  - apply Qle_bool_iff in Htest. split; [exact Htest|exact HU].
  - split; [apply Qlt_le_weak, HL|].
    replace (la - lb - 1 + 1)%Z with (la - lb)%Z by lia.
    destruct (Qlt_le_dec (Qabs x) (pow2 (la - lb))) as [|Hle]; [assumption|].
    apply Qle_bool_iff in Hle. congruence.
Qed.

(** Rounding to an integer moves by at most one half. *)
Lemma roundHalfEven_near m :
  - (1 # 2) <= inject_Z (roundHalfEven m) - m <= 1 # 2.
Proof.
  unfold roundHalfEven. pose proof (Qfloor_le m) as Hlo. pose proof (Qlt_floor m) as Hhi.
  rewrite inject_Z_plus in Hhi. change (inject_Z 1) with 1 in Hhi.
  destruct (Qcompare_spec (m - inject_Z (Qfloor m)) (1 # 2)) as [He|Hl|Hg].
  - destruct (Z.even (Qfloor m)).
    + lra.
    + rewrite inject_Z_plus. change (inject_Z 1) with 1. lra.
  - lra.
  - rewrite inject_Z_plus. change (inject_Z 1) with 1. lra.
Qed.

Lemma roundHalfEven_ge j m : inject_Z j <= m -> (j <= roundHalfEven m)%Z.
Proof.
  intros H. pose proof (roundHalfEven_near m) as [Hn _].
  assert (inject_Z (j + -1) < inject_Z (roundHalfEven m)) as Hlt.
  { rewrite inject_Z_plus. change (inject_Z (-1)) with (- (1)). lra. }
  rewrite <- Zlt_Qlt in Hlt. lia.
Qed.

Lemma roundHalfEven_le j m : m <= inject_Z j -> (roundHalfEven m <= j)%Z.
Proof.
  intros H. pose proof (roundHalfEven_near m) as [_ Hn].
  assert (inject_Z (roundHalfEven m) < inject_Z (j + 1)) as Hlt.
  { rewrite inject_Z_plus. change (inject_Z 1) with 1. lra. }
  rewrite <- Zlt_Qlt in Hlt. lia.
Qed.

(** The integers up to [2^53] are doubles, and rounding does not cross
    them. *)
Lemma scaled_ge z x e :
  (Z.abs z <= 2 ^ 53)%Z -> ~ x == 0 -> e = Z.max (ilog2 x - 52) (-1074) ->
  inject_Z z <= x ->
  inject_Z z <= inject_Z (roundHalfEven (x / pow2 e)) * pow2 e.
Proof.
  intros Hz Hx He Hzx.
  pose proof (pow2_pos e) as HP. pose proof (pow2_cancel x e) as Hm.
  set (m := x / pow2 e) in *. 
  destruct (Z_le_gt_dec e 0) as [Hneg|Hpos].
  - assert (inject_Z (z * 2 ^ (- e)) * pow2 e == inject_Z z) as HJ.
    { rewrite inject_Z_mult, <- pow2_Z by lia. rewrite <- Qmult_assoc, <- pow2_add.
      replace (- e + e)%Z with 0%Z by lia. change (pow2 0) with 1. ring. }
    assert (inject_Z (z * 2 ^ (- e)) <= m) as Hle.
    { set (P := pow2 e) in *. set (J := inject_Z (z * 2 ^ (- e))) in *. nra. }
    apply roundHalfEven_ge in Hle. rewrite Zle_Qle in Hle.
    set (P := pow2 e) in *. set (J := inject_Z (z * 2 ^ (- e))) in *.
    set (n := inject_Z (roundHalfEven m)) in *. nra.
  - assert (e = ilog2 x - 52)%Z as He' by lia.
    pose proof (ilog2_spec x Hx) as [Hlow _].
    replace (ilog2 x) with (e + 52)%Z in Hlow by lia.
    assert (pow2 (e + 52) == pow2 52 * pow2 e) as Hsplit
      by (rewrite <- pow2_add; replace (52 + e)%Z with (e + 52)%Z by lia; reflexivity).
    assert (pow2 1 <= pow2 e) as Htwo by (apply pow2_le; lia).
    change (pow2 1) with 2 in Htwo.
    assert (pow2 52 == inject_Z (2 ^ 52)) as H52 by (apply pow2_Z; lia).
    assert (inject_Z z <= inject_Z (2 ^ 53)) as Hzu by (rewrite <- Zle_Qle; lia).
    assert (inject_Z (- 2 ^ 53) <= inject_Z z) as Hzl by (rewrite <- Zle_Qle; lia).
    assert (inject_Z (2 ^ 53) == 2 * inject_Z (2 ^ 52)) as H53 by reflexivity.
    assert (inject_Z (- 2 ^ 53) == - (2 * inject_Z (2 ^ 52))) as H53n by reflexivity.
    destruct (Qlt_le_dec 0 x) as [Hxp|Hxn].
    + rewrite Qabs_pos in Hlow by lra.
      assert (inject_Z (2 ^ 52) <= m) as Hle.
      { set (P := pow2 e) in *. set (A := pow2 52) in *. set (B := inject_Z (2 ^ 52)) in *. nra. }
      apply roundHalfEven_ge in Hle. rewrite Zle_Qle in Hle.
      set (P := pow2 e) in *. set (B := inject_Z (2 ^ 52)) in *.
      set (n := inject_Z (roundHalfEven m)) in *. nra.
    + rewrite Qabs_neg in Hlow by lra.
      assert (pow2 e <= 2) as Hsmall.
      { set (P := pow2 e) in *. set (A := pow2 52) in *. set (B := inject_Z (2 ^ 52)) in *.
        assert (0 < B) by (subst B; reflexivity). nra. }
      assert (inject_Z (- 2 ^ 52) <= m) as Hle.
      { assert (inject_Z (- 2 ^ 52) == - inject_Z (2 ^ 52)) as Hn by reflexivity.
        set (P := pow2 e) in *. set (A := pow2 52) in *. set (B := inject_Z (2 ^ 52)) in *.
        assert (0 < B) by (subst B; reflexivity). nra. }
      apply roundHalfEven_ge in Hle. rewrite Zle_Qle in Hle.
      assert (inject_Z (- 2 ^ 52) == - inject_Z (2 ^ 52)) as Hn by reflexivity.
      set (P := pow2 e) in *. set (B := inject_Z (2 ^ 52)) in *.
      set (n := inject_Z (roundHalfEven m)) in *.
      assert (0 < B) by (subst B; reflexivity). nra.
Qed.

Lemma scaled_le z x e :
  (Z.abs z <= 2 ^ 53)%Z -> ~ x == 0 -> e = Z.max (ilog2 x - 52) (-1074) ->
  x <= inject_Z z ->
  inject_Z (roundHalfEven (x / pow2 e)) * pow2 e <= inject_Z z.
Proof.
  intros Hz Hx He Hzx.
  pose proof (pow2_pos e) as HP. pose proof (pow2_cancel x e) as Hm.
  set (m := x / pow2 e) in *.
  destruct (Z_le_gt_dec e 0) as [Hneg|Hpos].
  - assert (inject_Z (z * 2 ^ (- e)) * pow2 e == inject_Z z) as HJ.
    { rewrite inject_Z_mult, <- pow2_Z by lia. rewrite <- Qmult_assoc, <- pow2_add.
      replace (- e + e)%Z with 0%Z by lia. change (pow2 0) with 1. ring. }
    assert (m <= inject_Z (z * 2 ^ (- e))) as Hle.
    { set (P := pow2 e) in *. set (J := inject_Z (z * 2 ^ (- e))) in *. nra. }
    apply roundHalfEven_le in Hle. rewrite Zle_Qle in Hle.
    set (P := pow2 e) in *. set (J := inject_Z (z * 2 ^ (- e))) in *.
    set (n := inject_Z (roundHalfEven m)) in *. nra.
  - assert (e = ilog2 x - 52)%Z as He' by lia.
    pose proof (ilog2_spec x Hx) as [Hlow _].
    replace (ilog2 x) with (e + 52)%Z in Hlow by lia.
    assert (pow2 (e + 52) == pow2 52 * pow2 e) as Hsplit
      by (rewrite <- pow2_add; replace (52 + e)%Z with (e + 52)%Z by lia; reflexivity).
    assert (pow2 1 <= pow2 e) as Htwo by (apply pow2_le; lia).
    change (pow2 1) with 2 in Htwo.
    assert (pow2 52 == inject_Z (2 ^ 52)) as H52 by (apply pow2_Z; lia).
    assert (inject_Z z <= inject_Z (2 ^ 53)) as Hzu by (rewrite <- Zle_Qle; lia).
    assert (inject_Z (- 2 ^ 53) <= inject_Z z) as Hzl by (rewrite <- Zle_Qle; lia).
    assert (inject_Z (2 ^ 53) == 2 * inject_Z (2 ^ 52)) as H53 by reflexivity.
    assert (inject_Z (- 2 ^ 53) == - (2 * inject_Z (2 ^ 52))) as H53n by reflexivity.
    assert (inject_Z (- 2 ^ 52) == - inject_Z (2 ^ 52)) as Hn by reflexivity.
    destruct (Qlt_le_dec 0 x) as [Hxp|Hxn].
    + rewrite Qabs_pos in Hlow by lra.
      assert (pow2 e <= 2) as Hsmall.
      { set (P := pow2 e) in *. set (A := pow2 52) in *. set (B := inject_Z (2 ^ 52)) in *.
        assert (0 < B) by (subst B; reflexivity). nra. }
      assert (m <= inject_Z (2 ^ 52)) as Hle.
      { set (P := pow2 e) in *. set (A := pow2 52) in *. set (B := inject_Z (2 ^ 52)) in *.
        assert (0 < B) by (subst B; reflexivity). nra. }
      apply roundHalfEven_le in Hle. rewrite Zle_Qle in Hle.
      set (P := pow2 e) in *. set (B := inject_Z (2 ^ 52)) in *.
      set (n := inject_Z (roundHalfEven m)) in *.
      assert (0 < B) by (subst B; reflexivity). nra.
    + rewrite Qabs_neg in Hlow by lra.
      assert (m <= inject_Z (- 2 ^ 52)) as Hle.
      { set (P := pow2 e) in *. set (A := pow2 52) in *. set (B := inject_Z (2 ^ 52)) in *.
        set (C := inject_Z (- 2 ^ 52)) in *. nra. }
      apply roundHalfEven_le in Hle. rewrite Zle_Qle in Hle.
      set (P := pow2 e) in *. set (B := inject_Z (2 ^ 52)) in *.
      set (C := inject_Z (- 2 ^ 52)) in *.
      set (n := inject_Z (roundHalfEven m)) in *.
      assert (0 < B) by (subst B; reflexivity). nra.
Qed.

Lemma pow2_1024_big z : (Z.abs z <= 2 ^ 53)%Z -> - pow2 1024 < inject_Z z < pow2 1024.
Proof.
  intros Hz. assert (pow2 1024 == inject_Z (2 ^ 1024)) as -> by (apply pow2_Z; lia).
  rewrite <- inject_Z_opp, <- !Zlt_Qlt.
  assert (2 ^ 53 < 2 ^ 1024)%Z by (apply Z.pow_lt_mono_r; lia). lia.
Qed.

Lemma leb_refl_fin q : leb (Fin q) (Fin q) = true.
Proof. simpl. apply Qle_bool_iff. apply Qle_refl. Qed.

Lemma roundReduced_ge z x :
  (Z.abs z <= 2 ^ 53)%Z -> inject_Z z <= x ->
  leb (Fin (inject_Z z)) (roundReduced x) = true.
Proof.
  intros Hz Hzx. unfold roundReduced.
  destruct (Qeq_bool x 0) eqn:H0.
  - apply Qeq_bool_eq in H0. simpl. apply Qle_bool_iff. lra.
  - apply Qeq_bool_neq in H0.
    pose proof (scaled_ge z x _ Hz H0 eq_refl Hzx) as Hy.
    set (y := inject_Z (roundHalfEven _) * pow2 _) in *.
    destruct (Qle_bool (pow2 1024) y) eqn:Hover; [reflexivity|].
    destruct (Qle_bool y (- pow2 1024)) eqn:Hunder.
    + apply Qle_bool_iff in Hunder. pose proof (pow2_1024_big z Hz). lra.
    + simpl. apply Qle_bool_iff. rewrite Qred_correct. exact Hy.
Qed.

Lemma roundReduced_le z x :
  (Z.abs z <= 2 ^ 53)%Z -> x <= inject_Z z ->
  leb (roundReduced x) (Fin (inject_Z z)) = true.
Proof.
  intros Hz Hzx. unfold roundReduced.
  destruct (Qeq_bool x 0) eqn:H0.
  - apply Qeq_bool_eq in H0. simpl. apply Qle_bool_iff. lra.
  - apply Qeq_bool_neq in H0.
    pose proof (scaled_le z x _ Hz H0 eq_refl Hzx) as Hy.
    set (y := inject_Z (roundHalfEven _) * pow2 _) in *.
    destruct (Qle_bool (pow2 1024) y) eqn:Hover.
    + apply Qle_bool_iff in Hover. pose proof (pow2_1024_big z Hz). lra.
    + destruct (Qle_bool y (- pow2 1024)) eqn:Hunder; [reflexivity|].
      simpl. apply Qle_bool_iff. rewrite Qred_correct. exact Hy.
Qed.

(** Rounding does not cross an integer of magnitude at most [2^53]. *)
Lemma round_ge z x :
  (Z.abs z <= 2 ^ 53)%Z -> inject_Z z <= x -> leb (Fin (inject_Z z)) (round x) = true.
Proof. intros Hz Hzx. apply roundReduced_ge; [exact Hz|]. by rewrite Qred_correct. Qed.

Lemma round_le z x :
  (Z.abs z <= 2 ^ 53)%Z -> x <= inject_Z z -> leb (round x) (Fin (inject_Z z)) = true.
Proof. intros Hz Hzx. apply roundReduced_le; [exact Hz|]. by rewrite Qred_correct. Qed.

(** What [round] returns is in lowest terms. *)
Lemma round_reduced x y : round x = Fin y -> Qred y = y.
Proof.
  unfold round, roundReduced. destruct (Qeq_bool _ _); [by intros [= <-]|].
  destruct (Qle_bool _ _); [done|]. destruct (Qle_bool _ _); [done|].
  intros [= <-]. apply Qred_complete, Qred_correct.
Qed.


(** Between two such integers the result is finite and lies between
    them. *)
Lemma round_between lo hi x :
  (Z.abs lo <= 2 ^ 53)%Z -> (Z.abs hi <= 2 ^ 53)%Z ->
  inject_Z lo <= x <= inject_Z hi ->
  exists y, round x = Fin y /\ Qred y = y /\ inject_Z lo <= y <= inject_Z hi.
Proof.
  intros Hlo Hhi [Hx1 Hx2].
  pose proof (round_ge lo x Hlo Hx1) as H1. pose proof (round_le hi x Hhi Hx2) as H2.
  destruct (round x) as [y| | |] eqn:Hr; try done.
  exists y. split; [done|]. split; [by apply (round_reduced x)|].
  simpl in H1, H2. apply Qle_bool_iff in H1. apply Qle_bool_iff in H2. done.
Qed.

Lemma Qred_inject_Z z : Qred (inject_Z z) = inject_Z z.
Proof.
  unfold Qred, inject_Z. simpl.
  pose proof (Z.ggcd_gcd z 1) as Hg. pose proof (Z.ggcd_correct_divisors z 1) as Hd.
  destruct (Z.ggcd z 1) as [g [a b]]. simpl in *.
  rewrite Z.gcd_1_r in Hg. subst g. destruct Hd as [Ha Hb].
  rewrite Z.mul_1_l in Ha, Hb. subst a b. reflexivity.
Qed.

(** An integer of magnitude at most [2^53] is a double. *)
Lemma round_int z : (Z.abs z <= 2 ^ 53)%Z -> round (inject_Z z) = Fin (inject_Z z).
Proof.
  intros Hz.
  destruct (round_between z z (inject_Z z) Hz Hz) as (y & Hr & Hred & Hy1 & Hy2);
    [split; apply Qle_refl|].
  rewrite Hr. f_equal. rewrite <- Hred, <- Qred_inject_Z. apply Qred_complete. lra.
Qed.

End RoundingFacts.

Section RandomFacts.

Import Number.
Local Open Scope Q_scope.

(** The largest double below [1] is [1 - 2^-53]. *)
Lemma double_below_one r :
  isDouble r = true -> 0 <= r -> r < 1 -> r <= 1 - pow2 (-53).
Proof.
  intros Hd H0 H1. unfold isDouble, round, roundReduced in Hd.
  pose proof (Qred_correct r) as Hx. set (x := Qred r) in *.
  assert (pow2 (-53) == 1 # 9007199254740992) as Hulp by reflexivity.
  destruct (Qeq_bool x 0) eqn:Hz.
  { apply Qeq_bool_eq in Hz. rewrite Hulp. lra. }
  apply Qeq_bool_neq in Hz.
  pose proof (ilog2_spec x Hz) as [Hlow Hup].
  rewrite Qabs_pos in Hlow, Hup by lra.
  set (k := ilog2 x) in *.
  assert (k < 0)%Z as Hk.
  { apply pow2_lt_inv. change (pow2 0) with 1. lra. }
  destruct (Z.eq_dec k (-1)%Z) as [Hk1|Hk1].
  - rewrite Hk1 in Hd. change (Z.max (-1 - 52) (-1074)) with (-53)%Z in Hd.
    set (n := roundHalfEven (x / pow2 (-53))) in *.
    destruct (Qle_bool (pow2 1024) _); [done|].
    destruct (Qle_bool _ (- pow2 1024)); [done|].
    apply Qeq_bool_eq in Hd. rewrite Qred_correct in Hd.
    assert (inject_Z n < inject_Z (2 ^ 53)) as Hn.
    { change (inject_Z (2 ^ 53)) with (9007199254740992 # 1). rewrite Hulp in Hd. lra. }
    rewrite <- Zlt_Qlt in Hn.
    assert (inject_Z n <= inject_Z (2 ^ 53 - 1)) as Hn' by (rewrite <- Zle_Qle; lia).
    change (inject_Z (2 ^ 53 - 1)) with (9007199254740991 # 1) in Hn'.
    rewrite Hulp in Hd |- *. lra.
  - assert (pow2 (k + 1) <= pow2 (-1)) as Hhalf by (apply pow2_le; lia).
    change (pow2 (-1)) with (1 # 2) in Hhalf. rewrite Hulp. lra.
Qed.

(** [Math.random() * 5] stays below [5] after rounding. *)
Lemma times_five r :
  0 <= r -> r <= 1 - pow2 (-53) ->
  exists y, round (r * 5) = Fin y /\ 0 <= y < 5.
Proof.
  intros H0 H1.
  assert (pow2 (-53) == 1 # 9007199254740992) as Hulp by reflexivity.
  rewrite Hulp in H1.
  destruct (Qlt_le_dec (r * 5) 4) as [Hsmall|Hbig].
  - destruct (round_between 0 4 (r * 5)) as (y & Hy & _ & Hy1 & Hy2); [lia|lia| |].
    { change (inject_Z 0) with 0. change (inject_Z 4) with 4. lra. }
    exists y. split; [done|]. change (inject_Z 0) with 0 in Hy1. change (inject_Z 4) with 4 in Hy2.
    lra.
  - unfold round, roundReduced.
    pose proof (Qred_correct (r * 5)) as Hx. set (x := Qred (r * 5)) in *.
    assert (~ x == 0) as Hz by (intros Hz; lra).
    destruct (Qeq_bool x 0) eqn:Hq; [by apply Qeq_bool_eq in Hq|]. clear Hq.
    pose proof (ilog2_spec x Hz) as [Hlow Hup].
    rewrite Qabs_pos in Hlow, Hup by lra.
    assert (ilog2 x = 2%Z) as ->.
    { assert (ilog2 x < 3)%Z by (apply pow2_lt_inv; change (pow2 3) with 8; lra).
      assert (2 < ilog2 x + 1)%Z by (apply pow2_lt_inv; change (pow2 2) with 4; lra). lia. }
    change (Z.max (2 - 52) (-1074)) with (-50)%Z.
    assert (pow2 (-50) == 1 # 1125899906842624) as Hp by reflexivity.
    pose proof (pow2_cancel x (-50)) as Hm. set (m := x / pow2 (-50)) in *.
    pose proof (roundHalfEven_near m) as [_ Hnear].
    assert (inject_Z (4 * 2 ^ 50) <= m) as Hge.
    { change (inject_Z (4 * 2 ^ 50)) with (4503599627370496 # 1). rewrite Hp in Hm. lra. }
    apply roundHalfEven_ge in Hge. rewrite Zle_Qle in Hge.
    change (inject_Z (4 * 2 ^ 50)) with (4503599627370496 # 1) in Hge.
    assert (inject_Z (roundHalfEven m) < inject_Z (5 * 2 ^ 50)) as Hlt.
    { change (inject_Z (5 * 2 ^ 50)) with (5629499534213120 # 1). rewrite Hp in Hm. lra. }
    rewrite <- Zlt_Qlt in Hlt.
    assert (inject_Z (roundHalfEven m) <= inject_Z (5 * 2 ^ 50 - 1)) as Hle
      by (rewrite <- Zle_Qle; lia).
    change (inject_Z (5 * 2 ^ 50 - 1)) with (5629499534213119 # 1) in Hle.
    set (n := inject_Z (roundHalfEven m)) in *.
    assert (pow2 1024 == inject_Z (2 ^ 1024)) as H1024 by (apply pow2_Z; lia).
    assert (inject_Z 5 < inject_Z (2 ^ 1024)) as Hfar
      by (rewrite <- Zlt_Qlt; apply Z.lt_trans with (2 ^ 3)%Z; [lia|apply Z.pow_lt_mono_r; lia]).
    change (inject_Z 5) with 5 in Hfar.
    assert (0 <= n * pow2 (-50) < 5) as Hy by (rewrite Hp; lra).
    destruct (Qle_bool (pow2 1024) (n * pow2 (-50))) eqn:Hover.
    { apply Qle_bool_iff in Hover. lra. }
    destruct (Qle_bool (n * pow2 (-50)) (- pow2 1024)) eqn:Hunder.
    { apply Qle_bool_iff in Hunder. lra. }
    eexists. split; [reflexivity|]. rewrite Qred_correct. exact Hy.
Qed.

End RandomFacts.

(** ** Phone numbers and delivery targets *)

Section PhoneNumberFacts.

Import WhatsAppHandler.

Lemma stripNonDigits_digits number : forallb isDigit (stripNonDigits number) = true.
Proof.
  unfold stripNonDigits. induction number as [|c number IH]; [done|].
  rewrite filter_cons. destruct (decide (isDigit c = true)) as [Hc|Hc]; [|done].
  simpl. by rewrite Hc, IH.
Qed.

Lemma digit_not_at c : isDigit c = true -> (c =? 64) = false.
Proof.
  unfold isDigit, inRange. intros [H1 H2]%andb_true_iff.
  apply N.leb_le in H1, H2. apply N.eqb_neq. lia.
Qed.

(** A string of digits does not contain [@c.us], so the suffix is always
    appended. *)
Lemma digits_exclude_suffix d :
  forallb isDigit d = true -> includes d (js "@c.us") = false.
Proof.
  induction d as [|c d IH]; [done|].
  intros [Hc Hd]%andb_true_iff.
  change (js "@c.us") with (64 :: js "c.us").
  cbn [includes startsWith]. rewrite (digit_not_at c Hc). simpl.
  exact (IH Hd).
Qed.

Lemma nationalPrefix_digits number : forallb isDigit (Spec.nationalPrefix number) = true.
Proof.
  unfold Spec.nationalPrefix. fold (stripNonDigits number).
  destruct (_ && _); [rewrite forallb_app|]; by rewrite stripNonDigits_digits.
Qed.

Lemma formatPhoneNumber_eq number :
  formatPhoneNumber number = Spec.nationalPrefix number ++ js "@c.us".
Proof.
  unfold formatPhoneNumber.
  set (digits := stripNonDigits number).
  assert (Hp : (if negb (startsWith digits (js "91")) && (length digits =? 10)%nat
                then js "91" ++ digits else digits) = Spec.nationalPrefix number).
  { unfold Spec.nationalPrefix. fold (stripNonDigits number). fold digits. by rewrite andb_comm. }
  rewrite Hp.
  by rewrite (digits_exclude_suffix _ (nationalPrefix_digits number)).
Qed.

(** The calls that [sendMessage] makes on the client are addressed to the
    formatted number. *)
Lemma sendMessage_calls w sessionId to message st :
  exists new,
    calls (sendMessage w sessionId to message st).2 = new ++ calls st
    /\ Forall (fun c => target c = Some (formatPhoneNumber to)) new.
Proof.
  unfold sendMessage. run_body.
  destruct (clients st !! sessionId) as [client|]; [|by exists []].
  destruct w as [[] [] [] []]; simpl;
    first [ by exists [] | by eexists [_] | by eexists [_; _] | by eexists [_; _; _]
          | (eexists [_]; split; [reflexivity|repeat constructor])
          | (eexists [_; _]; split; [reflexivity|repeat constructor])
          | (eexists [_; _; _]; split; [reflexivity|repeat constructor]) ].
Qed.

End PhoneNumberFacts.

Example formatPhoneNumber_examples :
  WhatsAppHandler.formatPhoneNumber (js "+91 98765-43210") = js "919876543210@c.us"
  /\ WhatsAppHandler.formatPhoneNumber (js "98765 43210") = js "919876543210@c.us"
  /\ WhatsAppHandler.formatPhoneNumber (js "9112345678") = js "9112345678@c.us"
  /\ WhatsAppHandler.formatPhoneNumber (js "12345") = js "12345@c.us"
  /\ WhatsAppHandler.formatPhoneNumber (js "n/a") = js "@c.us".
Proof. vm_compute. repeat split; reflexivity. Qed.

(** C10.  [formatPhoneNumber] keeps the digits of its argument, puts [91] in
    front exactly when ten digits remain that do not start with [91], and
    always appends [@c.us]; what precedes the suffix consists of digits, and
    every call that [sendMessage] makes on the client is addressed to that
    string. *)
Theorem formatPhoneNumber_delivery_target :
  forall number : list N,
    let digits := filter (fun c => isDigit c = true) number in
    WhatsAppHandler.formatPhoneNumber number
    = (if (length digits =? 10)%nat && negb (startsWith digits (js "91"))
       then js "91" ++ digits else digits) ++ js "@c.us"
    /\ forallb isDigit
         (if (length digits =? 10)%nat && negb (startsWith digits (js "91"))
          then js "91" ++ digits else digits) = true
    /\ forall w sessionId message st,
        exists new,
          WhatsAppHandler.calls (WhatsAppHandler.sendMessage w sessionId number message st).2
          = new ++ WhatsAppHandler.calls st
          /\ Forall (fun c => WhatsAppHandler.target c
                              = Some (WhatsAppHandler.formatPhoneNumber number)) new.
Proof.
  intros number digits. split; [|split].
  - apply formatPhoneNumber_eq.
  - apply nationalPrefix_digits.
  - intros. apply sendMessage_calls.
Qed.

(** ** The session registry *)

Section RegistryFacts.

Import WhatsAppHandler.

Lemma createClient_existing constructed sessionId st client :
  clients st !! sessionId = Some client ->
  createClient constructed sessionId st = (Returned client, st).
Proof. intros H. unfold createClient. by rewrite H. Qed.

Lemma createClient_full constructed sessionId st :
  clients st !! sessionId = None ->
  (maxSessions st <= Z.of_nat (size (clients st)))%Z ->
  createClient constructed sessionId st = (Threw (MaximumSessions (maxSessions st)), st).
Proof.
  intros H Hfull. unfold createClient. rewrite H.
  by rewrite (proj2 (Z.leb_le _ _) Hfull).
Qed.

Lemma createClient_new client sessionId st :
  clients st !! sessionId = None ->
  (Z.of_nat (size (clients st)) < maxSessions st)%Z ->
  createClient (Some client) sessionId st
  = (Returned client, setClients (insert sessionId client) st).
Proof.
  intros H Hroom. unfold createClient. rewrite H.
  by rewrite (proj2 (Z.leb_gt _ _) Hroom).
Qed.

Lemma createClient_failed sessionId st :
  clients st !! sessionId = None ->
  (Z.of_nat (size (clients st)) < maxSessions st)%Z ->
  createClient None sessionId st = (Threw AdapterFailure, st).
Proof.
  intros H Hroom. unfold createClient. rewrite H.
  by rewrite (proj2 (Z.leb_gt _ _) Hroom).
Qed.

(** Whatever a call returns, the next call with the same id returns it
    again and writes nothing. *)
Lemma createClient_again constructed constructed' sessionId st client st' :
  createClient constructed sessionId st = (Returned client, st') ->
  createClient constructed' sessionId st' = (Returned client, st').
Proof.
  unfold createClient.
  destruct (clients st !! sessionId) as [c|] eqn:H.
  - intros [= <- <-]. by rewrite H.
  - destruct (_ <=? _)%Z; [done|].
    destruct constructed as [c|]; [|done].
    intros [= <- <-]. simpl. by rewrite lookup_insert_eq.
Qed.

Lemma destroySession_absent destroyed removed sessionId st :
  clients st !! sessionId = None ->
  destroySession destroyed removed sessionId st = (Returned false, st).
Proof. intros H. unfold destroySession. run_body. by rewrite H. Qed.

Lemma destroySession_present destroyed removed sessionId st client :
  clients st !! sessionId = Some client ->
  exists st',
    destroySession destroyed removed sessionId st = (Returned destroyed, st')
    /\ clients st' = delete sessionId (clients st)
    /\ maxSessions st' = maxSessions st.
Proof.
  intros H. unfold destroySession. run_body. rewrite H.
  destruct destroyed; simpl; eauto.
Qed.

End RegistryFacts.

(** C5.  [createClient] returns the registered client of an id that is
    already in the registry and leaves the state as it is; for a new id it
    throws the capacity error when the registry holds [maxSessions] clients
    or more; otherwise the constructed client is registered under the id and
    returned (and a failure of the constructor is thrown on, the registry
    unchanged).  A call that returned a client is repeated without effect:
    the same client comes back and nothing is written. *)
Theorem createClient_idempotent :
  forall (constructed : option WhatsAppHandler.Client) (sessionId : list N)
         (st : WhatsAppHandler.State),
    (forall client,
        WhatsAppHandler.clients st !! sessionId = Some client ->
        WhatsAppHandler.createClient constructed sessionId st = (Returned client, st))
    /\ (WhatsAppHandler.clients st !! sessionId = None ->
        (WhatsAppHandler.maxSessions st <= Z.of_nat (size (WhatsAppHandler.clients st)))%Z ->
        WhatsAppHandler.createClient constructed sessionId st
        = (Threw (WhatsAppHandler.MaximumSessions (WhatsAppHandler.maxSessions st)), st))
    /\ (WhatsAppHandler.clients st !! sessionId = None ->
        (Z.of_nat (size (WhatsAppHandler.clients st)) < WhatsAppHandler.maxSessions st)%Z ->
        match constructed with
        | Some client =>
          exists st',
            WhatsAppHandler.createClient constructed sessionId st = (Returned client, st')
            /\ WhatsAppHandler.clients st' = <[sessionId := client]> (WhatsAppHandler.clients st)
            /\ size (WhatsAppHandler.clients st') = S (size (WhatsAppHandler.clients st))
            /\ WhatsAppHandler.maxSessions st' = WhatsAppHandler.maxSessions st
        | None =>
          WhatsAppHandler.createClient constructed sessionId st
          = (Threw WhatsAppHandler.AdapterFailure, st)
        end)
    /\ (forall client st' constructed',
        WhatsAppHandler.createClient constructed sessionId st = (Returned client, st') ->
        WhatsAppHandler.createClient constructed' sessionId st' = (Returned client, st')).
Proof.
  intros constructed sessionId st. repeat split.
  - intros client. apply createClient_existing.
  - apply createClient_full.
  - intros Hnew Hroom. destruct constructed as [client|].
    + eexists. split; [by apply createClient_new|]. simpl.
      split; [done|]. split; [|done]. by apply map_size_insert_None.
    + by apply createClient_failed.
  - intros client st' constructed'. apply createClient_again.
Qed.

(** A registry for two sessions: [a] is created, asked for again, [b] is
    created, and [c] finds the registry full. *)
Lemma createClient_idempotent_witness :
  let a := {| WhatsAppHandler.handle := 1 |} in
  let b := {| WhatsAppHandler.handle := 2 |} in
  let c := {| WhatsAppHandler.handle := 3 |} in
  let st0 := WhatsAppHandler.create (Some 2%Z) ∅ in
  let st1 := WhatsAppHandler.setClients (insert (js "a") a) st0 in
  let st2 := WhatsAppHandler.setClients (insert (js "b") b) st1 in
  WhatsAppHandler.createClient (Some a) (js "a") st0 = (Returned a, st1)
  /\ WhatsAppHandler.createClient (Some c) (js "a") st1 = (Returned a, st1)
  /\ WhatsAppHandler.createClient (Some b) (js "b") st1 = (Returned b, st2)
  /\ WhatsAppHandler.createClient (Some c) (js "c") st2
     = (Threw (WhatsAppHandler.MaximumSessions 2), st2).
Proof.
  intros a b c st0 st1 st2.
  assert (WhatsAppHandler.createClient (Some a) (js "a") st0 = (Returned a, st1)) as H0
    by (vm_compute; reflexivity).
  assert (WhatsAppHandler.createClient (Some b) (js "b") st1 = (Returned b, st2)) as H1
    by (vm_compute; reflexivity).
  split; [exact H0|]. split; [|split; [exact H1|]].
  - destruct (createClient_idempotent (Some a) (js "a") st0) as (_ & _ & _ & Hagain).
    exact (Hagain a st1 (Some c) H0).
  - destruct (createClient_idempotent (Some c) (js "c") st2) as (_ & Hfull & _).
    apply Hfull; vm_compute; [reflexivity|discriminate].
Defined.

(** C6, as the code has it.  [destroySession] always returns, never throws;
    afterwards the id is absent from the registry and the other entries are
    as before, also when [client.destroy()] throws.  It returns [true]
    exactly when the id was registered and the adapter was torn down without
    error; a second call finds nothing, writes nothing and returns [false]. *)
Theorem destroySession_never_throws :
  forall (destroyed removed : bool) (sessionId : list N) (st : WhatsAppHandler.State),
    exists (b : bool) (st' : WhatsAppHandler.State),
      WhatsAppHandler.destroySession destroyed removed sessionId st = (Returned b, st')
      /\ WhatsAppHandler.clients st' = delete sessionId (WhatsAppHandler.clients st)
      /\ WhatsAppHandler.clients st' !! sessionId = None
      /\ (b = true <-> is_Some (WhatsAppHandler.clients st !! sessionId) /\ destroyed = true)
      /\ forall destroyed' removed',
          WhatsAppHandler.destroySession destroyed' removed' sessionId st' = (Returned false, st').
Proof.
  intros destroyed removed sessionId st.
  destruct (WhatsAppHandler.clients st !! sessionId) as [client|] eqn:H.
  - destruct (destroySession_present destroyed removed sessionId st client H)
      as (st' & Hrun & Hclients & _).
    exists destroyed, st'. rewrite Hrun, Hclients, lookup_delete_eq.
    split; [done|]. split; [done|]. split; [done|]. split.
    + split; [intros ->; by eauto|by intros [_ ->]].
    + intros. apply destroySession_absent. by rewrite Hclients, lookup_delete_eq.
  - exists false, st. rewrite destroySession_absent by done.
    rewrite delete_id by done.
    split; [done|]. split; [done|]. split; [done|]. split.
    + split; [done|]. by intros [[? ?] _].
    + intros. by apply destroySession_absent.
Qed.

(** C6, the claim as stated fails: with the session [s1] registered, the
    first call tears it down and returns [true]; the second call returns
    [false], the value that also reports a failed teardown, not success. *)
Lemma destroySession_twice_returns_false :
  let st := {| WhatsAppHandler.clients := {[js "s1" := {| WhatsAppHandler.handle := 0 |}]};
               WhatsAppHandler.maxSessions := 10;
               WhatsAppHandler.sessionDirs := {[js "s1"]};
               WhatsAppHandler.calls := [] |} in
  let first := WhatsAppHandler.destroySession true true (js "s1") st in
  let second := WhatsAppHandler.destroySession true true (js "s1") first.2 in
  first.1 = Returned true
  /\ second.1 = Returned false
  /\ second.1 <> Returned true
  /\ second.2 = first.2.
Proof. vm_compute. repeat split; congruence. Qed.

(** ** The rate limiters *)

Section RateLimitFacts.

Import AIReply.

(** [x || 2] is truthy whatever [x] is. *)
Lemma limitExceeded_always limitEnv userLimits : limitExceeded limitEnv userLimits = true.
Proof. unfold limitExceeded, jsOr. simpl. by destruct (geNum _ _). Qed.

(** Hence [checkRateLimit] denies every attempt, and never reaches the
    [set] that would store a counter. *)
Lemma checkRateLimit_denies limitEnv now fromNumber st :
  (checkRateLimit limitEnv now fromNumber st).1 = false.
Proof. unfold checkRateLimit. by rewrite limitExceeded_always. Qed.

Lemma checkRateLimit_history limitEnv now fromNumber st :
  conversationHistory (checkRateLimit limitEnv now fromNumber st).2 = conversationHistory st.
Proof. unfold checkRateLimit. by rewrite limitExceeded_always. Qed.

Lemma checkRateLimit_fresh limitEnv now fromNumber st :
  rateLimits st !! fromNumber = None ->
  checkRateLimit limitEnv now fromNumber st = (false, st).
Proof.
  intros H. unfold checkRateLimit. rewrite limitExceeded_always, H. by destruct st.
Qed.

(** So [generateReply] answers [null] and writes no history. *)
Lemma generateReply_suppressed limitEnv apiResult now message fromNumber st :
  generateReply limitEnv apiResult now message fromNumber st
  = (Returned None, (checkRateLimit limitEnv now fromNumber st).2).
Proof.
  unfold generateReply, lift. run_body.
  by rewrite checkRateLimit_denies.
Qed.

Lemma generateReply_history limitEnv apiResult now message fromNumber st :
  conversationHistory (generateReply limitEnv apiResult now message fromNumber st).2
  = conversationHistory st.
Proof. rewrite generateReply_suppressed. apply checkRateLimit_history. Qed.

(** The limiter of [GeminiAI] is a minimum gap: with the default of two
    messages per minute, a contact whose last reply was recorded at
    [lastReply] is answered again only more than thirty seconds later. *)
Lemma canReply_gap now contactNumber st lastReply :
  GeminiAI.lastReplyTime st !! contactNumber = Some lastReply ->
  lastReply <> 0%Z ->
  GeminiAI.canReply None now contactNumber st = (30000 <? now - lastReply)%Z.
Proof.
  intros H Hnz. unfold GeminiAI.canReply. rewrite H.
  rewrite (proj2 (Z.eqb_neq _ _) Hnz). simpl orDefault.
  destruct (Qle_bool _ _) eqn:Hq.
  - apply Qle_bool_iff in Hq. unfold Qle in Hq. simpl in Hq.
    symmetry. apply Z.ltb_ge. lia.
  - symmetry. apply Z.ltb_lt.
    destruct (Z_lt_le_dec 30000 (now - lastReply)) as [|Hle]; [done|].
    assert (Qle_bool (inject_Z (now - lastReply)) (inject_Z (60 * 1000) / inject_Z 2) = true)
      as Hq'; [|congruence].
    apply Qle_bool_iff. unfold Qle. simpl. lia.
Qed.

End RateLimitFacts.

(** The limiter in the words of the specification, from the instant 1000
    and with the default quota: two attempts pass, the third does not, and
    an attempt after the window has elapsed passes again. *)
Example spec_checkRateLimit_examples :
  let contact := js "919876543210" in
  let attempt now st := Spec.checkRateLimit None now contact st in
  let st1 := (attempt 1000%Z AIReply.initial).2 in
  let st2 := (attempt 1001%Z st1).2 in
  let st3 := (attempt 1002%Z st2).2 in
  (attempt 1000%Z AIReply.initial).1 = true
  /\ (attempt 1001%Z st1).1 = true
  /\ (attempt 1002%Z st2).1 = false
  /\ (attempt 61000%Z st3).1 = false
  /\ (attempt 61001%Z st3).1 = true.
Proof. vm_compute. repeat split; reflexivity. Qed.

(** C1, the code at the failing input.  The first attempt of a contact that
    has no entry, with [MESSAGE_RATE_LIMIT] unset, is denied and nothing is
    stored, where the limiter of the specification allows it and counts it;
    indeed [checkRateLimit] denies every attempt in every state, so neither
    the first two attempts of a window nor an attempt after the window has
    elapsed is allowed. *)
Theorem checkRateLimit_denies_first_attempt :
  AIReply.checkRateLimit None 1000 (js "919876543210") AIReply.initial
  = (false, AIReply.initial)
  /\ (Spec.checkRateLimit None 1000 (js "919876543210") AIReply.initial).1 = true
  /\ forall limitEnv now fromNumber st,
      (AIReply.checkRateLimit limitEnv now fromNumber st).1 = false.
Proof.
  split; [|split].
  - by apply checkRateLimit_fresh.
  - reflexivity.
  - apply checkRateLimit_denies.
Qed.

(** ** Conversation histories *)

Section HistoryFacts.

Lemma boundedAI_update now fromNumber userMessage aiReply lang st :
  Spec.boundedAI st ->
  Spec.boundedAI (AIReply.updateConversationHistory now fromNumber userMessage aiReply lang st).
Proof.
  intros Hb contact history. unfold AIReply.updateConversationHistory. simpl.
  destruct (decide (fromNumber = contact)) as [->|Hne].
  - rewrite lookup_insert_eq. intros [= <-].
    assert (length (AIReply.getConversationHistory contact st) <= 10)%nat as Hlen.
    { unfold AIReply.getConversationHistory.
      destruct (AIReply.conversationHistory st !! contact) as [h|] eqn:Hh; simpl; [|lia].
      by apply (Hb contact). }
    destruct (10 <? _)%nat eqn:Hcmp.
    + rewrite length_tl, length_app. simpl. lia.
    + apply Nat.ltb_ge in Hcmp. done.
  - rewrite lookup_insert_ne by done. apply Hb.
Qed.

Lemma boundedAI_run o st : Spec.boundedAI st -> Spec.boundedAI (AIReply.run o st).
Proof.
  intros Hb. destruct o; simpl.
  - intros contact history. rewrite generateReply_history. apply Hb.
  - by apply boundedAI_update.
  - intros contact history. simpl.
    intros [H _]%map_lookup_filter_Some. by apply (Hb contact).
  - intros contact history. simpl.
    intros [_ H]%lookup_delete_Some. by apply (Hb contact).
  - intros contact history. simpl. by rewrite lookup_empty.
Qed.

#[local] Hint Resolve boundedAI_update boundedAI_run : bounded.

Lemma boundedAI_runAll ops st : Spec.boundedAI st -> Spec.boundedAI (AIReply.runAll ops st).
Proof.
  revert st. induction ops as [|o ops IH]; intros st Hb; simpl; eauto with bounded.
Qed.

Lemma boundedAI_initial : Spec.boundedAI AIReply.initial.
Proof. intros contact history. simpl. by rewrite lookup_empty. Qed.

(** With ten turns stored, [push] and [shift] leave the last nine of them,
    in their order, followed by the new one. *)
Lemma update_evicts_oldest now fromNumber userMessage aiReply lang st first rest :
  AIReply.conversationHistory st !! fromNumber = Some (first :: rest) ->
  length (first :: rest) = 10%nat ->
  AIReply.conversationHistory
    (AIReply.updateConversationHistory now fromNumber userMessage aiReply lang st) !! fromNumber
  = Some (rest ++ [{| AIReply.userMessage := userMessage; AIReply.aiReply := aiReply;
                      AIReply.turnLanguage := lang; AIReply.timestamp := now |}]).
Proof.
  intros H Hlen. unfold AIReply.updateConversationHistory, AIReply.getConversationHistory.
  simpl. rewrite lookup_insert_eq, H. simpl default.
  replace (10 <? length ((first :: rest) ++ _))%nat with true; [done|].
  symmetry. apply Nat.ltb_lt. rewrite length_app. simpl in *. lia.
Qed.

(** Below the cap nothing is evicted. *)
Lemma update_appends now fromNumber userMessage aiReply lang st :
  (length (AIReply.getConversationHistory fromNumber st) < 10)%nat ->
  AIReply.conversationHistory
    (AIReply.updateConversationHistory now fromNumber userMessage aiReply lang st) !! fromNumber
  = Some (AIReply.getConversationHistory fromNumber st
          ++ [{| AIReply.userMessage := userMessage; AIReply.aiReply := aiReply;
                 AIReply.turnLanguage := lang; AIReply.timestamp := now |}]).
Proof.
  intros Hlen. unfold AIReply.updateConversationHistory. simpl.
  rewrite lookup_insert_eq.
  replace (10 <? length (_ ++ _))%nat with false; [done|].
  symmetry. apply Nat.ltb_ge. rewrite length_app. simpl. lia.
Qed.

Lemma lastTen_length {A} (l : list A) : (length (GeminiAI.lastTen l) <= 10)%nat.
Proof. unfold GeminiAI.lastTen. rewrite length_drop. lia. Qed.

Lemma boundedGemini_update tUser tBot contactNumber userMessage botReply st :
  Spec.boundedGemini st ->
  Spec.boundedGemini
    (GeminiAI.updateChatHistory tUser tBot contactNumber userMessage botReply st).
Proof.
  intros Hb contact history. unfold GeminiAI.updateChatHistory. simpl.
  destruct (decide (contactNumber = contact)) as [->|Hne].
  - rewrite lookup_insert_eq. intros [= <-].
    destruct (10 <? _)%nat eqn:Hcmp.
    + apply lastTen_length.
    + apply Nat.ltb_ge in Hcmp. done.
  - rewrite lookup_insert_ne by done. apply Hb.
Qed.

Lemma boundedGemini_run o st : Spec.boundedGemini st -> Spec.boundedGemini (GeminiAI.run o st).
Proof.
  intros Hb. destruct o; simpl.
  - unfold GeminiAI.generateReply, GeminiAI.generateContent. run_body.
    destruct (negb _); [done|].
    destruct (GeminiAI.completion w); [|done]. simpl.
    intros contact history. apply (boundedGemini_update _ _ _ _ _ _ Hb).
  - by apply boundedGemini_update.
  - intros contact history. simpl.
    intros [_ H]%lookup_delete_Some. by apply (Hb contact).
  - intros contact history. simpl.
    intros [H _]%map_lookup_filter_Some. by apply (Hb contact).
Qed.

#[local] Hint Resolve boundedGemini_update boundedGemini_run : bounded.

Lemma boundedGemini_runAll ops st :
  Spec.boundedGemini st -> Spec.boundedGemini (GeminiAI.runAll ops st).
Proof.
  revert st. induction ops as [|o ops IH]; intros st Hb; simpl; eauto with bounded.
Qed.

Lemma boundedGemini_initial : Spec.boundedGemini GeminiAI.initial.
Proof. intros contact history. simpl. by rewrite lookup_empty. Qed.

(** With ten entries stored, an exchange pushes out the two oldest ones. *)
Lemma updateChatHistory_keeps_last_ten tUser tBot contactNumber userMessage botReply st history :
  GeminiAI.chatHistory st !! contactNumber = Some history ->
  length history = 10%nat ->
  GeminiAI.chatHistory
    (GeminiAI.updateChatHistory tUser tBot contactNumber userMessage botReply st)
    !! contactNumber
  = Some (drop 2 history
          ++ [{| GeminiAI.type := GeminiAI.User; GeminiAI.message := userMessage;
                 GeminiAI.timestamp := tUser |};
              {| GeminiAI.type := GeminiAI.Bot; GeminiAI.message := botReply;
                 GeminiAI.timestamp := tBot |}]).
Proof.
  intros H Hlen. unfold GeminiAI.updateChatHistory, GeminiAI.getChatHistory. simpl.
  rewrite lookup_insert_eq, H. simpl default.
  replace (10 <? length ((history ++ _) ++ _))%nat with true
    by (symmetry; apply Nat.ltb_lt; rewrite !length_app; simpl; lia).
  unfold GeminiAI.lastTen. rewrite <- app_assoc. simpl.
  rewrite length_app, Hlen. simpl.
  rewrite drop_app_le by lia. done.
Qed.

Lemma runAll_snoc_ai ops o st :
  AIReply.runAll (ops ++ [o]) st = AIReply.run o (AIReply.runAll ops st).
Proof. unfold AIReply.runAll. by rewrite foldl_app. Qed.

Lemma runAll_snoc_gemini ops o st :
  GeminiAI.runAll (ops ++ [o]) st = GeminiAI.run o (GeminiAI.runAll ops st).
Proof. unfold GeminiAI.runAll. by rewrite foldl_app. Qed.

Lemma update_history now fromNumber userMessage aiReply lang st :
  AIReply.getConversationHistory fromNumber
    (AIReply.updateConversationHistory now fromNumber userMessage aiReply lang st)
  = let history := AIReply.getConversationHistory fromNumber st
                   ++ [{| AIReply.userMessage := userMessage; AIReply.aiReply := aiReply;
                          AIReply.turnLanguage := lang; AIReply.timestamp := now |}] in
    if (10 <? length history)%nat then tail history else history.
Proof.
  unfold AIReply.updateConversationHistory, AIReply.getConversationHistory at 1. simpl.
  by rewrite lookup_insert_eq.
Qed.

Lemma update_others now fromNumber userMessage aiReply lang st contact :
  contact <> fromNumber ->
  AIReply.conversationHistory
    (AIReply.updateConversationHistory now fromNumber userMessage aiReply lang st) !! contact
  = AIReply.conversationHistory st !! contact.
Proof.
  intros Hne. unfold AIReply.updateConversationHistory. simpl.
  by rewrite lookup_insert_ne.
Qed.

Lemma drop_snoc_capped {A} n (l : list A) (x : A) :
  (0 < n)%nat ->
  drop (length (l ++ [x]) - n) (l ++ [x])
  = let held := drop (length l - n) l ++ [x] in
    if (n <? length held)%nat then tail held else held.
Proof.
  intros Hn. cbv zeta. rewrite !length_app, length_drop. simpl length.
  destruct (decide (length l < n)%nat) as [Hlt|Hge].
  - replace (length l + 1 - n)%nat with 0%nat by lia.
    replace (length l - n)%nat with 0%nat by lia. rewrite !drop_0.
    replace (n <? length l - 0 + 1)%nat with false; [done|].
    symmetry. apply Nat.ltb_ge. lia.
  - replace (length l + 1 - n)%nat with (S (length l - n)) by lia.
    replace (n <? length l - (length l - n) + 1)%nat with true
      by (symmetry; apply Nat.ltb_lt; lia).
    rewrite drop_app_le by lia.
    destruct (drop (length l - n) l) as [|y rest] eqn:Hd.
    + apply (f_equal length) in Hd. rewrite length_drop in Hd. simpl in Hd. lia.
    + simpl. f_equal.
      replace (S (length l - n)) with ((length l - n) + 1)%nat by lia.
      by rewrite <- drop_drop, Hd.
Qed.

Lemma insertTurns_history contact turns :
  AIReply.getConversationHistory contact
    (AIReply.runAll (Spec.insertTurn contact <$> turns) AIReply.initial)
  = drop (length turns - 10) turns.
Proof.
  induction turns as [|turn turns IH] using rev_ind; [done|].
  rewrite fmap_app. simpl. rewrite runAll_snoc_ai. simpl.
  rewrite update_history, IH. destruct turn as [u a l t]. simpl.
  symmetry. apply (drop_snoc_capped 10). lia.
Qed.

Lemma updateChatHistory_history tUser tBot contactNumber userMessage botReply st :
  GeminiAI.getChatHistory contactNumber
    (GeminiAI.updateChatHistory tUser tBot contactNumber userMessage botReply st)
  = let history :=
        GeminiAI.getChatHistory contactNumber st
        ++ [{| GeminiAI.type := GeminiAI.User; GeminiAI.message := userMessage;
               GeminiAI.timestamp := tUser |};
            {| GeminiAI.type := GeminiAI.Bot; GeminiAI.message := botReply;
               GeminiAI.timestamp := tBot |}] in
    if (10 <? length history)%nat then GeminiAI.lastTen history else history.
Proof.
  unfold GeminiAI.updateChatHistory, GeminiAI.getChatHistory at 1. simpl.
  rewrite lookup_insert_eq. simpl. by rewrite <- app_assoc.
Qed.

Lemma updateChatHistory_appends tUser tBot contactNumber userMessage botReply st :
  (length (GeminiAI.getChatHistory contactNumber st) <= 8)%nat ->
  GeminiAI.chatHistory
    (GeminiAI.updateChatHistory tUser tBot contactNumber userMessage botReply st)
    !! contactNumber
  = Some (GeminiAI.getChatHistory contactNumber st
          ++ [{| GeminiAI.type := GeminiAI.User; GeminiAI.message := userMessage;
                 GeminiAI.timestamp := tUser |};
              {| GeminiAI.type := GeminiAI.Bot; GeminiAI.message := botReply;
                 GeminiAI.timestamp := tBot |}]).
Proof.
  intros Hlen. unfold GeminiAI.updateChatHistory. simpl. rewrite lookup_insert_eq.
  replace (10 <? length (_ ++ _))%nat with false; [by rewrite <- app_assoc|].
  symmetry. apply Nat.ltb_ge. rewrite !length_app. simpl. lia.
Qed.

Lemma updateChatHistory_others tUser tBot contactNumber userMessage botReply st contact :
  contact <> contactNumber ->
  GeminiAI.chatHistory
    (GeminiAI.updateChatHistory tUser tBot contactNumber userMessage botReply st) !! contact
  = GeminiAI.chatHistory st !! contact.
Proof.
  intros Hne. unfold GeminiAI.updateChatHistory. simpl. by rewrite lookup_insert_ne.
Qed.

Lemma entries_length (xs : list Spec.Exchange) :
  length (xs ≫= Spec.entries) = (2 * length xs)%nat.
Proof.
  induction xs as [|x xs IH]; [done|].
  change ((x :: xs) ≫= Spec.entries) with (Spec.entries x ++ (xs ≫= Spec.entries)).
  rewrite length_app, IH. simpl. lia.
Qed.

Lemma turnsOf_entries xs : Spec.turnsOf (xs ≫= Spec.entries) = xs.
Proof.
  induction xs as [|[u ut b bt] xs IH]; [done|].
  change ((?x :: xs) ≫= Spec.entries) with (Spec.entries x ++ (xs ≫= Spec.entries)).
  simpl. by rewrite IH.
Qed.

Lemma insertExchanges_history contact xs :
  GeminiAI.getChatHistory contact
    (GeminiAI.runAll (Spec.insertExchange contact <$> xs) GeminiAI.initial)
  = drop (length xs - 5) xs ≫= Spec.entries.
Proof.
  induction xs as [|x xs IH] using rev_ind; [done|].
  rewrite fmap_app. simpl. rewrite runAll_snoc_gemini. simpl.
  rewrite updateChatHistory_history, IH.
  rewrite (drop_snoc_capped 5) by lia. cbv zeta.
  set (held := drop (length xs - 5) xs).
  change ([_; _]) with (Spec.entries x).
  assert (length held <= 5)%nat as Hheld by (subst held; rewrite length_drop; lia).
  replace ((held ≫= Spec.entries) ++ Spec.entries x)
    with ((held ++ [x]) ≫= Spec.entries) by (rewrite bind_app; f_equal; apply app_nil_r).
  rewrite entries_length.
  destruct (5 <? length (held ++ [x]))%nat eqn:Hcmp.
  - apply Nat.ltb_lt in Hcmp.
    replace (10 <? 2 * length (held ++ [x]))%nat with true
      by (symmetry; apply Nat.ltb_lt; lia).
    unfold GeminiAI.lastTen. rewrite entries_length.
    replace (2 * length (held ++ [x]) - 10)%nat with 2%nat
      by (rewrite length_app in *; simpl in *; lia).
    destruct held as [|x0 held]; [simpl in *; lia|]. done.
  - apply Nat.ltb_ge in Hcmp.
    replace (10 <? 2 * length (held ++ [x]))%nat with false
      by (symmetry; apply Nat.ltb_ge; lia).
    done.
Qed.

Lemma drop_entries k (xs : list Spec.Exchange) :
  drop (2 * k) (xs ≫= Spec.entries) = drop k xs ≫= Spec.entries.
Proof.
  revert xs. induction k as [|k IH]; intros xs; [done|].
  destruct xs as [|x xs]; [done|].
  replace (2 * S k)%nat with (S (S (2 * k))) by lia. apply IH.
Qed.

End HistoryFacts.

(** C2, as the code has it.  In every state that the history-writing
    operations of [AIReply] reach from the empty store, each conversation
    holds at most ten turns, and each of these operations keeps that bound.
    Of the turns inserted for a contact into the empty store, the history
    holds the last ten, in their order.  A turn added to a conversation of
    fewer than ten is appended; added to a conversation of ten, it evicts
    the first one and the other nine stay in their order in front of the new
    one; the conversations of the other contacts are untouched.  [GeminiAI]
    records a turn as two entries and keeps the last ten entries: of the
    turns inserted for a contact, the history holds the last five, whole
    and in their order.  A turn added to at most eight entries is appended;
    added to ten entries, it pushes out the two oldest, that is the oldest
    turn, and keeps the order of the rest.  The bound of ten entries holds
    in every state reached from the empty store and is kept by every
    operation. *)
Theorem history_capped_at_ten :
  (forall ops, Spec.boundedAI (AIReply.runAll ops AIReply.initial))
  /\ (forall o st, Spec.boundedAI st -> Spec.boundedAI (AIReply.run o st))
  /\ (forall contact turns,
        Spec.capped 10 turns
          (AIReply.getConversationHistory contact
             (AIReply.runAll (Spec.insertTurn contact <$> turns) AIReply.initial)))
  /\ (forall now fromNumber userMessage aiReply lang st,
        let turn := {| AIReply.userMessage := userMessage; AIReply.aiReply := aiReply;
                       AIReply.turnLanguage := lang; AIReply.timestamp := now |} in
        let st' := AIReply.updateConversationHistory now fromNumber userMessage aiReply
                                                     lang st in
        ((length (AIReply.getConversationHistory fromNumber st) < 10)%nat ->
         AIReply.conversationHistory st' !! fromNumber
         = Some (AIReply.getConversationHistory fromNumber st ++ [turn]))
        /\ (forall first rest,
              AIReply.conversationHistory st !! fromNumber = Some (first :: rest) ->
              length (first :: rest) = 10%nat ->
              AIReply.conversationHistory st' !! fromNumber = Some (rest ++ [turn])
              /\ length (rest ++ [turn]) = 10%nat)
        /\ (forall contact,
              contact <> fromNumber ->
              AIReply.conversationHistory st' !! contact
              = AIReply.conversationHistory st !! contact))
  /\ (forall ops, Spec.boundedGemini (GeminiAI.runAll ops GeminiAI.initial))
  /\ (forall o st, Spec.boundedGemini st -> Spec.boundedGemini (GeminiAI.run o st))
  /\ (forall contact exchanges,
        let history :=
          GeminiAI.getChatHistory contact
            (GeminiAI.runAll (Spec.insertExchange contact <$> exchanges) GeminiAI.initial) in
        Spec.capped 5 exchanges (Spec.turnsOf history)
        /\ history = Spec.turnsOf history ≫= Spec.entries
        /\ Spec.capped 10 (exchanges ≫= Spec.entries) history)
  /\ (forall tUser tBot contactNumber userMessage botReply st,
        let exchange :=
          [{| GeminiAI.type := GeminiAI.User; GeminiAI.message := userMessage;
              GeminiAI.timestamp := tUser |};
           {| GeminiAI.type := GeminiAI.Bot; GeminiAI.message := botReply;
              GeminiAI.timestamp := tBot |}] in
        let st' := GeminiAI.updateChatHistory tUser tBot contactNumber userMessage
                                              botReply st in
        ((length (GeminiAI.getChatHistory contactNumber st) <= 8)%nat ->
         GeminiAI.chatHistory st' !! contactNumber
         = Some (GeminiAI.getChatHistory contactNumber st ++ exchange))
        /\ (forall history,
              GeminiAI.chatHistory st !! contactNumber = Some history ->
              length history = 10%nat ->
              GeminiAI.chatHistory st' !! contactNumber = Some (drop 2 history ++ exchange))
        /\ (forall contact,
              contact <> contactNumber ->
              GeminiAI.chatHistory st' !! contact = GeminiAI.chatHistory st !! contact)).
Proof.
  split; [|split; [|split; [|split; [|split; [|split; [|split]]]]]].
  - intros ops. apply boundedAI_runAll, boundedAI_initial.
  - apply boundedAI_run.
  - intros contact turns. apply insertTurns_history.
  - intros now fromNumber userMessage aiReply lang st turn st'. split; [|split].
    + apply update_appends.
    + intros first rest H Hlen. split.
      * exact (update_evicts_oldest now fromNumber userMessage aiReply lang st first rest
                                    H Hlen).
      * rewrite length_app. simpl in *. lia.
    + intros contact Hne. by apply update_others.
  - intros ops. apply boundedGemini_runAll, boundedGemini_initial.
  - apply boundedGemini_run.
  - intros contact exchanges history.
    assert (history = drop (length exchanges - 5) exchanges ≫= Spec.entries) as Hh
      by apply insertExchanges_history.
    unfold Spec.capped. rewrite Hh, turnsOf_entries. split; [done|]. split; [done|].
    rewrite entries_length.
    replace (2 * length exchanges - 10)%nat with (2 * (length exchanges - 5))%nat by lia.
    symmetry. apply drop_entries.
  - intros tUser tBot contactNumber userMessage botReply st exchange st'. split; [|split].
    + apply updateChatHistory_appends.
    + intros history. apply updateChatHistory_keeps_last_ten.
    + intros contact Hne. by apply updateChatHistory_others.
Qed.

(** Ten turns numbered 1 to 10 are inserted into the empty store; the
    conversation then receives turn 11: turns 2 to 11 remain. *)
Lemma history_capped_at_ten_witness :
  let contact := js "919876543210" in
  let turn i := {| AIReply.userMessage := [i]; AIReply.aiReply := [i];
                   AIReply.turnLanguage := AIReply.English;
                   AIReply.timestamp := Z.of_N i |} in
  let st := AIReply.runAll (Spec.insertTurn contact <$> (turn <$> [1; 2; 3; 4; 5; 6; 7; 8; 9; 10]))
                           AIReply.initial in
  AIReply.conversationHistory st !! contact
  = Some (turn <$> [1; 2; 3; 4; 5; 6; 7; 8; 9; 10])
  /\ AIReply.conversationHistory
       (AIReply.updateConversationHistory 11 contact [11] [11] AIReply.English st) !! contact
     = Some (turn <$> [2; 3; 4; 5; 6; 7; 8; 9; 10; 11]).
Proof.
  intros contact turn st.
  destruct history_capped_at_ten as (_ & _ & _ & Hupdate & _).
  assert (AIReply.conversationHistory st !! contact
          = Some (turn 1 :: (turn <$> [2; 3; 4; 5; 6; 7; 8; 9; 10]))) as Hstored
    by (vm_compute; reflexivity).
  assert (length (turn 1 :: (turn <$> [2; 3; 4; 5; 6; 7; 8; 9; 10])) = 10%nat) as Hten
    by reflexivity.
  split; [exact Hstored|].
  destruct (Hupdate 11%Z contact [11] [11] AIReply.English st) as (_ & Hevict & _).
  destruct (Hevict (turn 1) (turn <$> [2; 3; 4; 5; 6; 7; 8; 9; 10]) Hstored Hten)
    as [Hnew _].
  exact Hnew.
Defined.

(** C2, the claim as stated fails for [GeminiAI].  Six messages of one
    contact, a minute apart, are answered by [generateReply]; after the
    sixth the history holds ten entries, the turns 2 to 6: the first turn is
    evicted by the sixth, not by the eleventh, and the history does not hold
    the last ten of the turns inserted. *)
Lemma sixth_turn_evicts_first :
  let contact := js "919876543210" in
  let w i := {| GeminiAI.maxEnv := None;
                GeminiAI.nowCheck := (1700000000000 + 60000 * Z.of_N i)%Z;
                GeminiAI.completion := Some [48 + i];
                GeminiAI.nowUser := (1700000000001 + 60000 * Z.of_N i)%Z;
                GeminiAI.nowBot := (1700000000002 + 60000 * Z.of_N i)%Z;
                GeminiAI.nowReply := (1700000000003 + 60000 * Z.of_N i)%Z;
                GeminiAI.random := 0 |} in
  let turn i := {| Spec.userEntry := [96 + i];
                   Spec.userAt := (1700000000001 + 60000 * Z.of_N i)%Z;
                   Spec.botEntry := [48 + i];
                   Spec.botAt := (1700000000002 + 60000 * Z.of_N i)%Z |} in
  let st := GeminiAI.runAll
              ((fun i => GeminiAI.OpGenerateReply (w i) [96 + i] contact)
                 <$> [1; 2; 3; 4; 5; 6]) GeminiAI.initial in
  let history := GeminiAI.getChatHistory contact st in
  length history = 10%nat
  /\ history = (turn <$> [2; 3; 4; 5; 6]) ≫= Spec.entries
  /\ Spec.turnsOf history = turn <$> [2; 3; 4; 5; 6]
  /\ ~ Spec.capped 10 (turn <$> [1; 2; 3; 4; 5; 6]) (Spec.turnsOf history).
Proof.
  intros contact w turn st history.
  assert (history = (turn <$> [2; 3; 4; 5; 6]) ≫= Spec.entries) as Hh
    by (vm_compute; reflexivity).
  split; [by rewrite Hh|]. split; [exact Hh|].
  rewrite Hh, turnsOf_entries. split; [done|].
  unfold Spec.capped. intros Heq. apply (f_equal length) in Heq. simpl in Heq. lia.
Qed.

(** ** The typing delay *)

Section TypingFacts.

Import Number SessionManager.
Local Open Scope Q_scope.

(** A value of [Math.random()]. *)
Variable random : Q.
Hypothesis random_ge_0 : 0 <= random.
Hypothesis random_lt_1 : random < 1.

(** The configured bounds: integers of magnitude at most [2^52], so that
    their difference is a double. *)
Variables lo hi : Z.
Hypothesis lo_safe : (Z.abs lo <= 2 ^ 52)%Z.
Hypothesis hi_safe : (Z.abs hi <= 2 ^ 52)%Z.








End TypingFacts.




(** The model against the binary64 operations of the Standard Library, at a
    value of [Math.random()] where rounding shows: with the default bounds
    and a reply of one code unit the delay is [1230 - 2^-42]. *)
Example typingDelay_binary64 :
  let double (m : Z) := SFdiv 53 1024 (S754_finite false (Z.to_pos m) 0) (S754_finite false 1 0) in
  let random := SFdiv 53 1024 (double 450359962737049%Z) (double 4503599627370496%Z) in
  let base :=
    SFadd 53 1024 (double 1000%Z)
          (SFmul 53 1024 random (SFsub 53 1024 (double 3000%Z) (double 1000%Z))) in
  let delay := SFadd 53 1024 base (SFmul 53 1024 (double 1%Z) (double 30%Z)) in
  Number.ofSpec random = Number.Fin (450359962737049 # 4503599627370496)
  /\ SessionManager.typingDelay None None (450359962737049 # 4503599627370496) [97]
     = Number.ofSpec delay
  /\ Number.ofSpec delay = Number.Fin (Qred (1230 - 1 / 2 ^ 42)%Q).
Proof. vm_compute. done. Qed.

(** ** The message pipeline *)

Section PipelineFacts.

Import SessionManager.

(** A message from a group chat leaves [handleIncomingMessage] at the
    second guard, or already at the first. *)
Lemma handleIncomingMessage_group w message st :
  includes (from message) (js "@g.us") = true ->
  handleIncomingMessage w message st = (Returned tt, st).
Proof.
  intros Hgroup. unfold handleIncomingMessage. run_body.
  destruct (negb (isReady st) || fromMe message); [done|].
  by rewrite Hgroup.
Qed.

Lemma step_group w message st :
  includes (from message) (js "@g.us") = true ->
  step st (Incoming w message) = st.
Proof.
  intros Hgroup. unfold step, handler.
  by rewrite handleIncomingMessage_group.
Qed.

End PipelineFacts.

(** C7.  A message whose sender id contains [@g.us] (a group chat) is
    dropped: [handleIncomingMessage] returns with the whole state as it was,
    so the log of effects holds no new reply, the chat histories and the
    reply times of the reply engine, the set of active chats and the count of
    sent messages are unchanged. *)
Theorem group_message_dropped :
  forall (w : SessionManager.World) (message : SessionManager.Message)
         (st : SessionManager.State),
    includes (SessionManager.from message) (js "@g.us") = true ->
    SessionManager.handleIncomingMessage w message st = (Returned tt, st)
    /\ SessionManager.step st (SessionManager.Incoming w message) = st
    /\ let st' := (SessionManager.handleIncomingMessage w message st).2 in
       SessionManager.effects st' = SessionManager.effects st
       /\ GeminiAI.chatHistory (SessionManager.geminiAI st')
          = GeminiAI.chatHistory (SessionManager.geminiAI st)
       /\ GeminiAI.lastReplyTime (SessionManager.geminiAI st')
          = GeminiAI.lastReplyTime (SessionManager.geminiAI st)
       /\ SessionManager.activeChats st' = SessionManager.activeChats st
       /\ SessionManager.messageCount st' = SessionManager.messageCount st.
Proof.
  intros w message st Hgroup.
  split; [by apply handleIncomingMessage_group|].
  split; [by apply step_group|].
  by rewrite handleIncomingMessage_group.
Qed.

(** A group message meets a session that is ready. *)
Lemma group_message_dropped_witness :
  let st := SessionManager.runAll
              [SessionManager.Start true; SessionManager.Authenticated;
               SessionManager.Ready true] SessionManager.initial in
  let w := {| SessionManager.now := 1700000000000;
              SessionManager.contact :=
                Some {| SessionManager.name := []; SessionManager.pushname := js "Asha";
                        SessionManager.number := js "919876543210" |};
              SessionManager.ai :=
                {| GeminiAI.maxEnv := None; GeminiAI.nowCheck := 1700000000001;
                   GeminiAI.completion := Some (js "Hi Asha!");
                   GeminiAI.nowUser := 1700000000900; GeminiAI.nowBot := 1700000000901;
                   GeminiAI.nowReply := 1700000000902; GeminiAI.random := 0 |};
              SessionManager.typingDelayMinEnv := None;
              SessionManager.typingDelayMaxEnv := None;
              SessionManager.typingRandom := 1 # 4;
              SessionManager.getChatOk := true; SessionManager.typingOk := true;
              SessionManager.clearOk := true; SessionManager.replyOk := true;
              SessionManager.apologyOk := true |} in
  let message := {| SessionManager.from := js "120363041234567890@g.us";
                    SessionManager.fromMe := false;
                    SessionManager.body := js "hello";
                    SessionManager.timestamp := 1699999999 |} in
  SessionManager.isReady st = true
  /\ SessionManager.handleIncomingMessage w message st = (Returned tt, st).
Proof.
  intros st w message. split; [reflexivity|].
  assert (includes (SessionManager.from message) (js "@g.us") = true) as Hgroup
    by reflexivity.
  destruct (group_message_dropped w message st Hgroup) as [Hdropped _].
  exact Hdropped.
Defined.

(** The same message from a contact is answered: typing state, pause, reply,
    one more message counted. *)
Example contact_message_answered :
  let st := SessionManager.runAll
              [SessionManager.Start true; SessionManager.Authenticated;
               SessionManager.Ready true] SessionManager.initial in
  let w := {| SessionManager.now := 1700000000000;
              SessionManager.contact :=
                Some {| SessionManager.name := []; SessionManager.pushname := js "Asha";
                        SessionManager.number := js "919876543210" |};
              SessionManager.ai :=
                {| GeminiAI.maxEnv := None; GeminiAI.nowCheck := 1700000000001;
                   GeminiAI.completion := Some (js " Hi Asha! ");
                   GeminiAI.nowUser := 1700000000900; GeminiAI.nowBot := 1700000000901;
                   GeminiAI.nowReply := 1700000000902; GeminiAI.random := 0 |};
              SessionManager.typingDelayMinEnv := None;
              SessionManager.typingDelayMaxEnv := None;
              SessionManager.typingRandom := 1 # 4;
              SessionManager.getChatOk := true; SessionManager.typingOk := true;
              SessionManager.clearOk := true; SessionManager.replyOk := true;
              SessionManager.apologyOk := true |} in
  let chat := js "919876543210@c.us" in
  let message := {| SessionManager.from := chat; SessionManager.fromMe := false;
                    SessionManager.body := js " hello ";
                    SessionManager.timestamp := 1699999999 |} in
  let st' := SessionManager.step st (SessionManager.Incoming w message) in
  SessionManager.messageCount st' = 1%Z
  /\ take 5 (SessionManager.effects st')
     = [SessionManager.EmitReply (js "Asha") (js "hello") (js "Hi Asha!");
        SessionManager.MessageReply chat (js "Hi Asha!");
        SessionManager.ChatClearState chat;
        SessionManager.Sleep (Number.Fin 1740);
        SessionManager.ChatSendStateTyping chat]
  /\ length <$> (GeminiAI.chatHistory (SessionManager.geminiAI st') !! js "919876543210")
     = Some 2%nat.
Proof. vm_compute. done. Qed.

(** ** Stop, disconnect and restart *)

Section LifecycleFacts.

Import SessionManager.

Lemma stopClient_returns destroyOk st : (stopClient destroyOk st).1 = Returned tt.
Proof.
  unfold stopClient. run_body.
  destruct (client st); destruct destroyOk; reflexivity.
Qed.

(** [stopClient] leaves the pending timers as they are: it schedules
    nothing and cancels nothing. *)
Lemma stopClient_timers destroyOk st : timers (stopClient destroyOk st).2 = timers st.
Proof.
  unfold stopClient. run_body.
  destruct (client st); destruct destroyOk; reflexivity.
Qed.

Lemma stopClient_restarts destroyOk st :
  restarts (stopClient destroyOk st).2 = restarts st.
Proof.
  unfold stopClient, restarts. run_body.
  destruct (client st); destruct destroyOk; reflexivity.
Qed.

Lemma stopClient_not_ready destroyOk st c :
  client st = Some c -> isReady (stopClient destroyOk st).2 = false.
Proof.
  intros H. unfold stopClient. run_body. rewrite H.
  destruct destroyOk; reflexivity.
Qed.

Lemma stopClient_tears_down st c :
  client st = Some c ->
  client (stopClient true st).2 = None
  /\ effects (stopClient true st).2
     = Emit "disconnected" (js "Client stopped manually") :: ClientDestroy c :: effects st.
Proof.
  intros H. unfold stopClient. run_body. by rewrite H.
Qed.

(** The [disconnected] handler schedules the reconnection whatever the
    state is: no flag records an earlier stop. *)
Lemma onDisconnected_schedules reason st :
  onDisconnected reason st
  = (Returned tt,
     schedule (Reconnect 5000) (log (Emit "disconnected" reason) (setIsReady false st))).
Proof. reflexivity. Qed.

(** A pending reconnection that expires restarts the session, also when
    no client is held any more. *)
Lemma fire_reconnect i ms initOk destroyOk st :
  timers st !! i = Some (Reconnect ms) ->
  client st = None ->
  let st' := (fire i destroyOk initOk st).2 in
  client st' = Some (created st)
  /\ created st' = S (created st)
  /\ timers st' = delete i (timers st)
  /\ effects st'
     = (if initOk
        then [ClientInitialize (created st)]
        else [Emit "error" (js "Failed to restart client");
              Emit "error" (js "Failed to initialize WhatsApp client")])
       ++ Sleep (Number.ofZ 3000) :: effects st.
Proof.
  intros Ht Hc. unfold fire, restartClient, initializeClient. run_body. rewrite Ht.
  simpl. rewrite Hc. destruct initOk; simpl; done.
Qed.

End LifecycleFacts.

(** C9, as the code has it.  [stopClient] returns without throwing, leaves
    the pending timers as they are and adds no restart to the log; when a
    client is held the session is no longer ready, and when its teardown goes
    through the client is dropped and [disconnected] is emitted.  The
    [disconnected] handler marks the session not ready and schedules a
    reconnection after 5000 ms in every state.  A reconnection that is
    pending when the session is stopped stays pending, and its expiry
    creates a new client. *)
Theorem stop_schedules_no_restart :
  (forall destroyOk st,
      let st' := (SessionManager.stopClient destroyOk st).2 in
      (SessionManager.stopClient destroyOk st).1 = Returned tt
      /\ SessionManager.timers st' = SessionManager.timers st
      /\ SessionManager.restarts st' = SessionManager.restarts st
      /\ forall c,
          SessionManager.client st = Some c ->
          SessionManager.isReady st' = false
          /\ (destroyOk = true ->
              SessionManager.client st' = None
              /\ SessionManager.effects st'
                 = SessionManager.Emit "disconnected" (js "Client stopped manually")
                   :: SessionManager.ClientDestroy c :: SessionManager.effects st))
  /\ (forall reason st,
        let st' := (SessionManager.onDisconnected reason st).2 in
        SessionManager.isReady st' = false
        /\ SessionManager.timers st'
           = SessionManager.timers st ++ [SessionManager.Reconnect 5000]
        /\ SessionManager.effects st'
           = SessionManager.SetTimer (SessionManager.Reconnect 5000)
             :: SessionManager.Emit "disconnected" reason :: SessionManager.effects st)
  /\ (forall i ms c destroyOk initOk st,
        SessionManager.timers st !! i = Some (SessionManager.Reconnect ms) ->
        SessionManager.client st = Some c ->
        let stopped := SessionManager.step st (SessionManager.Stop true) in
        let st' := SessionManager.step stopped (SessionManager.Fire i destroyOk initOk) in
        SessionManager.timers stopped !! i = Some (SessionManager.Reconnect ms)
        /\ SessionManager.client stopped = None
        /\ SessionManager.client st' = Some (SessionManager.created st)).
Proof.
  split; [|split].
  - intros destroyOk st st'. subst st'.
    split; [apply stopClient_returns|].
    split; [apply stopClient_timers|].
    split; [apply stopClient_restarts|].
    intros c Hc. split; [by eapply stopClient_not_ready|].
    intros ->. by apply stopClient_tears_down.
  - intros reason st. by rewrite onDisconnected_schedules.
  - intros i ms c destroyOk initOk st Ht Hc stopped st'.
    assert (SessionManager.timers stopped !! i = Some (SessionManager.Reconnect ms)) as Ht'.
    { subst stopped. unfold SessionManager.step. simpl SessionManager.handler.
      by rewrite stopClient_timers. }
    assert (SessionManager.client stopped = None) as Hc'.
    { subst stopped. unfold SessionManager.step. simpl SessionManager.handler.
      by apply (stopClient_tears_down st c). }
    split; [done|]. split; [done|].
    destruct (fire_reconnect i ms initOk destroyOk stopped Ht' Hc') as (Hnew & _).
    subst st'. unfold SessionManager.step at 1. simpl SessionManager.handler.
    rewrite Hnew. subst stopped. unfold SessionManager.step. simpl SessionManager.handler.
    unfold SessionManager.stopClient. run_body.
    by rewrite Hc.
Qed.

(** A ready session loses its connection, is stopped one second later, and
    the reconnection scheduled by the loss expires: a second client exists. *)
Lemma stop_schedules_no_restart_witness :
  let st := SessionManager.runAll
              [SessionManager.Start true; SessionManager.Authenticated;
               SessionManager.Ready true; SessionManager.Disconnected (js "NAVIGATION")]
              SessionManager.initial in
  let stopped := SessionManager.step st (SessionManager.Stop true) in
  let st' := SessionManager.step stopped (SessionManager.Fire 1 true true) in
  SessionManager.timers stopped !! 1%nat = Some (SessionManager.Reconnect 5000)
  /\ SessionManager.client stopped = None
  /\ SessionManager.client st' = Some 1%nat.
Proof.
  intros st stopped st'.
  destruct stop_schedules_no_restart as (_ & _ & Hpending).
  exact (Hpending 1%nat 5000%Z 0%nat true true st eq_refl eq_refl).
Defined.

(** C9, the claim as stated fails.  The session is ready, the adapter
    reports a disconnect, the session is stopped; then the pending timer
    expires and the adapter of the new client reports a disconnect.  After
    the stop a client has been initialised and a reconnection scheduled. *)
Lemma restart_after_stop :
  let before := [SessionManager.Start true; SessionManager.Authenticated;
                 SessionManager.Ready true; SessionManager.Disconnected (js "NAVIGATION")] in
  let after := [SessionManager.Fire 1 true true; SessionManager.Disconnected (js "NAVIGATION")] in
  let stopped := SessionManager.runAll (before ++ [SessionManager.Stop true])
                                       SessionManager.initial in
  forallb SessionManager.automatic after = true
  /\ SessionManager.restarts (SessionManager.runAll after stopped)
     = SessionManager.SetTimer (SessionManager.Reconnect 5000)
       :: SessionManager.ClientInitialize 1 :: SessionManager.restarts stopped
  /\ ~ Spec.noRestartAfterStop.
Proof.
  intros before after stopped. split; [reflexivity|].
  split; [vm_compute; reflexivity|].
  intros Hclaim. specialize (Hclaim before true after eq_refl).
  vm_compute in Hclaim. discriminate Hclaim.
Qed.

(** ** Fallback replies *)

Section FallbackFacts.

(** Past the rate-limit guard, a remote call that yields nothing (or the
    empty text) gives the fallback of the detected language; the history is
    written only in the other branch. *)
Lemma replyAfterRateCheck_failed apiResult now message fromNumber st :
  apiResult = None \/ apiResult = Some [] ->
  AIReply.replyAfterRateCheck apiResult now message fromNumber st
  = (Returned (Some (AIReply.getFallbackReply (AIReply.detectLanguage message))), st).
Proof. by intros [-> | ->]. Qed.

Lemma replyAfterRateCheck_returns apiResult now message fromNumber st :
  exists reply st',
    AIReply.replyAfterRateCheck apiResult now message fromNumber st = (Returned reply, st').
Proof.
  unfold AIReply.replyAfterRateCheck. run_body.
  destruct apiResult as [[|c r]|]; eauto.
Qed.

(** Nothing is thrown out of either [generateReply]. *)
Lemma generateReply_returns limitEnv apiResult now message fromNumber st :
  exists reply st',
    AIReply.generateReply limitEnv apiResult now message fromNumber st = (Returned reply, st').
Proof. rewrite generateReply_suppressed. eauto. Qed.

Lemma gemini_generateReply_returns w messageText contactNumber st :
  exists reply st',
    GeminiAI.generateReply w messageText contactNumber st = (Returned reply, st').
Proof.
  unfold GeminiAI.generateReply, GeminiAI.generateContent. run_body.
  destruct (negb _); [eauto|].
  destruct (GeminiAI.completion w); simpl; eauto.
Qed.

(** For a double in [[0, 1)] the index is one of the five. *)
Lemma getFallbackReply_in_range random :
  Number.isDouble random = true -> (0 <= random)%Q -> (random < 1)%Q ->
  exists reply,
    GeminiAI.getFallbackReply random = Some reply /\ reply ∈ GeminiAI.fallbackReplies.
Proof.
  intros Hd H0 H1. unfold GeminiAI.getFallbackReply.
  change (Z.of_nat (length GeminiAI.fallbackReplies)) with 5%Z.
  assert (Number.ofZ 5 = Number.Fin 5) as -> by (apply (round_int 5); lia).
  destruct (times_five random H0 (double_below_one random Hd H0 H1)) as (y & Hy & Hy0 & Hy5).
  cbn [Number.mul]. rewrite Hy. cbn [Number.floor Number.index].
  rewrite Qfloor_Z, Qeq_bool_refl.
  set (i := Qfloor y).
  assert (0 <= i < 5)%Z as Hi.
  { subst i. split.
    - rewrite <- (Qfloor_Z 0). by apply Qfloor_resp_le.
    - pose proof (Qfloor_le y) as Hle.
      assert (inject_Z (Qfloor y) < inject_Z 5)%Q as Hlt.
      { change (inject_Z 5) with 5%Q. lra. }
      by rewrite <- Zlt_Qlt in Hlt. }
  replace (0 <=? i)%Z with true by (symmetry; apply Z.leb_le; lia). cbn [andb].
  destruct (GeminiAI.fallbackReplies !! Z.to_nat i) as [reply|] eqn:Hl.
  - exists reply. split; [done|]. by eapply list_elem_of_lookup_2.
  - apply lookup_ge_None in Hl. simpl in Hl. lia.
Qed.

(** What a successful [GeminiAI.generateReply] leaves. *)
Lemma generateReply_answered w messageText contactNumber st text :
  GeminiAI.canReply (GeminiAI.maxEnv w) (GeminiAI.nowCheck w) contactNumber st = true ->
  GeminiAI.completion w = Some text ->
  GeminiAI.generateReply w messageText contactNumber st
  = (Returned (Some (trim text)),
     {| GeminiAI.chatHistory :=
          GeminiAI.chatHistory
            (GeminiAI.updateChatHistory (GeminiAI.nowUser w) (GeminiAI.nowBot w)
                                        contactNumber messageText (trim text) st);
        GeminiAI.lastReplyTime :=
          <[contactNumber := GeminiAI.nowReply w]> (GeminiAI.lastReplyTime st) |}).
Proof.
  intros Hcan Htext. unfold GeminiAI.generateReply, GeminiAI.generateContent. run_body.
  by rewrite Hcan, Htext.
Qed.

Lemma generateReply_limited w messageText contactNumber st :
  GeminiAI.canReply (GeminiAI.maxEnv w) (GeminiAI.nowCheck w) contactNumber st = false ->
  GeminiAI.generateReply w messageText contactNumber st = (Returned None, st).
Proof.
  intros Hcan. unfold GeminiAI.generateReply. run_body. by rewrite Hcan.
Qed.

(** In [GeminiAI] a failing remote call lands in the [catch]: one of the
    fixed replies is returned, and neither the history nor the reply time
    has been written. *)
Lemma generateReply_failed w messageText contactNumber st :
  GeminiAI.canReply (GeminiAI.maxEnv w) (GeminiAI.nowCheck w) contactNumber st = true ->
  GeminiAI.completion w = None ->
  GeminiAI.generateReply w messageText contactNumber st
  = (Returned (GeminiAI.getFallbackReply (GeminiAI.random w)), st).
Proof.
  intros Hcan Hfail. unfold GeminiAI.generateReply, GeminiAI.generateContent. run_body.
  by rewrite Hcan, Hfail.
Qed.

End FallbackFacts.

(** C3, as the code has it.  Neither engine throws out of [generateReply].
    [AIReply.generateReply] as a whole returns [null] with the history as it
    was, whatever the remote call yields, since its rate-limit guard denies
    every attempt.  When the remote call yields [null] (a timeout, an error
    response, no candidate) or the empty text, the code past that guard
    returns the fallback reply of the detected language and leaves the
    state, the conversation history included, as it was.  In [GeminiAI],
    when the remote call or the reading of its text throws, for an attempt
    that is past the guard, one of the five fixed fallback replies is
    returned and the state is left as it was.  A blank payload is no failure
    for [GeminiAI]: the empty string is returned, no fallback, and the
    exchange is stored with the empty reply and the reply time recorded. *)
Theorem fallback_returned_unrecorded :
  (forall limitEnv apiResult now message fromNumber st,
      exists st',
        AIReply.generateReply limitEnv apiResult now message fromNumber st
        = (Returned None, st')
        /\ AIReply.conversationHistory st' = AIReply.conversationHistory st)
  /\ (forall w messageText contactNumber st,
        exists reply st',
          GeminiAI.generateReply w messageText contactNumber st = (Returned reply, st'))
  /\ (forall apiResult now message fromNumber st,
        apiResult = None \/ apiResult = Some [] ->
        AIReply.replyAfterRateCheck apiResult now message fromNumber st
        = (Returned (Some (AIReply.getFallbackReply (AIReply.detectLanguage message))), st))
  /\ (forall w messageText contactNumber st,
        GeminiAI.canReply (GeminiAI.maxEnv w) (GeminiAI.nowCheck w) contactNumber st = true ->
        GeminiAI.completion w = None ->
        Number.isDouble (GeminiAI.random w) = true ->
        (0 <= GeminiAI.random w)%Q -> (GeminiAI.random w < 1)%Q ->
        exists reply,
          GeminiAI.generateReply w messageText contactNumber st = (Returned (Some reply), st)
          /\ reply ∈ GeminiAI.fallbackReplies)
  /\ (forall w messageText contactNumber st text,
        GeminiAI.canReply (GeminiAI.maxEnv w) (GeminiAI.nowCheck w) contactNumber st = true ->
        GeminiAI.completion w = Some text ->
        trim text = [] ->
        exists st',
          GeminiAI.generateReply w messageText contactNumber st = (Returned (Some []), st')
          /\ GeminiAI.chatHistory st'
             = GeminiAI.chatHistory
                 (GeminiAI.updateChatHistory (GeminiAI.nowUser w) (GeminiAI.nowBot w)
                                             contactNumber messageText [] st)
          /\ last (GeminiAI.getChatHistory contactNumber st')
             = Some {| GeminiAI.type := GeminiAI.Bot; GeminiAI.message := [];
                       GeminiAI.timestamp := GeminiAI.nowBot w |}
          /\ GeminiAI.lastReplyTime st' !! contactNumber = Some (GeminiAI.nowReply w)).
Proof.
  split; [|split; [|split; [|split]]].
  - intros limitEnv apiResult now message fromNumber st. eexists. split.
    + apply generateReply_suppressed.
    + apply checkRateLimit_history.
  - apply gemini_generateReply_returns.
  - apply replyAfterRateCheck_failed.
  - intros w messageText contactNumber st Hcan Hfail Hd H0 H1.
    destruct (getFallbackReply_in_range (GeminiAI.random w) Hd H0 H1) as (reply & Hr & Hin).
    exists reply. split; [|done].
    rewrite generateReply_failed by done. by rewrite Hr.
  - intros w messageText contactNumber st text Hcan Htext Hblank.
    rewrite (generateReply_answered _ _ _ _ text) by done. rewrite Hblank.
    eexists. split; [done|]. split; [done|]. split; [|apply lookup_insert_eq].
    unfold GeminiAI.getChatHistory. simpl. rewrite lookup_insert_eq. simpl.
    destruct (10 <? _)%nat eqn:Hcmp; [|apply last_snoc].
    unfold GeminiAI.lastTen. apply Nat.ltb_lt in Hcmp.
    rewrite drop_app_le; [apply last_snoc|].
    rewrite !length_app in *. simpl in *. lia.
Qed.

(** The remote call fails for a first message [hello]. *)
Lemma fallback_returned_unrecorded_witness :
  let w := {| GeminiAI.maxEnv := None; GeminiAI.nowCheck := 1700000000001;
              GeminiAI.completion := None;
              GeminiAI.nowUser := 1700000000900; GeminiAI.nowBot := 1700000000901;
              GeminiAI.nowReply := 1700000000902; GeminiAI.random := 1 # 2 |} in
  AIReply.replyAfterRateCheck None 1000 (js "hello") (js "919876543210") AIReply.initial
  = (Returned (Some (AIReply.getFallbackReply (AIReply.detectLanguage (js "hello")))),
     AIReply.initial)
  /\ exists reply,
      GeminiAI.generateReply w (js "hello") (js "919876543210") GeminiAI.initial
      = (Returned (Some reply), GeminiAI.initial)
      /\ reply ∈ GeminiAI.fallbackReplies.
Proof.
  intros w.
  destruct fallback_returned_unrecorded as (_ & _ & Hai & Hgemini & _).
  split.
  - exact (Hai None 1000%Z (js "hello") (js "919876543210") AIReply.initial
               (or_introl eq_refl)).
  - apply (Hgemini w (js "hello") (js "919876543210") GeminiAI.initial);
      [vm_compute; reflexivity | reflexivity | vm_compute; reflexivity
       | unfold Qle; simpl; lia | unfold Qlt; simpl; lia].
Defined.

(** C3, the claim as stated fails.  For a first message [hello] whose remote
    call throws, [GeminiAI.generateReply] returns its third fallback reply
    with no entry recorded.  In [AIReply] the code past the guard returns
    the English fallback with the history of the contact still empty (and
    the whole method returns [null], since the guard denies the attempt). *)
Lemma fallback_exchange_not_appended :
  let contact := js "919876543210" in
  let w := {| GeminiAI.maxEnv := None; GeminiAI.nowCheck := 1700000000001;
              GeminiAI.completion := None;
              GeminiAI.nowUser := 1700000000900; GeminiAI.nowBot := 1700000000901;
              GeminiAI.nowReply := 1700000000902; GeminiAI.random := 1 # 2 |} in
  GeminiAI.generateReply w (js "hello") contact GeminiAI.initial
  = (Returned (Some (js "Oops! Kuch problem hai mere system mein. Dobara try karo 😊")),
     GeminiAI.initial)
  /\ ~ Spec.fallbackRecordedGemini w (js "hello") contact GeminiAI.initial
  /\ AIReply.replyAfterRateCheck None 1000 (js "hello") contact AIReply.initial
     = (Returned (Some (AIReply.getFallbackReply AIReply.English)), AIReply.initial)
  /\ ~ Spec.fallbackRecorded 1000 (js "hello") contact AIReply.initial
  /\ AIReply.generateReply None None 1000 (js "hello") contact AIReply.initial
     = (Returned None, AIReply.initial).
Proof.
  intros contact w.
  assert (AIReply.replyAfterRateCheck None 1000 (js "hello") contact AIReply.initial
          = (Returned (Some (AIReply.getFallbackReply AIReply.English)), AIReply.initial))
    as Hai by (vm_compute; reflexivity).
  assert (GeminiAI.generateReply w (js "hello") contact GeminiAI.initial
          = (Returned (Some (js "Oops! Kuch problem hai mere system mein. Dobara try karo 😊")),
             GeminiAI.initial)) as Hgemini by (vm_compute; reflexivity).
  split; [exact Hgemini|]. split; [|split; [exact Hai|split; [|vm_compute; reflexivity]]].
  - unfold Spec.fallbackRecordedGemini. rewrite Hgemini.
    intros (_ & entries & Hne & Happ).
    change (GeminiAI.getChatHistory contact GeminiAI.initial) with (@nil GeminiAI.Message) in Happ.
    simpl in Happ. subst entries. exact (Hne eq_refl).
  - unfold Spec.fallbackRecorded. rewrite Hai.
    intros (_ & entries & Hne & Happ).
    change (AIReply.getConversationHistory contact AIReply.initial) with (@nil AIReply.Turn)
      in Happ.
    simpl in Happ. subst entries. exact (Hne eq_refl).
Qed.

(** ** Language detection *)

Section RegexFacts.

Lemma search_unfold r prev s :
  search r prev s
  = matchesAt r prev s
    || match s with
       | c :: s' => search r (Some c) s'
       | [] => false
       end.
Proof. by destruct s. Qed.

(** A pattern that is a single class is found exactly when some code unit
    is in the class. *)
Lemma search_cls p prev s : search (Cls p) prev s = existsb p s.
Proof.
  revert prev. induction s as [|c s IH]; intros prev; [done|].
  rewrite search_unfold, IH. unfold matchesAt. simpl. by rewrite andb_true_r.
Qed.

Lemma test_cls p s : test (Cls p) s = existsb p s.
Proof. apply search_cls. Qed.

(** A match found at the end of a prefix is found by the search. *)
Lemma search_at r prev pre s :
  (forall pv, matchesAt r pv s = true) -> search r prev (pre ++ s) = true.
Proof.
  intros Hm. revert prev. induction pre as [|c pre IH]; intros prev.
  - simpl. rewrite search_unfold, Hm. done.
  - simpl. rewrite IH. apply orb_true_r.
Qed.

Section Star.

(** A starred class [p] in front of a continuation [k] that accepts the
    rest [s]. *)
Variables (p : N -> bool) (k : option N -> list N -> bool) (s : list N).
Hypothesis accepts : forall pv, k pv s = true.

(** The star can stop after any prefix whose code units are in the class. *)
Lemma star_skip prev l : forallb p l = true -> star p k prev (l ++ s) = true.
Proof.
  intros Hl. revert prev. induction l as [|c l IH]; intros prev.
  - destruct s; simpl; rewrite accepts; [done|apply orb_true_r].
  - simpl in Hl. apply andb_true_iff in Hl as [Hc Hl].
    simpl. by rewrite Hc, (IH Hl).
Qed.

End Star.

(** [(?=.*[q])] succeeds in front of a stretch without line terminator
    that holds a code unit of the class. *)
Lemma ahead_cls q prev seg post :
  forallb isDot seg = true -> existsb q seg = true ->
  matchesAt (Seq (Star isDot) (Cls q)) prev (seg ++ post) = true.
Proof.
  intros Hdot [c [Hin Hq]]%existsb_exists.
  apply list_elem_of_In, list_elem_of_split in Hin as (l1 & l2 & ->).
  rewrite forallb_app in Hdot. apply andb_true_iff in Hdot as [Hl1 _].
  unfold matchesAt. simpl. rewrite <- app_assoc. simpl.
  apply star_skip; [|done]. intros pv. simpl. by rewrite Hq.
Qed.

Lemma hinglish_at prev seg post :
  forallb isDot seg = true ->
  existsb isLatin seg = true ->
  existsb AIReply.isDevanagari seg = true ->
  matchesAt AIReply.hinglish prev (seg ++ post) = true.
Proof.
  intros Hdot Hlatin Hdeva. unfold matchesAt, AIReply.hinglish, AIReply.ahead.
  cbn [matches].
  pose proof (ahead_cls isLatin prev seg post Hdot Hlatin) as H1.
  pose proof (ahead_cls AIReply.isDevanagari prev seg post Hdot Hdeva) as H2.
  unfold matchesAt in H1, H2. cbn [matches] in H1, H2.
  by rewrite H1, H2.
Qed.

(** A Latin letter and a Devanagari character with no line terminator
    between them make the [hinglish] pattern match. *)
Lemma hinglish_segment pre seg post :
  forallb isDot seg = true ->
  existsb isLatin seg = true ->
  existsb AIReply.isDevanagari seg = true ->
  test AIReply.hinglish (pre ++ seg ++ post) = true.
Proof.
  intros Hdot Hlatin Hdeva. apply search_at. intros pv. by apply hinglish_at.
Qed.

Lemma detectLanguage_hinglish_first text :
  test AIReply.hinglish (AIReply.cleanText text) = true ->
  AIReply.detectLanguage text = AIReply.Hinglish.
Proof. intros H. unfold AIReply.detectLanguage. by rewrite H. Qed.

Lemma detectLanguage_default text :
  test AIReply.hindi (AIReply.cleanText text) = false ->
  test AIReply.urdu (AIReply.cleanText text) = false ->
  test AIReply.bengali (AIReply.cleanText text) = false ->
  test AIReply.tamil (AIReply.cleanText text) = false ->
  test AIReply.gujarati (AIReply.cleanText text) = false ->
  test AIReply.english (AIReply.cleanText text) = false ->
  AIReply.detectLanguage text = AIReply.Hinglish.
Proof.
  intros H1 H2 H3 H4 H5 H6. unfold AIReply.detectLanguage.
  rewrite H1, H2, H3, H4, H5, H6. by destruct (test AIReply.hinglish _).
Qed.

Lemma gemini_detectLanguage_mixed text :
  existsb isLatin text = true ->
  existsb AIReply.isDevanagari text = true ->
  GeminiAI.detectLanguage text = GeminiAI.Hinglish.
Proof.
  intros Hlatin Hdeva. unfold GeminiAI.detectLanguage.
  rewrite !test_cls. change (inRange 0x0900 0x097F) with AIReply.isDevanagari.
  by rewrite Hlatin, Hdeva.
Qed.

Lemma gemini_detectLanguage_default text :
  existsb isLatin text = false ->
  existsb AIReply.isDevanagari text = false ->
  GeminiAI.detectLanguage text = GeminiAI.Hinglish.
Proof.
  intros Hlatin Hdeva. unfold GeminiAI.detectLanguage.
  rewrite !test_cls. change (inRange 0x0900 0x097F) with AIReply.isDevanagari.
  rewrite Hlatin, Hdeva.
  by destruct (existsb _ GeminiAI.hinglishPatterns).
Qed.

End RegexFacts.

Example regex_examples :
  test (GeminiAI.wordPattern ["hai"; "hain"]%string) (js "kaise hain aap") = true
  /\ test (GeminiAI.wordPattern ["hai"; "hain"]%string) (js "chain") = false
  /\ test (GeminiAI.wordPattern ["ok"]%string) (js "OK!") = true
  /\ test AIReply.english (js "Hello, world!") = true
  /\ test AIReply.english (js "Hello #1") = false
  /\ test AIReply.english [] = true
  /\ test AIReply.hinglish (js "kya") = true
  /\ test AIReply.hinglish (js "hello") = false
  /\ matchesAt AIReply.urlRe None (js "https://a.b/c d") = true
  /\ matchesAt AIReply.urlRe None (js "http:// x") = false
  /\ AIReply.cleanText (js " see https://a.b/c?d=1 now 42 ") = js "see  now".
Proof. vm_compute. repeat split; reflexivity. Qed.

(** C8, as the code has it.  [detectLanguage] of [AIReply] tests the mixed
    pattern first, on the cleaned text: it returns [hinglish] whenever that
    pattern matches, in particular whenever the cleaned text holds a Latin
    letter and a Devanagari character with no line terminator between them,
    whatever the single-script patterns say; and it returns [hinglish] when
    no single-script pattern matches.  [detectLanguage] of [GeminiAI] returns
    [hinglish] for a text with a Latin letter and a Devanagari character, and
    for a text with neither. *)
Theorem detectLanguage_mixed_first :
  (forall text,
      test AIReply.hinglish (AIReply.cleanText text) = true ->
      AIReply.detectLanguage text = AIReply.Hinglish)
  /\ (forall text pre seg post,
        AIReply.cleanText text = pre ++ seg ++ post ->
        forallb isDot seg = true ->
        existsb isLatin seg = true ->
        existsb AIReply.isDevanagari seg = true ->
        AIReply.detectLanguage text = AIReply.Hinglish)
  /\ (forall text,
        test AIReply.hindi (AIReply.cleanText text) = false ->
        test AIReply.urdu (AIReply.cleanText text) = false ->
        test AIReply.bengali (AIReply.cleanText text) = false ->
        test AIReply.tamil (AIReply.cleanText text) = false ->
        test AIReply.gujarati (AIReply.cleanText text) = false ->
        test AIReply.english (AIReply.cleanText text) = false ->
        AIReply.detectLanguage text = AIReply.Hinglish)
  /\ (forall text,
        existsb isLatin text = true ->
        existsb AIReply.isDevanagari text = true ->
        GeminiAI.detectLanguage text = GeminiAI.Hinglish)
  /\ (forall text,
        existsb isLatin text = false ->
        existsb AIReply.isDevanagari text = false ->
        GeminiAI.detectLanguage text = GeminiAI.Hinglish).
Proof.
  split; [|split; [|split; [|split]]].
  - apply detectLanguage_hinglish_first.
  - intros text pre seg post Hclean Hdot Hlatin Hdeva.
    apply detectLanguage_hinglish_first. rewrite Hclean. by apply hinglish_segment.
  - apply detectLanguage_default.
  - apply gemini_detectLanguage_mixed.
  - apply gemini_detectLanguage_default.
Qed.

(** A greeting in Latin letters and Devanagari on one line, behind a link
    that the cleaning removes; and an emoji, which no pattern matches. *)
Lemma detectLanguage_mixed_first_witness :
  AIReply.detectLanguage (js "https://wa.me/1 hello नमस्ते") = AIReply.Hinglish
  /\ AIReply.detectLanguage (js "😅") = AIReply.Hinglish.
Proof.
  destruct detectLanguage_mixed_first as (_ & Hsegment & Hdefault & _).
  split.
  - apply (Hsegment (js "https://wa.me/1 hello नमस्ते") [] (js "hello नमस्ते") []);
      vm_compute; reflexivity.
  - apply (Hdefault (js "😅")); vm_compute; reflexivity.
Defined.

(** C8, the claim as stated fails.  A text in Latin letters and Bengali
    script is classified [bengali] by [AIReply] and [english] by [GeminiAI];
    a Latin line followed by a Devanagari line is classified [hindi] by
    [AIReply], and so is a Devanagari word behind a link. *)
Lemma two_scripts_monolingual :
  let latinBengali := js "hello বাংলা" in
  let twoLines := js "hi" ++ [0x0A] ++ js "नमस्ते" in
  let link := js "http://example.com नमस्ते" in
  existsb isLatin latinBengali = true
  /\ existsb (inRange 0x0980 0x09FF) latinBengali = true
  /\ AIReply.detectLanguage latinBengali = AIReply.Bengali
  /\ GeminiAI.detectLanguage latinBengali = GeminiAI.English
  /\ existsb isLatin twoLines = true
  /\ existsb AIReply.isDevanagari twoLines = true
  /\ AIReply.detectLanguage twoLines = AIReply.Hindi
  /\ existsb isLatin link = true
  /\ existsb AIReply.isDevanagari link = true
  /\ AIReply.detectLanguage link = AIReply.Hindi
  /\ ~ Spec.twoScriptsAreMixed
  /\ ~ Spec.latinDevanagariIsMixed.
Proof.
  intros latinBengali twoLines link.
  assert (AIReply.detectLanguage latinBengali = AIReply.Bengali) as Hbengali
    by (vm_compute; reflexivity).
  assert (AIReply.detectLanguage twoLines = AIReply.Hindi) as Hlines
    by (vm_compute; reflexivity).
  repeat (split; [vm_compute; reflexivity|]).
  split.
  - intros Hclaim.
    specialize (Hclaim latinBengali Spec.Latin Spec.BengaliScript).
    rewrite Hbengali in Hclaim.
    by discriminate Hclaim; [discriminate | vm_compute | vm_compute].
  - intros Hclaim. specialize (Hclaim twoLines).
    rewrite Hlines in Hclaim.
    by discriminate Hclaim; vm_compute.
Qed.

(** * Further properties of the code *)

(** ** Phone numbers: formatting, extraction, validity *)

Section PhoneNumberMore.

Import WhatsAppHandler.

Lemma stripNonDigits_of_digits p : forallb isDigit p = true -> stripNonDigits p = p.
Proof.
  unfold stripNonDigits. induction p as [|c p IH]; [done|].
  intros [Hc Hp]%andb_true_iff. rewrite filter_cons.
  destruct (decide (isDigit c = true)); [|done]. by rewrite IH.
Qed.

Lemma stripNonDigits_formatted number :
  stripNonDigits (formatPhoneNumber number) = Spec.nationalPrefix number.
Proof.
  rewrite formatPhoneNumber_eq. unfold stripNonDigits. rewrite filter_app.
  fold (stripNonDigits (Spec.nationalPrefix number)).
  rewrite (stripNonDigits_of_digits _ (nationalPrefix_digits number)).
  apply app_nil_r.
Qed.

(** The prefix that has been given its country code is not given another. *)
Lemma nationalPrefix_stable number :
  Spec.nationalPrefix (formatPhoneNumber number) = Spec.nationalPrefix number.
Proof.
  unfold Spec.nationalPrefix at 1. fold (stripNonDigits (formatPhoneNumber number)).
  rewrite stripNonDigits_formatted. unfold Spec.nationalPrefix.
  fold (stripNonDigits number).
  assert (length (js "91") = 2%nat) as Hcc by reflexivity.
  remember (js "91") as cc eqn:Ecc.
  destruct (length (stripNonDigits number) =? 10)%nat eqn:Hlen;
    destruct (startsWith (stripNonDigits number) cc) eqn:H91; cbn [andb negb];
    rewrite ?Hlen, ?H91; cbn [andb negb]; try done.
  apply Nat.eqb_eq in Hlen. by rewrite length_app, Hlen, Hcc.
Qed.

Lemma startsWith_refl s : startsWith s s = true.
Proof. induction s as [|c s IH]; [done|]. simpl. by rewrite N.eqb_refl. Qed.

Lemma includes_suffix a b : includes (a ++ b) b = true.
Proof.
  induction a as [|c a IH]; simpl.
  - destruct b; simpl; [done|]. by rewrite N.eqb_refl, startsWith_refl.
  - rewrite IH. apply orb_true_r.
Qed.

Lemma replaceFirst_suffix p :
  forallb isDigit p = true -> replaceFirst (p ++ js "@c.us") (js "@c.us") [] = p.
Proof.
  induction p as [|c p IH]; [done|].
  intros [Hc Hp]%andb_true_iff.
  change (js "@c.us") with (64 :: js "c.us") at 2.
  cbn [replaceFirst app startsWith]. rewrite (digit_not_at c Hc). simpl.
  f_equal. exact (IH Hp).
Qed.

Lemma nationalPrefix_length number :
  (8 <=? length (Spec.nationalPrefix number))%nat
  = (8 <=? length (stripNonDigits number))%nat.
Proof.
  unfold Spec.nationalPrefix. fold (stripNonDigits number).
  assert (length (js "91") = 2%nat) as Hcc by reflexivity.
  remember (js "91") as cc eqn:Ecc.
  destruct (length (stripNonDigits number) =? 10)%nat eqn:Hlen; cbn [andb]; [|done].
  apply Nat.eqb_eq in Hlen.
  destruct (startsWith _ _); cbn [negb]; [done|].
  by rewrite length_app, Hlen, Hcc.
Qed.

End PhoneNumberMore.

(** X1.  Formatting is idempotent: a chat id that [formatPhoneNumber] has
    produced is left as it is when it is formatted again. *)
Theorem formatPhoneNumber_idempotent :
  forall number : list N,
    WhatsAppHandler.formatPhoneNumber (WhatsAppHandler.formatPhoneNumber number)
    = WhatsAppHandler.formatPhoneNumber number.
Proof.
  intros number.
  rewrite (formatPhoneNumber_eq (WhatsAppHandler.formatPhoneNumber number)).
  rewrite nationalPrefix_stable. symmetry. apply formatPhoneNumber_eq.
Qed.

(** X2.  Extraction undoes formatting: from the chat id of a number,
    [extractPhoneFromMessage] gives back its digits (with the country code
    that formatting put in front), and the suffix appended to them is the
    chat id again.  A missing or empty sender gives [null]. *)
Theorem extractPhone_formatPhoneNumber :
  forall number : list N,
    exists phone,
      WhatsAppHandler.extractPhoneFromMessage (Some (WhatsAppHandler.formatPhoneNumber number))
      = Some phone
      /\ forallb isDigit phone = true
      /\ phone ++ js "@c.us" = WhatsAppHandler.formatPhoneNumber number
      /\ WhatsAppHandler.formatPhoneNumber phone = WhatsAppHandler.formatPhoneNumber number
      /\ WhatsAppHandler.extractPhoneFromMessage None = None
      /\ WhatsAppHandler.extractPhoneFromMessage (Some []) = None.
Proof.
  intros number. exists (Spec.nationalPrefix number).
  pose proof (nationalPrefix_digits number) as Hdigits.
  split; [|split; [done|split; [by rewrite formatPhoneNumber_eq|split; [|done]]]].
  - rewrite formatPhoneNumber_eq. unfold WhatsAppHandler.extractPhoneFromMessage.
    destruct (Spec.nationalPrefix number ++ js "@c.us") as [|c rest] eqn:Hform.
    { by destruct (Spec.nationalPrefix number). }
    rewrite <- Hform. by rewrite replaceFirst_suffix.
  - rewrite !formatPhoneNumber_eq. f_equal.
    rewrite <- (nationalPrefix_stable number) at 2.
    unfold Spec.nationalPrefix.
    fold (WhatsAppHandler.stripNonDigits (Spec.nationalPrefix number)).
    fold (WhatsAppHandler.stripNonDigits (WhatsAppHandler.formatPhoneNumber number)).
    by rewrite stripNonDigits_formatted, stripNonDigits_of_digits.
Qed.

(** X3.  [isValidWhatsAppNumber] accepts a string exactly when it holds at
    least eight ASCII digits, whatever else it holds. *)
Theorem isValidWhatsAppNumber_eight_digits :
  forall number : list N,
    WhatsAppHandler.isValidWhatsAppNumber number
    = (8 <=? length (filter (fun c => isDigit c = true) number))%nat.
Proof.
  intros number. unfold WhatsAppHandler.isValidWhatsAppNumber.
  rewrite formatPhoneNumber_eq, includes_suffix, length_app.
  change (length (js "@c.us")) with 5%nat. cbn [andb].
  fold (WhatsAppHandler.stripNonDigits number). rewrite <- nationalPrefix_length.
  generalize (length (Spec.nationalPrefix number)). intros n.
  destruct (Nat.ltb_spec 12 (n + 5)), (Nat.leb_spec 8 n); done || lia.
Qed.

(** ** The registry: capacity, shutdown, restart *)

Section RegistryMore.

Import WhatsAppHandler.

Lemma bind_returned {S E A B} (m : M S E A) (f : A -> M S E B) s a s' :
  m s = (Returned a, s') -> bind m f s = f a s'.
Proof. intros H. unfold bind. by rewrite H. Qed.

Lemma settled_returned {A} (m : M State error A) st a st' :
  m st = (Returned a, st') -> settled m st = (Returned tt, st').
Proof. intros H. unfold settled. run_body. by rewrite H. Qed.

Lemma destroySession_effect destroyed removed sessionId st :
  exists b st',
    destroySession destroyed removed sessionId st = (Returned b, st')
    /\ clients st' = delete sessionId (clients st)
    /\ maxSessions st' = maxSessions st.
Proof.
  destruct (clients st !! sessionId) as [client|] eqn:H.
  - destruct (destroySession_present destroyed removed sessionId st client H)
      as (st' & Hrun & Hc & Hm).
    by exists destroyed, st'.
  - exists false, st. rewrite destroySession_absent by done.
    by rewrite delete_id.
Qed.

Lemma createClient_maxSessions constructed sessionId st :
  maxSessions (createClient constructed sessionId st).2 = maxSessions st.
Proof.
  unfold createClient. destruct (clients st !! sessionId); [done|].
  destruct (_ <=? _)%Z; [done|]. by destruct constructed.
Qed.

Lemma sendMessage_registry w sessionId to message st :
  clients (sendMessage w sessionId to message st).2 = clients st
  /\ maxSessions (sendMessage w sessionId to message st).2 = maxSessions st.
Proof.
  unfold sendMessage. run_body.
  destruct (clients st !! sessionId); [|done].
  by destruct w as [[] [] [] []].
Qed.

Lemma size_delete_le (m : gmap (list N) Client) sessionId :
  (size (delete sessionId m) <= size m)%nat.
Proof. rewrite map_size_delete. destruct (m !! sessionId); simpl; lia. Qed.

(** What the loop of [cleanupAllSessions] does for a list of ids. *)
Lemma cleanup_loop outcome ids st :
  exists st',
    foldr (fun sessionId rest =>
             settled (destroySession (outcome sessionId).1 (outcome sessionId).2 sessionId) ;;;
             rest)
          (ret tt) ids st = (Returned tt, st')
    /\ clients st' = foldr delete (clients st) ids
    /\ maxSessions st' = maxSessions st.
Proof.
  revert st. induction ids as [|sessionId ids IH]; intros st; [by exists st|].
  cbn [foldr].
  destruct (destroySession_effect (outcome sessionId).1 (outcome sessionId).2 sessionId st)
    as (b & st1 & Hrun & Hc1 & Hm1).
  erewrite bind_returned; [|by eapply settled_returned].
  destruct (IH st1) as (st' & -> & Hc & Hm).
  exists st'. split; [done|]. split; [|congruence].
  rewrite Hc, Hc1. symmetry. apply delete_foldr_delete.
Qed.

Lemma foldr_delete_keys (m : gmap (list N) Client) :
  foldr delete m (map_to_list m).*1 = ∅.
Proof.
  apply map_eq. intros i. rewrite lookup_empty.
  destruct (m !! i) as [x|] eqn:Hi.
  - apply lookup_foldr_delete. apply list_elem_of_fmap. exists (i, x).
    split; [done|]. by apply elem_of_map_to_list.
  - destruct (decide (i ∈ (map_to_list m).*1)) as [Hin|Hout].
    + by apply lookup_foldr_delete.
    + by rewrite lookup_foldr_delete_not_elem_of.
Qed.

Lemma cleanupAllSessions_effect outcome st :
  exists st',
    cleanupAllSessions outcome st = (Returned tt, st')
    /\ clients st' = ∅
    /\ maxSessions st' = maxSessions st.
Proof.
  unfold cleanupAllSessions. erewrite bind_returned; [|reflexivity].
  destruct (cleanup_loop outcome (map_to_list (clients st)).*1 st) as (st' & -> & Hc & Hm).
  exists st'. split; [done|]. split; [|done].
  rewrite Hc. apply foldr_delete_keys.
Qed.

End RegistryMore.

Section RegistryInvariant.

Import WhatsAppHandler.

(** Induction on an operation, the operations during the pause of a
    restart included. *)
Lemma op_nested_ind (P : op -> Prop) :
  (forall constructed sessionId, P (OpCreate constructed sessionId)) ->
  (forall destroyed removed sessionId, P (OpDestroy destroyed removed sessionId)) ->
  (forall destroyed removed during constructed sessionId,
      Forall P during -> P (OpRestart destroyed removed during constructed sessionId)) ->
  (forall w sessionId to message, P (OpSend w sessionId to message)) ->
  (forall sessionId, P (OpAuthFailure sessionId)) ->
  (forall removed sessionId, P (OpDisconnected removed sessionId)) ->
  (forall outcome, P (OpCleanupAll outcome)) ->
  forall o, P o.
Proof.
  intros Hcreate Hdestroy Hrestart Hsend Hauth Hdisc Hclean.
  fix IH 1. intros [k sid | d r sid | d r during k sid | w sid to msg | sid | r sid | oc].
  - apply Hcreate.
  - apply Hdestroy.
  - apply Hrestart. revert during. fix IHduring 1. intros [|o during].
    + constructor.
    + constructor; [apply IH | apply IHduring].
  - apply Hsend.
  - apply Hauth.
  - apply Hdisc.
  - apply Hclean.
Qed.

Lemma run_restart destroyed removed during constructed sessionId st :
  run (OpRestart destroyed removed during constructed sessionId) st
  = (restartSession destroyed removed (runAll during) constructed sessionId st).2.
Proof. reflexivity. Qed.

(** [restartSession] in its three stages. *)
Lemma restartSession_stages destroyed removed during constructed sessionId st :
  restartSession destroyed removed during constructed sessionId st
  = createClient constructed sessionId
                 (during (destroySession destroyed removed sessionId st).2).
Proof.
  unfold restartSession.
  destruct (destroySession_effect destroyed removed sessionId st) as (b & st' & Hrun & _).
  erewrite bind_returned by exact Hrun. by rewrite Hrun.
Qed.

Lemma runAll_maxSessions_from ops :
  Forall (fun o => forall st, maxSessions (run o st) = maxSessions st) ops ->
  forall st, maxSessions (runAll ops st) = maxSessions st.
Proof.
  induction 1 as [|o ops Ho _ IH]; intros st; [done|].
  simpl. change (foldl _ (run o st) ops) with (runAll ops (run o st)).
  by rewrite IH, Ho.
Qed.

Lemma run_maxSessions o st : maxSessions (run o st) = maxSessions st.
Proof.
  revert st. induction o as [k sid | d r sid | d r during k sid IH | w sid to msg | sid
                             | r sid | oc] using op_nested_ind; intros st.
  - apply createClient_maxSessions.
  - simpl. destruct (destroySession_effect d r sid st) as (b & st' & Hrun & _ & Hm).
    by rewrite Hrun.
  - rewrite run_restart, restartSession_stages, createClient_maxSessions.
    rewrite (runAll_maxSessions_from during IH).
    destruct (destroySession_effect d r sid st) as (b & st' & Hrun & _ & Hm).
    by rewrite Hrun.
  - apply sendMessage_registry.
  - done.
  - done.
  - simpl. destruct (cleanupAllSessions_effect oc st) as (st' & Hrun & _ & Hm).
    by rewrite Hrun.
Qed.

Lemma withinCapacity_delete sessionId st st' :
  clients st' = delete sessionId (clients st) ->
  maxSessions st' = maxSessions st ->
  Inv.withinCapacity st -> Inv.withinCapacity st'.
Proof.
  unfold Inv.withinCapacity. intros -> ->.
  pose proof (size_delete_le (clients st) sessionId). lia.
Qed.

Lemma withinCapacity_create constructed sessionId st :
  Inv.withinCapacity st -> Inv.withinCapacity (createClient constructed sessionId st).2.
Proof.
  unfold Inv.withinCapacity, createClient. intros Hcap.
  destruct (clients st !! sessionId) eqn:Hl; [done|].
  destruct (_ <=? _)%Z eqn:Hfull; [done|].
  destruct constructed as [client|]; [|done]. simpl.
  rewrite map_size_insert_None by done. apply Z.leb_gt in Hfull. lia.
Qed.

Lemma withinCapacity_runAll_from ops :
  Forall (fun o => forall st, Inv.withinCapacity st -> Inv.withinCapacity (run o st)) ops ->
  forall st, Inv.withinCapacity st -> Inv.withinCapacity (runAll ops st).
Proof.
  induction 1 as [|o ops Ho _ IH]; intros st Hcap; [done|].
  simpl. change (foldl _ (run o st) ops) with (runAll ops (run o st)).
  by apply IH, Ho.
Qed.

Lemma withinCapacity_run o st : Inv.withinCapacity st -> Inv.withinCapacity (run o st).
Proof.
  revert st. induction o as [k sid | d r sid | d r during k sid IH | w sid to msg | sid
                             | r sid | oc] using op_nested_ind; intros st Hcap.
  - by apply withinCapacity_create.
  - simpl. destruct (destroySession_effect d r sid st) as (b & st' & Hrun & Hc & Hm).
    rewrite Hrun. by eapply withinCapacity_delete.
  - rewrite run_restart, restartSession_stages.
    apply withinCapacity_create, (withinCapacity_runAll_from during IH).
    destruct (destroySession_effect d r sid st) as (b & st' & Hrun & Hc & Hm).
    rewrite Hrun. by eapply withinCapacity_delete.
  - unfold Inv.withinCapacity. simpl.
    by destruct (sendMessage_registry w sid to msg st) as [-> ->].
  - by eapply withinCapacity_delete.
  - by eapply withinCapacity_delete.
  - simpl. destruct (cleanupAllSessions_effect oc st) as (st' & Hrun & Hc & Hm).
    rewrite Hrun. unfold Inv.withinCapacity. simpl. rewrite Hc, map_size_empty. lia.
Qed.

Lemma withinCapacity_runAll ops st :
  Inv.withinCapacity st ->
  Inv.withinCapacity (runAll ops st) /\ maxSessions (runAll ops st) = maxSessions st.
Proof.
  revert st. induction ops as [|o ops IH]; intros st Hcap; [done|].
  simpl. destruct (IH (run o st) (withinCapacity_run o st Hcap)) as [H1 H2].
  split; [done|]. by rewrite H2, run_maxSessions.
Qed.

End RegistryInvariant.

(** X4.  Whatever sequence of creations, destructions, restarts, sends,
    client events and clean-ups a registry goes through after its
    construction, it never holds more clients than its maximum (ten unless
    [MAX_SESSIONS] says otherwise; none when that is negative), and the
    maximum never changes. *)
Theorem registry_within_capacity :
  forall (maxEnv : option Z) (dirs : gset (list N)) (ops : list WhatsAppHandler.op),
    let st := WhatsAppHandler.runAll ops (WhatsAppHandler.create maxEnv dirs) in
    (Z.of_nat (size (WhatsAppHandler.clients st)) <= Z.max 0 (orDefault maxEnv 10))%Z
    /\ WhatsAppHandler.maxSessions st = orDefault maxEnv 10.
Proof.
  intros maxEnv dirs ops st.
  assert (Inv.withinCapacity (WhatsAppHandler.create maxEnv dirs)) as H0.
  { unfold Inv.withinCapacity. simpl. rewrite map_size_empty. lia. }
  destruct (withinCapacity_runAll ops _ H0) as [Hcap Hmax].
  fold st in Hcap, Hmax. unfold Inv.withinCapacity in Hcap.
  rewrite Hmax in Hcap. by split.
Qed.

(** X5.  [shutdown] (that is [cleanupAllSessions]) returns without throwing
    and leaves the registry empty, whichever of the teardowns and directory
    removals fail. *)
Theorem shutdown_empties_registry :
  forall (outcome : list N -> bool * bool) (st : WhatsAppHandler.State),
    exists st',
      WhatsAppHandler.shutdown outcome st = (Returned tt, st')
      /\ WhatsAppHandler.clients st' = ∅
      /\ WhatsAppHandler.maxSessions st' = WhatsAppHandler.maxSessions st.
Proof. intros outcome st. apply cleanupAllSessions_effect. Qed.



(** X7.  Creating a session under a fresh id and destroying it again gives
    back the registry as it was, whether or not the teardown goes through;
    [destroySession] reports the teardown. *)
Theorem create_destroy_round_trip :
  forall (destroyed removed : bool) (client : WhatsAppHandler.Client)
         (sessionId : list N) (st : WhatsAppHandler.State),
    WhatsAppHandler.clients st !! sessionId = None ->
    (Z.of_nat (size (WhatsAppHandler.clients st)) < WhatsAppHandler.maxSessions st)%Z ->
    exists st1 st2,
      WhatsAppHandler.createClient (Some client) sessionId st = (Returned client, st1)
      /\ WhatsAppHandler.destroySession destroyed removed sessionId st1
         = (Returned destroyed, st2)
      /\ WhatsAppHandler.clients st2 = WhatsAppHandler.clients st
      /\ WhatsAppHandler.maxSessions st2 = WhatsAppHandler.maxSessions st.
Proof.
  intros destroyed removed client sessionId st Hnew Hroom.
  set (st1 := WhatsAppHandler.setClients (insert sessionId client) st).
  assert (WhatsAppHandler.clients st1 !! sessionId = Some client) as H1
    by (simpl; apply lookup_insert_eq).
  destruct (destroySession_present destroyed removed sessionId st1 client H1)
    as (st2 & Hrun & Hc & Hm).
  exists st1, st2. split; [by apply createClient_new|]. split; [done|]. split; [|done].
  rewrite Hc. simpl. by apply delete_insert_id.
Qed.

Lemma create_destroy_round_trip_witness :
  let a := {| WhatsAppHandler.handle := 1 |} in
  let st := WhatsAppHandler.create None ∅ in
  exists st1 st2,
    WhatsAppHandler.createClient (Some a) (js "a") st = (Returned a, st1)
    /\ WhatsAppHandler.destroySession false false (js "a") st1 = (Returned false, st2)
    /\ WhatsAppHandler.clients st2 = WhatsAppHandler.clients st
    /\ WhatsAppHandler.maxSessions st2 = WhatsAppHandler.maxSessions st.
Proof.
  intros a st.
  apply (create_destroy_round_trip false false a (js "a") st).
  - reflexivity.
  - vm_compute. reflexivity.
Defined.

(** ** Sanitising a completion *)

Section CleanResponseFacts.

Import AIReply.

Lemma limitLength_length cleaned : (length (limitLength cleaned) <= 500)%nat.
Proof.
  unfold limitLength. destruct (Nat.ltb_spec 500 (length cleaned)) as [Hlong|Hshort]; [|lia].
  rewrite length_app, length_take. change (length (js "...")) with 3%nat. lia.
Qed.

Lemma limitLength_head c cleaned : exists rest, limitLength (c :: cleaned) = c :: rest.
Proof.
  unfold limitLength. destruct (500 <? length (c :: cleaned))%nat; [|by eexists].
  by eexists.
Qed.

Lemma trimStart_head s c rest : trimStart s = c :: rest -> isSpace c = false.
Proof.
  induction s as [|x s IH]; [done|]. simpl.
  destruct (isSpace x) eqn:Hx; [done|]. intros [= <- _]. done.
Qed.

Lemma trimStart_snoc s c : isSpace c = false -> trimStart (s ++ [c]) = trimStart s ++ [c].
Proof.
  intros Hc. induction s as [|x s IH]; simpl; [by rewrite Hc|].
  by destruct (isSpace x).
Qed.

(** What [trim] returns starts with no white space. *)
Lemma trim_head s c rest : trim s = c :: rest -> isSpace c = false.
Proof.
  unfold trim. destruct (trimStart s) as [|x t] eqn:Hs; [done|].
  pose proof (trimStart_head _ _ _ Hs) as Hx.
  simpl. rewrite trimStart_snoc by done. rewrite rev_app_distr. simpl.
  by intros [= <- _].
Qed.

(** Neither does it end with white space. *)
Lemma trim_last s c front : trim s = front ++ [c] -> isSpace c = false.
Proof.
  unfold trim. intros H.
  assert (trimStart (rev (trimStart s)) = c :: rev front) as H'.
  { rewrite <- (rev_involutive (trimStart _)), H, rev_app_distr. done. }
  by apply trimStart_head in H'.
Qed.

(** Text without the first code unit of a delimiter holds no pair of
    delimiters. *)
Lemma unwrap_plain d delim s :
  forallb (fun c => negb (c =? d)) s = true -> unwrap (d :: delim) false 0 s = s.
Proof.
  induction s as [|c s IH]; [done|]. simpl. intros [Hc Hs]%andb_true_iff.
  apply negb_true_iff in Hc. rewrite Hc. simpl. by rewrite IH.
Qed.

Lemma collapseBlankLines_plain s :
  forallb (fun c => negb (c =? 10)) s = true -> collapseBlankLines 0 s = s.
Proof.
  induction s as [|c s IH]; [done|]. intros [Hc Hs]%andb_true_iff.
  apply negb_true_iff in Hc. cbn [collapseBlankLines]. rewrite Hc. cbn [andb].
  by rewrite IH.
Qed.

End CleanResponseFacts.

(** X8.  Whatever the completion, the sanitised text holds at most five
    hundred code units and neither starts nor ends with white space. *)
Theorem cleanAIResponse_bounded :
  forall response : list N,
    (length (AIReply.cleanAIResponse response) <= 500)%nat
    /\ (forall c rest, AIReply.cleanAIResponse response = c :: rest -> isSpace c = false)
    /\ (forall front c, AIReply.cleanAIResponse response = front ++ [c] -> isSpace c = false).
Proof.
  intros response. unfold AIReply.cleanAIResponse.
  split; [apply limitLength_length|]. set (cleaned := trim _). split.
  - intros c rest. destruct cleaned as [|x t] eqn:Hcleaned; [done|].
    destruct (limitLength_head x t) as [rest' ->]. intros [= <- _].
    by apply (trim_head _ _ _ Hcleaned).
  - intros front c. unfold AIReply.limitLength.
    destruct (500 <? length cleaned)%nat.
    + change (js "...") with ([46; 46] ++ [46]). rewrite app_assoc.
      by intros [_ <-]%app_inj_tail.
    + apply trim_last.
Qed.

(** X9.  On a completion without asterisk, backtick and line feed the
    sanitiser only trims and cuts: nothing inside the text is touched. *)
Theorem cleanAIResponse_plain :
  forall response : list N,
    forallb (fun c => negb (c =? 42) && negb (c =? 96) && negb (c =? 10)) response = true ->
    AIReply.cleanAIResponse response = AIReply.limitLength (trim response).
Proof.
  intros response Hplain. unfold AIReply.cleanAIResponse.
  assert (forallb (fun c => negb (c =? 42)) response = true
          /\ forallb (fun c => negb (c =? 96)) response = true
          /\ forallb (fun c => negb (c =? 10)) response = true) as (H42 & H96 & H10).
  { induction response as [|c s IH]; [done|]. simpl in Hplain |- *.
    apply andb_true_iff in Hplain as [[[-> ->]%andb_true_iff ->]%andb_true_iff Hs].
    destruct (IH Hs) as (-> & -> & ->). done. }
  change (js "**") with [42; 42]. change (js "*") with [42]. change (js "`") with [96].
  rewrite (unwrap_plain 42 [42]) by done. rewrite (unwrap_plain 42 []) by done.
  rewrite (unwrap_plain 96 []) by done. by rewrite collapseBlankLines_plain.
Qed.

Lemma cleanAIResponse_plain_witness :
  AIReply.cleanAIResponse (js "  Theek hai, kal milte hain! ")
  = AIReply.limitLength (trim (js "  Theek hai, kal milte hain! ")).
Proof.
  apply (cleanAIResponse_plain (js "  Theek hai, kal milte hain! ")).
  vm_compute. reflexivity.
Defined.

(** ** Sweeping old conversations *)

Section CleanupFacts.

Import AIReply.

Lemma expired_false now history :
  expired now history = false
  <-> exists lastMessage,
        last history = Some lastMessage /\ (now - timestamp lastMessage <= 86400000)%Z.
Proof.
  unfold expired. destruct (last history) as [lastMessage|].
  - rewrite Z.ltb_ge. change (24 * 60 * 60 * 1000)%Z with 86400000%Z. split.
    + intros H. by exists lastMessage.
    + by intros (? & [= <-] & H).
  - split; [done|]. by intros (? & ? & _).
Qed.

(** An entry that a sweep deletes is deleted by every later sweep. *)
Lemma expired_later now1 now2 history :
  (now1 <= now2)%Z -> expired now2 history = false -> expired now1 history = false.
Proof.
  intros Hle. unfold expired. destruct (last history); [|done].
  rewrite !Z.ltb_ge. lia.
Qed.

Lemma cleanup_subsumes now1 now2 st :
  (now1 <= now2)%Z ->
  cleanupOldConversations now2 (cleanupOldConversations now1 st)
  = cleanupOldConversations now2 st.
Proof.
  intros Hle. unfold cleanupOldConversations. simpl. f_equal.
  - rewrite map_filter_filter. apply map_filter_ext. intros contact history _. simpl.
    split; [by intros [? _]|]. intros H. split; [done|]. by apply (expired_later now1 now2).
  - rewrite map_filter_filter. apply map_filter_ext. intros contact limits _. simpl.
    rewrite !Z.ltb_ge. lia.
Qed.

End CleanupFacts.

(** X10.  After a sweep every conversation still held is one that was held
    before, unchanged, is not empty and has its last turn no older than
    twenty-four hours; every rate-limit entry still held is unchanged and
    its window ended no more than five minutes ago.  Nothing else is
    removed. *)
Theorem cleanupOldConversations_keeps :
  forall (now : Z) (st : AIReply.State) (contact : list N),
    (forall history,
        AIReply.conversationHistory (AIReply.cleanupOldConversations now st) !! contact
        = Some history
        <-> AIReply.conversationHistory st !! contact = Some history
            /\ history <> []
            /\ exists lastMessage,
                 last history = Some lastMessage
                 /\ (now - AIReply.timestamp lastMessage <= 24 * 60 * 60 * 1000)%Z)
    /\ (forall limits,
           AIReply.rateLimits (AIReply.cleanupOldConversations now st) !! contact = Some limits
           <-> AIReply.rateLimits st !! contact = Some limits
               /\ (now <= AIReply.resetTime limits + 300000)%Z).
Proof.
  intros now st contact. unfold AIReply.cleanupOldConversations. simpl. split.
  - intros history. rewrite map_lookup_filter_Some. simpl. rewrite expired_false.
    split.
    + intros (Hheld & lastMessage & Hlast & Hage). split; [done|]. split; [|by eauto].
      by intros ->.
    + intros (Hheld & _ & Hlast). done.
  - intros limits. rewrite map_lookup_filter_Some. simpl. by rewrite Z.ltb_ge.
Qed.

(** X11.  A sweep makes every earlier sweep redundant: sweeping at [now1]
    and then at a later [now2] leaves what the sweep at [now2] alone
    leaves. *)
Theorem cleanupOldConversations_subsumes :
  forall (now1 now2 : Z) (st : AIReply.State),
    (now1 <= now2)%Z ->
    AIReply.cleanupOldConversations now2 (AIReply.cleanupOldConversations now1 st)
    = AIReply.cleanupOldConversations now2 st.
Proof. intros now1 now2 st. apply cleanup_subsumes. Qed.

Lemma cleanupOldConversations_subsumes_witness :
  let st := AIReply.updateConversationHistory 1000 (js "919876543210") (js "hi") (js "hello")
              AIReply.English AIReply.initial in
  AIReply.cleanupOldConversations 90000000 (AIReply.cleanupOldConversations 5000 st)
  = AIReply.cleanupOldConversations 90000000 st.
Proof.
  intros st. apply (cleanupOldConversations_subsumes 5000 90000000 st). lia.
Defined.

(** ** Statistics *)

Section StatsFacts.

Import AIReply.

Lemma counted_countLanguage languageCounts entry :
  Inv.counted (countLanguage languageCounts entry) = S (Inv.counted languageCounts).
Proof.
  unfold Inv.counted, countLanguage.
  destruct (turnLanguage entry); repeat case_decide; try done; lia.
Qed.

Lemma counted_history history languageCounts :
  Inv.counted (foldl countLanguage languageCounts history)
  = (Inv.counted languageCounts + length history)%nat.
Proof.
  revert languageCounts. induction history as [|entry history IH]; intros languageCounts.
  - simpl. lia.
  - simpl. rewrite IH, counted_countLanguage. lia.
Qed.

(** The two loops of [getLanguageStats] count what the [reduce] of
    [getStats] counts. *)
Lemma counted_histories hs languageCounts sum :
  Inv.counted languageCounts = sum ->
  Inv.counted (foldl (fun languageCounts history => foldl countLanguage languageCounts history)
                     languageCounts hs)
  = foldl (fun sum history => (sum + length history)%nat) sum hs.
Proof.
  revert languageCounts sum.
  induction hs as [|history hs IH]; intros languageCounts sum Hsum; [done|].
  simpl. apply IH. rewrite counted_history. by rewrite Hsum.
Qed.

Lemma total_bounded hs sum :
  Forall (fun history : list Turn => (length history <= 10)%nat) hs ->
  (foldl (fun sum history => (sum + length history)%nat) sum hs <= sum + 10 * length hs)%nat.
Proof.
  intros Hall. revert sum. induction Hall as [|history hs Hh _ IH]; intros sum.
  - simpl. lia.
  - simpl. specialize (IH (sum + length history)%nat). lia.
Qed.

Lemma histories_bounded st :
  Spec.boundedAI st ->
  Forall (fun history : list Turn => (length history <= 10)%nat) (histories st).
Proof.
  intros Hb. unfold histories. apply Forall_fmap, Forall_forall.
  intros [contact history] Hin%elem_of_map_to_list. simpl. by apply (Hb contact).
Qed.

End StatsFacts.

(** X12.  The figures of [getStats] agree with each other: in every state
    the counts per language add up to [totalMessages]; and in every state
    that the operations of the class reach from the empty store,
    [totalMessages] is at most ten times [activeConversations]. *)
Theorem getStats_consistent :
  (forall st : AIReply.State,
      Inv.counted (AIReply.languages (AIReply.getStats st))
      = AIReply.totalMessages (AIReply.getStats st))
  /\ (forall ops : list AIReply.op,
         let stats := AIReply.getStats (AIReply.runAll ops AIReply.initial) in
         (AIReply.totalMessages stats <= 10 * AIReply.activeConversations stats)%nat).
Proof.
  split.
  - intros st. simpl. unfold AIReply.getLanguageStats. by apply counted_histories.
  - intros ops. simpl.
    pose proof (boundedAI_runAll ops _ boundedAI_initial) as Hb.
    pose proof (total_bounded _ 0%nat (histories_bounded _ Hb)) as Hle.
    unfold AIReply.histories in Hle at 2.
    rewrite length_fmap, length_map_to_list in Hle. done.
Qed.

(** ** Language detection, case by case *)

Section LanguageFacts.

Import AIReply.

(** [/^C*$/] matches exactly the strings made of code units of [C]. *)
Lemma star_eol p prev s :
  star p (fun pv s' => matches Eol pv s' (fun _ _ => true)) prev s = forallb p s.
Proof.
  revert prev. induction s as [|c s IH]; intros prev; [done|].
  simpl. rewrite IH. apply orb_false_r.
Qed.

Lemma search_english_later c s : search english (Some c) s = false.
Proof. revert c. induction s as [|x s IH]; intros c; [done|]. simpl. apply IH. Qed.

Lemma test_english s : test english s = forallb isEnglishChar s.
Proof.
  unfold test. rewrite search_unfold.
  assert (matchesAt english None s = forallb isEnglishChar s) as ->.
  { unfold matchesAt, english. cbn [matches]. apply star_eol. }
  destruct s as [|c s]; [apply orb_false_r|].
  rewrite search_english_later. apply orb_false_r.
Qed.

(** [(?=.*[q])] fails where no code unit of the class is left. *)
Lemma ahead_none q prev s k :
  existsb q s = false -> matches (Seq (Star isDot) (Cls q)) prev s k = false.
Proof.
  cbn [matches]. revert prev. induction s as [|c s IH]; intros prev Hq; [done|].
  simpl in Hq. apply orb_false_iff in Hq as [Hc Hs].
  simpl. rewrite (IH _ Hs), Hc. by rewrite andb_false_r.
Qed.

Lemma search_hinglish_none prev s :
  existsb isLatin s = false -> search hinglish prev s = false.
Proof.
  revert prev. induction s as [|c s IH]; intros prev Hs.
  - done.
  - rewrite search_unfold. simpl in Hs. apply orb_false_iff in Hs as [Hc Hs'].
    rewrite (IH _ Hs'). rewrite orb_false_r.
    unfold matchesAt, hinglish, ahead. cbn [matches].
    pose proof (ahead_none isLatin prev (c :: s) (fun _ _ => true)) as Hnone.
    cbn [matches] in Hnone. rewrite Hnone; [done|]. simpl. by rewrite Hc, Hs'.
Qed.

(** Without a Latin letter the [hinglish] pattern does not match. *)
Lemma test_hinglish_none s : existsb isLatin s = false -> test hinglish s = false.
Proof. apply search_hinglish_none. Qed.

(** The star may stop at once. *)
Lemma star_stop p k prev s : k prev s = true -> star p k prev s = true.
Proof. intros Hk. destruct s; simpl; rewrite Hk; [done|apply orb_true_r]. Qed.

(** A word under the [i] flag matches each of its case variants. *)
Lemma seqOf_chrI word w post prev k :
  upper <$> w = upper <$> word ->
  (forall pv, k pv post = true) ->
  matches (seqOf chrI word) prev (w ++ post) k = true.
Proof.
  intros Hw Hk. revert w prev Hw.
  induction word as [|c word IH]; intros w prev Hw.
  - destruct w; [|done]. simpl. apply Hk.
  - destruct w as [|x w]; [done|]. simpl in Hw. injection Hw as Hx Hw.
    simpl. rewrite Hx, N.eqb_refl. simpl. by apply IH.
Qed.

Lemma foldl_Alt rs r0 prev s k :
  matches r0 prev s k = true \/ (exists r, r ∈ rs /\ matches r prev s k = true) ->
  matches (foldl Alt r0 rs) prev s k = true.
Proof.
  revert r0. induction rs as [|r1 rs IH]; intros r0 H.
  - destruct H as [H|(r & Hin & _)]; [done|]. by apply elem_of_nil in Hin.
  - simpl. apply IH. destruct H as [H|(r & Hin & Hr)].
    + left. simpl. by rewrite H.
    + apply elem_of_cons in Hin as [->|Hin].
      * left. simpl. rewrite Hr. apply orb_true_r.
      * right. by exists r.
Qed.

Lemma anyOf_elem r rs prev s k :
  r ∈ rs -> matches r prev s k = true -> matches (anyOf rs) prev s k = true.
Proof.
  intros Hin Hr. destruct rs as [|r0 rs]; [by apply elem_of_nil in Hin|].
  simpl. apply foldl_Alt. apply elem_of_cons in Hin as [->|Hin]; [by left|].
  right. by exists r.
Qed.

(** A code unit that folds like an ASCII letter is one. *)
Lemma upper_latin x c : isLatin c = true -> upper x = upper c -> isLatin x = true.
Proof.
  unfold isLatin, upper, inRange. intros Hc Hx.
  repeat match type of Hx with
         | context [N.leb ?a ?b] => destruct (N.leb_spec a b)
         end; simpl in Hx;
  repeat match type of Hc with
         | context [N.leb ?a ?b] => destruct (N.leb_spec a b)
         end; simpl in Hc; try done;
  repeat match goal with
         | |- context [N.leb ?a ?b] => destruct (N.leb_spec a b)
         end; simpl; try done; lia.
Qed.

Lemma markerWords_latin m :
  m ∈ markerWords -> exists c rest, js m = c :: rest /\ isLatin c = true.
Proof.
  unfold markerWords. rewrite !elem_of_cons, elem_of_nil.
  intros H. repeat (destruct H as [->|H]; [by eexists _, _|]). done.
Qed.

(** At the start of a marker word, in any case, [hinglish] matches. *)
Lemma hinglish_marker m w post prev :
  m ∈ markerWords -> upper <$> w = upper <$> js m ->
  matchesAt hinglish prev (w ++ post) = true.
Proof.
  intros Hm Hw.
  assert (matchesAt (Seq (Star isDot) (Cls isLatin)) prev (w ++ post) = true) as H1.
  { unfold matchesAt. cbn [matches]. apply star_stop.
    destruct (markerWords_latin m Hm) as (c & rest & Hjs & Hc).
    rewrite Hjs in Hw. destruct w as [|x w]; [done|]. injection Hw as Hx _.
    simpl. by rewrite (upper_latin x c Hc Hx). }
  assert (matchesAt (Seq (Star isDot) (anyOf (litI <$> markerWords))) prev (w ++ post) = true)
    as H2.
  { unfold matchesAt. cbn [matches]. apply star_stop. apply (anyOf_elem (litI m)).
    - by apply list_elem_of_fmap_2.
    - by apply seqOf_chrI. }
  unfold matchesAt in *. unfold hinglish, ahead. cbn [matches] in *.
  rewrite H1, H2. apply orb_true_r.
Qed.

(** URLs start with the letter h. *)
Lemma stripUrls_plain text :
  forallb (fun c => negb (c =? 104)) text = true -> stripUrls false text = text.
Proof.
  induction text as [|c text IH]; [done|]. intros [Hc Htext]%andb_true_iff.
  apply negb_true_iff in Hc. cbn [stripUrls andb].
  assert (matchesAt urlRe None (c :: text) = false) as ->.
  { unfold matchesAt, urlRe, lit. change (js "http") with [104; 116; 116; 112].
    simpl. by rewrite Hc. }
  by rewrite IH.
Qed.

Lemma trimStart_spaces s : forallb isSpace s = true -> trimStart s = [].
Proof.
  induction s as [|c s IH]; [done|]. intros [Hc Hs]%andb_true_iff.
  simpl. rewrite Hc. by apply IH.
Qed.

Lemma cleanText_digits text :
  forallb (fun c => isDigit c || isSpace c) text = true -> cleanText text = [].
Proof.
  intros Htext. unfold cleanText. rewrite stripUrls_plain.
  - unfold trim. rewrite (trimStart_spaces (stripDigits text)); [done|].
    unfold stripDigits. apply forallb_forall. intros c Hin.
    apply list_elem_of_In, list_elem_of_filter in Hin as [Hd Hin].
    rewrite forallb_forall in Htext. apply list_elem_of_In, Htext in Hin.
    by rewrite Hd in Hin.
  - rewrite forallb_forall in *. intros c Hin. specialize (Htext c Hin).
    destruct (c =? 104) eqn:Hc; [|done]. apply N.eqb_eq in Hc. by subst c.
Qed.

(** The class of [english] is disjoint from the five script blocks. *)
Lemma english_no_script c :
  inRange 0x0600 0x0BFF c = true -> isEnglishChar c = false.
Proof.
  unfold inRange. intros [Hlo Hhi]%andb_true_iff.
  apply N.leb_le in Hlo. apply N.leb_le in Hhi.
  unfold isEnglishChar, isLatin, isSpace, inRange.
  repeat match goal with
         | |- context [N.leb ?a ?b] =>
           first [ replace (N.leb a b) with false by (symmetry; apply N.leb_gt; lia)
                 | replace (N.leb a b) with true by (symmetry; apply N.leb_le; lia) ]
         | |- context [N.eqb ?a ?b] =>
           replace (N.eqb a b) with false by (symmetry; apply N.eqb_neq; lia)
         end.
  reflexivity.
Qed.

Lemma english_excludes lo hi s :
  (0x0600 <= lo) -> (hi <= 0x0BFF) ->
  forallb isEnglishChar s = true -> existsb (inRange lo hi) s = false.
Proof.
  intros Hlo Hhi Hs. induction s as [|c s IH]; [done|].
  simpl in Hs. apply andb_true_iff in Hs as [Hc Hs]. simpl. rewrite (IH Hs).
  rewrite orb_false_r. destruct (inRange lo hi c) eqn:Hr; [|done].
  rewrite english_no_script in Hc; [done|].
  unfold inRange in *. apply andb_true_iff in Hr as [H1%N.leb_le H2%N.leb_le].
  apply andb_true_iff. split; apply N.leb_le; lia.
Qed.

End LanguageFacts.

(** X13.  A marker word of the [hinglish] pattern needs no word boundary
    and no Devanagari: a message whose cleaned text holds one of the sixteen
    markers anywhere, in any case, also inside a longer word, is classified
    hinglish. *)
Theorem detectLanguage_marker_word :
  forall (text pre w post : list N) (m : string),
    m ∈ AIReply.markerWords ->
    upper <$> w = upper <$> js m ->
    AIReply.cleanText text = pre ++ w ++ post ->
    AIReply.detectLanguage text = AIReply.Hinglish.
Proof.
  intros text pre w post m Hm Hw Hclean. apply detectLanguage_hinglish_first.
  rewrite Hclean. apply search_at. intros pv. by apply (hinglish_marker m).
Qed.

(** The word Please holds the marker se. *)
Lemma detectLanguage_marker_word_witness :
  AIReply.detectLanguage (js "Please call 5551234") = AIReply.Hinglish.
Proof.
  apply (detectLanguage_marker_word (js "Please call 5551234") (js "Plea") (js "se")
           (js " call") "se"%string).
  - unfold AIReply.markerWords. rewrite !elem_of_cons. tauto.
  - vm_compute. reflexivity.
  - vm_compute. reflexivity.
Defined.

(** X14.  A message made of digits and white space only (the empty message
    too) is classified english. *)
Theorem detectLanguage_digits_only :
  forall text : list N,
    forallb (fun c => isDigit c || isSpace c) text = true ->
    AIReply.detectLanguage text = AIReply.English.
Proof.
  intros text Htext. unfold AIReply.detectLanguage.
  rewrite (cleanText_digits text Htext). vm_compute. reflexivity.
Qed.

Lemma detectLanguage_digits_only_witness :
  AIReply.detectLanguage (js " 2024 12 25 ") = AIReply.English.
Proof.
  apply (detectLanguage_digits_only (js " 2024 12 25 ")). vm_compute. reflexivity.
Defined.

(** X15.  [detectLanguage] answers english exactly when the cleaned text is
    made of ASCII letters, white space and the punctuation of the [english]
    class and the [hinglish] pattern does not match it. *)
Theorem detectLanguage_english_iff :
  forall text : list N,
    AIReply.detectLanguage text = AIReply.English
    <-> test AIReply.hinglish (AIReply.cleanText text) = false
        /\ forallb AIReply.isEnglishChar (AIReply.cleanText text) = true.
Proof.
  intros text. unfold AIReply.detectLanguage. rewrite test_english.
  set (cleaned := AIReply.cleanText text). split.
  - destruct (test AIReply.hinglish cleaned); [done|].
    destruct (test AIReply.hindi cleaned); [done|].
    destruct (test AIReply.urdu cleaned); [done|].
    destruct (test AIReply.bengali cleaned); [done|].
    destruct (test AIReply.tamil cleaned); [done|].
    destruct (test AIReply.gujarati cleaned); [done|].
    by destruct (forallb AIReply.isEnglishChar cleaned).
  - intros [-> Henglish]. unfold AIReply.hindi, AIReply.urdu, AIReply.bengali,
      AIReply.tamil, AIReply.gujarati, AIReply.isDevanagari.
    rewrite !test_cls.
    rewrite !(english_excludes _ _ cleaned) by (done || lia).
    by rewrite Henglish.
Qed.

(** Without a Latin letter in the cleaned text the answer is the
    first script found in the order of the code (Devanagari, Arabic,
    Bengali, Tamil, Gujarati); with none of them it is english for white
    space and punctuation, and hinglish otherwise. *)
Lemma detectLanguage_without_latin :
  forall text : list N,
    existsb isLatin (AIReply.cleanText text) = false ->
    AIReply.detectLanguage text
    = let cleaned := AIReply.cleanText text in
      if existsb (inRange 0x0900 0x097F) cleaned then AIReply.Hindi
      else if existsb (inRange 0x0600 0x06FF) cleaned then AIReply.Urdu
      else if existsb (inRange 0x0980 0x09FF) cleaned then AIReply.Bengali
      else if existsb (inRange 0x0B80 0x0BFF) cleaned then AIReply.Tamil
      else if existsb (inRange 0x0A80 0x0AFF) cleaned then AIReply.Gujarati
      else if forallb AIReply.isEnglishChar cleaned then AIReply.English
      else AIReply.Hinglish.
Proof.
  intros text Hlatin. unfold AIReply.detectLanguage.
  rewrite (test_hinglish_none _ Hlatin), test_english.
  unfold AIReply.hindi, AIReply.urdu, AIReply.bengali, AIReply.tamil, AIReply.gujarati,
    AIReply.isDevanagari.
  by rewrite !test_cls.
Qed.

(** X16.  The three marker-word patterns of [GeminiAI.detectLanguage] never
    decide: the answer depends only on whether the text holds a Devanagari
    character and whether it holds an ASCII letter. *)
Theorem gemini_detectLanguage_by_script :
  forall text : list N,
    GeminiAI.detectLanguage text
    = match existsb (inRange 0x0900 0x097F) text, existsb isLatin text with
      | true, true => GeminiAI.Hinglish
      | true, false => GeminiAI.Hindi
      | false, true => GeminiAI.English
      | false, false => GeminiAI.Hinglish
      end.
Proof.
  intros text. unfold GeminiAI.detectLanguage. rewrite !test_cls.
  destruct (existsb (inRange 0x0900 0x097F) text), (existsb isLatin text); try done.
  by destruct (existsb (fun pattern => test pattern text) GeminiAI.hinglishPatterns).
Qed.

(** ** The histories and the limiter of [GeminiAI] *)

Section GeminiFacts.

Import GeminiAI.

Lemma exchanges_app history more :
  Inv.exchanges history = true -> Inv.exchanges (history ++ more) = Inv.exchanges more.
Proof.
  remember (length history) as n eqn:Hn. revert history Hn.
  induction (lt_wf n) as [n _ IH]. intros history -> Hh.
  destruct history as [|user [|bot history]]; [done|done|].
  simpl in Hh |- *. destruct (type user), (type bot); try done.
  apply (IH (length history)); [simpl; lia|done|done].
Qed.

Lemma exchanges_even history :
  Inv.exchanges history = true -> exists k, length history = (2 * k)%nat.
Proof.
  remember (length history) as n eqn:Hn. revert history Hn.
  induction (lt_wf n) as [n _ IH]. intros history -> Hh.
  destruct history as [|user [|bot history]]; [by exists 0%nat|done|].
  simpl in Hh. destruct (type user), (type bot); try done.
  destruct (IH (length history)) with (history := history) as [k Hk]; [simpl; lia|done|done|].
  exists (S k). simpl. lia.
Qed.

(** Dropping whole exchanges from the front leaves whole exchanges. *)
Lemma exchanges_drop k history :
  Inv.exchanges history = true -> Inv.exchanges (drop (2 * k) history) = true.
Proof.
  revert history. induction k as [|k IH]; intros history Hh; [by rewrite drop_0|].
  destruct history as [|user [|bot history]]; [done|done|].
  replace (2 * S k)%nat with (S (S (2 * k))) by lia. simpl drop.
  apply IH. simpl in Hh. by destruct (type user), (type bot).
Qed.

Lemma exchanges_lastTen history :
  Inv.exchanges history = true -> Inv.exchanges (lastTen history) = true.
Proof.
  intros Hh. unfold lastTen. destruct (exchanges_even _ Hh) as [k Hk].
  replace (length history - 10)%nat with (2 * (k - 5))%nat by lia.
  by apply exchanges_drop.
Qed.

Lemma wellFormed_stored st contactNumber :
  Inv.wellFormed st ->
  Inv.exchanges (getChatHistory contactNumber st) = true
  /\ (length (getChatHistory contactNumber st) <= 10)%nat.
Proof.
  intros Hwf. unfold getChatHistory.
  destruct (chatHistory st !! contactNumber) as [history|] eqn:Hh; simpl.
  - by destruct (Hwf _ _ Hh) as (? & _ & ?).
  - split; [done|lia].
Qed.

Lemma wellFormed_update tUser tBot contactNumber userMessage botReply st :
  Inv.wellFormed st ->
  Inv.wellFormed (updateChatHistory tUser tBot contactNumber userMessage botReply st).
Proof.
  intros Hwf contact history. unfold updateChatHistory. simpl.
  destruct (decide (contactNumber = contact)) as [->|Hne].
  - rewrite lookup_insert_eq. intros [= <-].
    destruct (wellFormed_stored st contact Hwf) as [Hex Hlen].
    set (stored := getChatHistory contact st) in *.
    assert (Inv.exchanges ((stored ++ [{| type := User; message := userMessage;
                                          timestamp := tUser |}])
                           ++ [{| type := Bot; message := botReply; timestamp := tBot |}])
            = true) as Hnew.
    { rewrite <- app_assoc. by rewrite exchanges_app. }
    destruct (10 <? _)%nat eqn:Hcmp.
    + split; [by apply exchanges_lastTen|]. split; [|apply lastTen_length].
      apply Nat.ltb_lt in Hcmp. unfold lastTen. intros Hnil.
      apply (f_equal length) in Hnil. rewrite length_drop in Hnil. simpl in Hnil. lia.
    + apply Nat.ltb_ge in Hcmp. split; [done|]. split; [|done].
      intros Hnil. apply (f_equal length) in Hnil. rewrite !length_app in Hnil.
      simpl in Hnil. lia.
  - rewrite lookup_insert_ne by done. apply Hwf.
Qed.

Lemma wellFormed_run o st : Inv.wellFormed st -> Inv.wellFormed (run o st).
Proof.
  intros Hwf. destruct o; simpl.
  - unfold generateReply, generateContent. run_body.
    destruct (negb _); [done|].
    destruct (completion w); [|done]. simpl.
    intros contact history. apply (wellFormed_update _ _ _ _ _ _ Hwf).
  - by apply wellFormed_update.
  - intros contact history. simpl.
    intros [_ H]%lookup_delete_Some. by apply (Hwf contact).
  - intros contact history. simpl.
    intros [H _]%map_lookup_filter_Some. by apply (Hwf contact).
Qed.

Lemma wellFormed_runAll ops st : Inv.wellFormed st -> Inv.wellFormed (runAll ops st).
Proof.
  revert st. induction ops as [|o ops IH]; intros st Hwf; simpl; [done|].
  by apply IH, wellFormed_run.
Qed.

Lemma wellFormed_initial : Inv.wellFormed initial.
Proof. intros contact history. simpl. by rewrite lookup_empty. Qed.

(** The comparison of [canReply], cleared of its quotient. *)
Lemma canReply_stored maxEnv now contactNumber st lastReply :
  lastReplyTime st !! contactNumber = Some lastReply ->
  lastReply <> 0%Z ->
  canReply maxEnv now contactNumber st
  = if (0 <? orDefault maxEnv 2)%Z
    then (60000 <? (now - lastReply) * orDefault maxEnv 2)%Z
    else ((now - lastReply) * orDefault maxEnv 2 <? 60000)%Z.
Proof.
  intros Hstored Hnz. unfold canReply. rewrite Hstored.
  rewrite (proj2 (Z.eqb_neq _ _) Hnz).
  assert (orDefault maxEnv 2 <> 0)%Z as Hmax.
  { unfold orDefault. destruct maxEnv as [n|]; [|done].
    destruct (Z.eqb_spec n 0); done. }
  set (gap := (now - lastReply)%Z). set (limit := orDefault maxEnv 2) in *.
  change (60 * 1000)%Z with 60000%Z.
  destruct limit as [|p|p]; [done| |].
  - change (0 <? Z.pos p)%Z with true. cbn match.
    destruct (Qle_bool _ _) eqn:Hq; simpl.
    + apply Qle_bool_iff in Hq. unfold Qle in Hq. simpl in Hq.
      symmetry. apply Z.ltb_ge. lia.
    + symmetry. apply Z.ltb_lt.
      destruct (Z_lt_le_dec 60000 (gap * Z.pos p)) as [|Hle]; [done|].
      assert (Qle_bool (inject_Z gap) (inject_Z 60000 / inject_Z (Z.pos p)) = true)
        as Hq'; [|congruence].
      apply Qle_bool_iff. unfold Qle. simpl. lia.
  - change (0 <? Z.neg p)%Z with false. cbn match.
    destruct (Qle_bool _ _) eqn:Hq; simpl.
    + apply Qle_bool_iff in Hq. unfold Qle in Hq. simpl in Hq.
      symmetry. apply Z.ltb_ge. lia.
    + symmetry. apply Z.ltb_lt.
      destruct (Z_lt_le_dec (gap * Z.neg p) 60000) as [|Hle]; [done|].
      assert (Qle_bool (inject_Z gap) (inject_Z 60000 / inject_Z (Z.neg p)) = true)
        as Hq'; [|congruence].
      apply Qle_bool_iff. unfold Qle. simpl. lia.
Qed.

Lemma stale_later now1 now2 history :
  (now1 <= now2)%Z -> stale now2 history = false -> stale now1 history = false.
Proof.
  intros Hle. unfold stale. destruct (last history); [|done].
  rewrite !Z.ltb_ge. lia.
Qed.

Lemma total_le_gemini hs total :
  Forall (fun history : list Message => (2 <= length history <= 10)%nat) hs ->
  (total + 2 * length hs
   <= foldl (fun total history => (total + length history)%nat) total hs
   <= total + 10 * length hs)%nat.
Proof.
  intros Hall. revert total. induction Hall as [|history hs Hh _ IH]; intros total.
  - simpl. lia.
  - simpl. specialize (IH (total + length history)%nat). lia.
Qed.

Lemma histories_wellFormed st :
  Inv.wellFormed st ->
  Forall (fun history : list Message => (2 <= length history <= 10)%nat) (histories st).
Proof.
  intros Hwf. unfold histories. apply Forall_fmap, Forall_forall.
  intros [contact history] Hin%elem_of_map_to_list. simpl.
  destruct (Hwf _ _ Hin) as (Hex & Hne & Hlen). split; [|done].
  destruct history as [|user [|bot history]]; [done|done|simpl; lia].
Qed.

End GeminiFacts.

(** X17.  In every state that the operations of [GeminiAI] reach from the
    empty store, each stored history is made of whole exchanges (a message of
    the user, then the reply of the bot), is not empty and holds at most ten
    entries: the cut to the last ten never splits an exchange. *)
Theorem gemini_histories_whole_exchanges :
  forall (ops : list GeminiAI.op) (contact : list N) (history : list GeminiAI.Message),
    GeminiAI.chatHistory (GeminiAI.runAll ops GeminiAI.initial) !! contact = Some history ->
    Inv.exchanges history = true /\ history <> [] /\ (length history <= 10)%nat.
Proof.
  intros ops contact history.
  apply (wellFormed_runAll ops _ wellFormed_initial).
Qed.

Lemma gemini_histories_whole_exchanges_witness :
  exists history,
    GeminiAI.chatHistory
      (GeminiAI.runAll [GeminiAI.OpUpdate 1 2 (js "a") (js "hi") (js "hello")]
                       GeminiAI.initial) !! js "a" = Some history
    /\ Inv.exchanges history = true /\ history <> [] /\ (length history <= 10)%nat.
Proof.
  eexists. split; [vm_compute; reflexivity|].
  apply (gemini_histories_whole_exchanges
           [GeminiAI.OpUpdate 1 2 (js "a") (js "hi") (js "hello")] (js "a")).
  vm_compute. reflexivity.
Defined.

(** X18.  The limiter of [GeminiAI] in integers.  A contact without a
    recorded reply (or with the instant 0 recorded) is always answered.
    Otherwise, with [max] the configured messages per minute (2 when unset,
    unreadable or 0): for a positive [max] the contact is answered when the
    time since the recorded reply, times [max], exceeds one minute; for a
    negative [max] the comparison is reversed, so that the limiter lets
    every attempt through unless the clock has gone back. *)
Theorem canReply_in_integers :
  forall (maxEnv : option Z) (now : Z) (contactNumber : list N) (st : GeminiAI.State),
    GeminiAI.canReply maxEnv now contactNumber st
    = match GeminiAI.lastReplyTime st !! contactNumber with
      | None => true
      | Some lastReply =>
        (lastReply =? 0)%Z
        || (if (0 <? orDefault maxEnv 2)%Z
            then (60000 <? (now - lastReply) * orDefault maxEnv 2)%Z
            else ((now - lastReply) * orDefault maxEnv 2 <? 60000)%Z)
      end.
Proof.
  intros maxEnv now contactNumber st.
  destruct (GeminiAI.lastReplyTime st !! contactNumber) as [lastReply|] eqn:Hstored.
  - destruct (Z.eqb_spec lastReply 0) as [->|Hnz].
    + unfold GeminiAI.canReply. by rewrite Hstored.
    + by rewrite (canReply_stored _ _ _ _ _ Hstored Hnz).
  - unfold GeminiAI.canReply. by rewrite Hstored.
Qed.

(** X19.  After a reply has been generated for a contact, a further attempt
    for the same contact within the gap (one minute divided by the
    configured positive rate) is answered [null] and changes nothing. *)
Theorem gemini_generateReply_then_limited :
  forall (w1 w2 : GeminiAI.World) (text messageText1 messageText2 contactNumber : list N)
         (st : GeminiAI.State),
    GeminiAI.canReply (GeminiAI.maxEnv w1) (GeminiAI.nowCheck w1) contactNumber st = true ->
    GeminiAI.completion w1 = Some text ->
    GeminiAI.nowReply w1 <> 0%Z ->
    (0 < orDefault (GeminiAI.maxEnv w2) 2)%Z ->
    ((GeminiAI.nowCheck w2 - GeminiAI.nowReply w1) * orDefault (GeminiAI.maxEnv w2) 2
     <= 60000)%Z ->
    exists st1,
      GeminiAI.generateReply w1 messageText1 contactNumber st = (Returned (Some (trim text)), st1)
      /\ GeminiAI.generateReply w2 messageText2 contactNumber st1 = (Returned None, st1).
Proof.
  intros w1 w2 text messageText1 messageText2 contactNumber st Hcan Htext Hnz Hmax Hgap.
  eexists. split; [by apply generateReply_answered|].
  apply generateReply_limited.
  erewrite canReply_stored; [|simpl; apply lookup_insert_eq|done].
  apply Z.ltb_lt in Hmax. rewrite Hmax. by apply Z.ltb_ge.
Qed.

Lemma gemini_generateReply_then_limited_witness :
  let w1 := {| GeminiAI.maxEnv := None; GeminiAI.nowCheck := 1000; GeminiAI.completion := Some (js " Hello! ");
               GeminiAI.nowUser := 1500; GeminiAI.nowBot := 1500; GeminiAI.nowReply := 1501;
               GeminiAI.random := 0 |} in
  let w2 := {| GeminiAI.maxEnv := None; GeminiAI.nowCheck := 20000; GeminiAI.completion := Some (js "Again");
               GeminiAI.nowUser := 20500; GeminiAI.nowBot := 20500; GeminiAI.nowReply := 20501;
               GeminiAI.random := 0 |} in
  exists st1,
    GeminiAI.generateReply w1 (js "hi") (js "919876543210") GeminiAI.initial
    = (Returned (Some (trim (js " Hello! "))), st1)
    /\ GeminiAI.generateReply w2 (js "hi again") (js "919876543210") st1 = (Returned None, st1).
Proof.
  intros w1 w2.
  apply (gemini_generateReply_then_limited w1 w2 (js " Hello! ") (js "hi") (js "hi again")
           (js "919876543210") GeminiAI.initial).
  - reflexivity.
  - reflexivity.
  - simpl. lia.
  - simpl. lia.
  - simpl. lia.
Defined.

(** A sweep of [GeminiAI.cleanup] makes every earlier one redundant,
    and no sweep touches the recorded reply times. *)
Lemma gemini_cleanup_subsumes :
  forall (now1 now2 : Z) (st : GeminiAI.State),
    (now1 <= now2)%Z ->
    GeminiAI.cleanup now2 (GeminiAI.cleanup now1 st) = GeminiAI.cleanup now2 st
    /\ GeminiAI.lastReplyTime (GeminiAI.cleanup now2 (GeminiAI.cleanup now1 st))
       = GeminiAI.lastReplyTime st.
Proof.
  intros now1 now2 st Hle. split; [|done].
  unfold GeminiAI.cleanup. simpl. f_equal.
  rewrite map_filter_filter. apply map_filter_ext. intros contact history _. simpl.
  split; [by intros [? _]|]. intros H. split; [done|]. by apply (stale_later now1 now2).
Qed.

(** X20.  The figures of [GeminiAI.getStats] in a state reached from the
    empty store: between two and ten messages per chat, and no more active
    chats than chats. *)
Theorem gemini_getStats_consistent :
  forall (ops : list GeminiAI.op) (now : Z),
    let stats := GeminiAI.getStats now (GeminiAI.runAll ops GeminiAI.initial) in
    (2 * GeminiAI.totalChats stats <= GeminiAI.totalMessages stats
     <= 10 * GeminiAI.totalChats stats)%nat
    /\ (GeminiAI.activeChats stats <= GeminiAI.totalChats stats)%nat.
Proof.
  intros ops now. simpl.
  pose proof (wellFormed_runAll ops _ wellFormed_initial) as Hwf.
  pose proof (total_le_gemini _ 0%nat (histories_wellFormed _ Hwf)) as Hle.
  assert (length (GeminiAI.histories (GeminiAI.runAll ops GeminiAI.initial))
          = size (GeminiAI.chatHistory (GeminiAI.runAll ops GeminiAI.initial))) as Hsize.
  { unfold GeminiAI.histories. by rewrite length_fmap, length_map_to_list. }
  rewrite Hsize in Hle. split; [lia|].
  rewrite <- Hsize. apply length_filter.
Qed.

(** ** The pipeline, message by message *)

Section PipelineAccounting.

Import SessionManager.

(** The effects logged in front of [old]. *)
Ltac added l old :=
  match l with
  | old => constr:(@nil effect)
  | ?e :: ?l' => let p := added l' old in constr:(e :: p)
  end.

(** Every run of [handleIncomingMessage] returns; it adds effects in front
    of the log and leaves the lifecycle fields alone. *)
Lemma handleIncomingMessage_effects w message st :
  exists st' new,
    handleIncomingMessage w message st = (Returned tt, st')
    /\ effects st' = new ++ effects st
    /\ (length (filter (fun e => Inv.sent e = true) new) <= 1)%nat
    /\ (length (filter (fun e => Inv.reported e = true) new)
        <= length (filter (fun e => Inv.sent e = true) new))%nat
    /\ messageCount st'
       = (messageCount st + Z.of_nat (length (filter (fun e => Inv.reported e = true) new)))%Z
    /\ client st' = client st /\ isReady st' = isReady st
    /\ qrRetries st' = qrRetries st /\ timers st' = timers st
    /\ created st' = created st.
Proof.
  unfold handleIncomingMessage, sendReplyWithTyping, askGemini. run_body.
  destruct (negb (isReady st) || fromMe message);
    [exists st, []; repeat split; simpl; lia|].
  destruct (includes (from message) (js "@g.us"));
    [exists st, []; repeat split; simpl; lia|].
  destruct (timestamp message * 1000 <? now w - 5 * 60 * 1000)%Z;
    [exists st, []; repeat split; simpl; lia|].
  destruct (contact w) as [c|].
  2: { destruct (apologyOk w); eexists; [exists [MessageReply (from message) apology]|exists []];
       repeat split; simpl; lia. }
  destruct (trim (body message)) as [|x text];
    [exists st, []; repeat split; simpl; lia|].
  destruct (GeminiAI.generateReply _ _ _ _) as [[reply|e] g].
  2: { destruct (apologyOk w); eexists; [exists [MessageReply (from message) apology]|exists []];
       repeat split; simpl; lia. }
  destruct reply as [[|y reply]|]; [eexists; exists []; repeat split; simpl; lia| |
                                    eexists; exists []; repeat split; simpl; lia].
  set (delay := typingDelay _ _ _ _).
  destruct (getChatOk w), (typingOk w), (clearOk w), (replyOk w), (apologyOk w);
    simpl;
    lazymatch goal with
    | |- ex (fun st' => ex (fun new => (Returned tt, ?s) = _ /\ _)) =>
      let l := eval simpl in (effects s) in
      let p := added l (effects st) in
      exists s, p
    end;
    repeat split; simpl; lia.
Qed.

(** The messages that are dropped or left unanswered leave no trace but
    the contact in the set of active chats. *)
Lemma handleIncomingMessage_silent w message st :
  isReady st = false \/ fromMe message = true
  \/ (timestamp message * 1000 < now w - 5 * 60 * 1000)%Z
  \/ (exists c, contact w = Some c
                /\ (trim (body message) = []
                    \/ GeminiAI.canReply (GeminiAI.maxEnv (ai w)) (GeminiAI.nowCheck (ai w))
                                         (number c) (geminiAI st) = false)) ->
  exists st',
    handleIncomingMessage w message st = (Returned tt, st')
    /\ effects st' = effects st
    /\ messageCount st' = messageCount st
    /\ geminiAI st' = geminiAI st.
Proof.
  intros Hcase. unfold handleIncomingMessage, askGemini. run_body.
  destruct (isReady st) eqn:Hready; [|by exists st].
  destruct (fromMe message) eqn:Hme; [by exists st|]. cbn [negb orb].
  destruct (includes (from message) (js "@g.us")); [by exists st|].
  destruct (Z.ltb_spec (timestamp message * 1000) (now w - 5 * 60 * 1000)) as [Hold|Hnew];
    [by exists st|].
  destruct Hcase as [?|[?|[?|(c & Hc & Hcase)]]]; [done|done|lia|].
  rewrite Hc. destruct (trim (body message)) as [|x text] eqn:Htext; [by exists st|].
  destruct Hcase as [?|Hlimited]; [done|].
  rewrite generateReply_limited by done. eexists. by repeat split.
Qed.

(** A completion of white space only: the exchange is stored with an empty
    reply and the reply time is recorded, yet nothing is sent. *)
Lemma handleIncomingMessage_blank w message st c text x messageText :
  isReady st = true -> fromMe message = false ->
  includes (from message) (js "@g.us") = false ->
  (now w - 5 * 60 * 1000 <= timestamp message * 1000)%Z ->
  contact w = Some c ->
  trim (body message) = x :: messageText ->
  GeminiAI.canReply (GeminiAI.maxEnv (ai w)) (GeminiAI.nowCheck (ai w))
                    (number c) (geminiAI st) = true ->
  GeminiAI.completion (ai w) = Some text ->
  trim text = [] ->
  exists st',
    handleIncomingMessage w message st = (Returned tt, st')
    /\ effects st' = effects st
    /\ messageCount st' = messageCount st
    /\ GeminiAI.lastReplyTime (geminiAI st') !! number c = Some (GeminiAI.nowReply (ai w))
    /\ last (GeminiAI.getChatHistory (number c) (geminiAI st'))
       = Some {| GeminiAI.type := GeminiAI.Bot; GeminiAI.message := [];
                 GeminiAI.timestamp := GeminiAI.nowBot (ai w) |}.
Proof.
  intros Hready Hme Hgroup Hnew Hc Hbody Hcan Htext Hblank.
  unfold handleIncomingMessage, askGemini. run_body.
  rewrite Hready, Hme, Hgroup. cbn [negb orb].
  rewrite (proj2 (Z.ltb_ge _ _) Hnew), Hc, Hbody.
  rewrite (generateReply_answered _ _ _ _ text) by done. rewrite Hblank.
  eexists. split; [done|]. simpl. split; [done|]. split; [done|].
  split; [apply lookup_insert_eq|].
  unfold GeminiAI.getChatHistory. simpl. rewrite lookup_insert_eq. simpl.
  destruct (10 <? _)%nat eqn:Hcmp; [|apply last_snoc].
  unfold GeminiAI.lastTen. apply Nat.ltb_lt in Hcmp.
  rewrite drop_app_le; [apply last_snoc|].
  rewrite !length_app in *. simpl in *. lia.
Qed.

End PipelineAccounting.

(** X21.  One inbound message, whatever happens outside: the handler
    returns; it puts at most one message into the chat (the reply or the
    apology, never both); the count of sent messages goes up by one exactly
    when the reply is reported to the front end, which happens only after
    the reply has been delivered; and client, readiness, QR counter and
    timers are as before. *)
Theorem handleIncomingMessage_accounting :
  forall (w : SessionManager.World) (message : SessionManager.Message)
         (st : SessionManager.State),
    exists st' new,
      SessionManager.handleIncomingMessage w message st = (Returned tt, st')
      /\ SessionManager.effects st' = new ++ SessionManager.effects st
      /\ (length (filter (fun e => Inv.sent e = true) new) <= 1)%nat
      /\ (length (filter (fun e => Inv.reported e = true) new)
          <= length (filter (fun e => Inv.sent e = true) new))%nat
      /\ SessionManager.messageCount st'
         = (SessionManager.messageCount st
            + Z.of_nat (length (filter (fun e => Inv.reported e = true) new)))%Z
      /\ SessionManager.client st' = SessionManager.client st
      /\ SessionManager.isReady st' = SessionManager.isReady st
      /\ SessionManager.qrRetries st' = SessionManager.qrRetries st
      /\ SessionManager.timers st' = SessionManager.timers st
      /\ SessionManager.created st' = SessionManager.created st.
Proof. intros w message st. apply handleIncomingMessage_effects. Qed.

(** X22.  Messages that get no answer and no apology: one that reaches a
    session that is not ready, one of the account itself, one older than
    five minutes, and, when the contact can be looked up, one whose body is
    empty after trimming or whose contact is inside the rate-limit gap.
    Nothing is sent, nothing counted, nothing stored by the reply engine. *)
Theorem unanswered_messages_leave_no_trace :
  forall (w : SessionManager.World) (message : SessionManager.Message)
         (st : SessionManager.State),
    SessionManager.isReady st = false \/ SessionManager.fromMe message = true
    \/ (SessionManager.timestamp message * 1000 < SessionManager.now w - 5 * 60 * 1000)%Z
    \/ (exists c, SessionManager.contact w = Some c
                  /\ (trim (SessionManager.body message) = []
                      \/ GeminiAI.canReply (GeminiAI.maxEnv (SessionManager.ai w))
                                           (GeminiAI.nowCheck (SessionManager.ai w))
                                           (SessionManager.number c)
                                           (SessionManager.geminiAI st) = false)) ->
    exists st',
      SessionManager.handleIncomingMessage w message st = (Returned tt, st')
      /\ SessionManager.effects st' = SessionManager.effects st
      /\ SessionManager.messageCount st' = SessionManager.messageCount st
      /\ SessionManager.geminiAI st' = SessionManager.geminiAI st.
Proof. intros w message st. apply handleIncomingMessage_silent. Qed.

Section PipelineSequence.

Import SessionManager.

(** A message that goes all the way: what the handler returns and leaves. *)
Lemma handleIncomingMessage_delivered w message st c x messageText text y reply :
  isReady st = true -> fromMe message = false ->
  includes (from message) (js "@g.us") = false ->
  (now w - 5 * 60 * 1000 <= timestamp message * 1000)%Z ->
  contact w = Some c ->
  trim (body message) = x :: messageText ->
  GeminiAI.canReply (GeminiAI.maxEnv (ai w)) (GeminiAI.nowCheck (ai w))
                    (number c) (geminiAI st) = true ->
  GeminiAI.completion (ai w) = Some text ->
  trim text = y :: reply ->
  getChatOk w = true -> typingOk w = true -> clearOk w = true -> replyOk w = true ->
  exists st',
    handleIncomingMessage w message st = (Returned tt, st')
    /\ isReady st' = true
    /\ messageCount st' = (messageCount st + 1)%Z
    /\ (exists new, effects st' = new ++ effects st
                    /\ filter (fun e => Inv.sent e = true) new
                       = [MessageReply (from message) (y :: reply)])
    /\ GeminiAI.lastReplyTime (geminiAI st') !! number c = Some (GeminiAI.nowReply (ai w)).
Proof.
  intros Hready Hme Hgroup Hnew Hc Hbody Hcan Htext Hreply Hchat Htyping Hclear Hsend.
  unfold handleIncomingMessage, sendReplyWithTyping, askGemini. run_body.
  rewrite Hready, Hme, Hgroup. cbn [negb orb].
  rewrite (proj2 (Z.ltb_ge _ _) Hnew), Hc, Hbody.
  rewrite (generateReply_answered _ _ _ _ text) by done. rewrite Hreply.
  rewrite Hchat, Htyping, Hclear, Hsend.
  set (delay := typingDelay _ _ _ _). simpl.
  eexists. split; [done|]. simpl. split; [done|]. split; [done|].
  split; [|apply lookup_insert_eq].
  eexists [_; _; _; _; _]. split; [reflexivity|]. reflexivity.
Qed.

End PipelineSequence.

(** X23.  A completion that is white space only is still stored as an
    exchange, with an empty reply, and its instant is recorded for the rate
    limit; nothing is sent to the chat and nothing is counted. *)
Theorem blank_completion_recorded_unsent :
  forall (w : SessionManager.World) (message : SessionManager.Message)
         (st : SessionManager.State) (c : SessionManager.Contact)
         (text messageText : list N) (x : N),
    SessionManager.isReady st = true ->
    SessionManager.fromMe message = false ->
    includes (SessionManager.from message) (js "@g.us") = false ->
    (SessionManager.now w - 5 * 60 * 1000 <= SessionManager.timestamp message * 1000)%Z ->
    SessionManager.contact w = Some c ->
    trim (SessionManager.body message) = x :: messageText ->
    GeminiAI.canReply (GeminiAI.maxEnv (SessionManager.ai w))
                      (GeminiAI.nowCheck (SessionManager.ai w))
                      (SessionManager.number c) (SessionManager.geminiAI st) = true ->
    GeminiAI.completion (SessionManager.ai w) = Some text ->
    trim text = [] ->
    exists st',
      SessionManager.handleIncomingMessage w message st = (Returned tt, st')
      /\ SessionManager.effects st' = SessionManager.effects st
      /\ SessionManager.messageCount st' = SessionManager.messageCount st
      /\ GeminiAI.lastReplyTime (SessionManager.geminiAI st') !! SessionManager.number c
         = Some (GeminiAI.nowReply (SessionManager.ai w))
      /\ last (GeminiAI.getChatHistory (SessionManager.number c) (SessionManager.geminiAI st'))
         = Some {| GeminiAI.type := GeminiAI.Bot; GeminiAI.message := [];
                   GeminiAI.timestamp := GeminiAI.nowBot (SessionManager.ai w) |}.
Proof.
  intros w message st c text messageText x. apply handleIncomingMessage_blank.
Qed.

(** X24.  Two messages of one contact, handled one after the other: when
    the first is answered and the second is handled within the gap of the
    limiter (one minute divided by the positive configured rate, counted
    from the instant recorded after the first reply), the second gets no
    answer: no effect, no count, no change of the reply engine. *)
Theorem second_message_within_gap_unanswered :
  forall (w1 w2 : SessionManager.World) (message1 message2 : SessionManager.Message)
         (st : SessionManager.State) (c : SessionManager.Contact)
         (text messageText reply : list N) (x y : N),
    SessionManager.isReady st = true ->
    SessionManager.fromMe message1 = false ->
    includes (SessionManager.from message1) (js "@g.us") = false ->
    (SessionManager.now w1 - 5 * 60 * 1000 <= SessionManager.timestamp message1 * 1000)%Z ->
    SessionManager.contact w1 = Some c ->
    trim (SessionManager.body message1) = x :: messageText ->
    GeminiAI.canReply (GeminiAI.maxEnv (SessionManager.ai w1))
                      (GeminiAI.nowCheck (SessionManager.ai w1))
                      (SessionManager.number c) (SessionManager.geminiAI st) = true ->
    GeminiAI.completion (SessionManager.ai w1) = Some text ->
    trim text = y :: reply ->
    SessionManager.getChatOk w1 = true -> SessionManager.typingOk w1 = true ->
    SessionManager.clearOk w1 = true -> SessionManager.replyOk w1 = true ->
    GeminiAI.nowReply (SessionManager.ai w1) <> 0%Z ->
    SessionManager.contact w2 = Some c ->
    (0 < orDefault (GeminiAI.maxEnv (SessionManager.ai w2)) 2)%Z ->
    ((GeminiAI.nowCheck (SessionManager.ai w2) - GeminiAI.nowReply (SessionManager.ai w1))
     * orDefault (GeminiAI.maxEnv (SessionManager.ai w2)) 2 <= 60000)%Z ->
    exists st1 st2,
      SessionManager.handleIncomingMessage w1 message1 st = (Returned tt, st1)
      /\ SessionManager.messageCount st1 = (SessionManager.messageCount st + 1)%Z
      /\ SessionManager.handleIncomingMessage w2 message2 st1 = (Returned tt, st2)
      /\ SessionManager.effects st2 = SessionManager.effects st1
      /\ SessionManager.messageCount st2 = SessionManager.messageCount st1
      /\ SessionManager.geminiAI st2 = SessionManager.geminiAI st1.
Proof.
  intros w1 w2 message1 message2 st c text messageText reply x y
         Hready Hme Hgroup Hnew Hc Hbody Hcan Htext Hreply Hchat Htyping Hclear Hsend
         Hnz Hc2 Hmax Hgap.
  destruct (handleIncomingMessage_delivered w1 message1 st c x messageText text y reply)
    as (st1 & Hrun1 & _ & Hcount & _ & Hlast); try done.
  destruct (handleIncomingMessage_silent w2 message2 st1) as (st2 & Hrun2 & Hrest).
  { right. right. right. exists c. split; [done|]. right.
    rewrite (canReply_stored _ _ _ _ _ Hlast Hnz).
    apply Z.ltb_lt in Hmax. rewrite Hmax. by apply Z.ltb_ge. }
  by exists st1, st2.
Qed.

(** A message that has waited for more than five minutes. *)
Lemma unanswered_messages_leave_no_trace_witness :
  let st := SessionManager.runAll
              [SessionManager.Start true; SessionManager.Authenticated;
               SessionManager.Ready true] SessionManager.initial in
  let w := {| SessionManager.now := 1700000400000;
              SessionManager.contact := None;
              SessionManager.ai :=
                {| GeminiAI.maxEnv := None; GeminiAI.nowCheck := 1700000400001;
                   GeminiAI.completion := Some (js "Hi!");
                   GeminiAI.nowUser := 1700000400900; GeminiAI.nowBot := 1700000400901;
                   GeminiAI.nowReply := 1700000400902; GeminiAI.random := 0 |};
              SessionManager.typingDelayMinEnv := None;
              SessionManager.typingDelayMaxEnv := None;
              SessionManager.typingRandom := 1 # 4;
              SessionManager.getChatOk := true; SessionManager.typingOk := true;
              SessionManager.clearOk := true; SessionManager.replyOk := true;
              SessionManager.apologyOk := true |} in
  let message := {| SessionManager.from := js "919876543210@c.us";
                    SessionManager.fromMe := false;
                    SessionManager.body := js "hello";
                    SessionManager.timestamp := 1700000000 |} in
  exists st',
    SessionManager.handleIncomingMessage w message st = (Returned tt, st')
    /\ SessionManager.effects st' = SessionManager.effects st
    /\ SessionManager.messageCount st' = SessionManager.messageCount st
    /\ SessionManager.geminiAI st' = SessionManager.geminiAI st.
Proof.
  intros st w message. apply (unanswered_messages_leave_no_trace w message st).
  right. right. left. vm_compute. reflexivity.
Defined.

(** The remote model answers with three blanks. *)
Lemma blank_completion_recorded_unsent_witness :
  let st := SessionManager.runAll
              [SessionManager.Start true; SessionManager.Authenticated;
               SessionManager.Ready true] SessionManager.initial in
  let c := {| SessionManager.name := []; SessionManager.pushname := js "Asha";
              SessionManager.number := js "919876543210" |} in
  let w := {| SessionManager.now := 1700000000000;
              SessionManager.contact := Some c;
              SessionManager.ai :=
                {| GeminiAI.maxEnv := None; GeminiAI.nowCheck := 1700000000001;
                   GeminiAI.completion := Some (js "   ");
                   GeminiAI.nowUser := 1700000000900; GeminiAI.nowBot := 1700000000901;
                   GeminiAI.nowReply := 1700000000902; GeminiAI.random := 0 |};
              SessionManager.typingDelayMinEnv := None;
              SessionManager.typingDelayMaxEnv := None;
              SessionManager.typingRandom := 1 # 4;
              SessionManager.getChatOk := true; SessionManager.typingOk := true;
              SessionManager.clearOk := true; SessionManager.replyOk := true;
              SessionManager.apologyOk := true |} in
  let message := {| SessionManager.from := js "919876543210@c.us";
                    SessionManager.fromMe := false;
                    SessionManager.body := js " hello ";
                    SessionManager.timestamp := 1699999999 |} in
  exists st',
    SessionManager.handleIncomingMessage w message st = (Returned tt, st')
    /\ SessionManager.effects st' = SessionManager.effects st
    /\ SessionManager.messageCount st' = SessionManager.messageCount st
    /\ GeminiAI.lastReplyTime (SessionManager.geminiAI st') !! SessionManager.number c
       = Some (GeminiAI.nowReply (SessionManager.ai w))
    /\ last (GeminiAI.getChatHistory (SessionManager.number c) (SessionManager.geminiAI st'))
       = Some {| GeminiAI.type := GeminiAI.Bot; GeminiAI.message := [];
                 GeminiAI.timestamp := GeminiAI.nowBot (SessionManager.ai w) |}.
Proof.
  intros st c w message.
  apply (blank_completion_recorded_unsent w message st c (js "   ") (js "ello") 104).
  - reflexivity.
  - reflexivity.
  - vm_compute. reflexivity.
  - vm_compute. discriminate.
  - reflexivity.
  - vm_compute. reflexivity.
  - vm_compute. reflexivity.
  - reflexivity.
  - vm_compute. reflexivity.
Defined.

(** A second message twenty seconds after a reply. *)
Lemma second_message_within_gap_unanswered_witness :
  let st := SessionManager.runAll
              [SessionManager.Start true; SessionManager.Authenticated;
               SessionManager.Ready true] SessionManager.initial in
  let c := {| SessionManager.name := []; SessionManager.pushname := js "Asha";
              SessionManager.number := js "919876543210" |} in
  let w1 := {| SessionManager.now := 1700000000000;
               SessionManager.contact := Some c;
               SessionManager.ai :=
                 {| GeminiAI.maxEnv := None; GeminiAI.nowCheck := 1700000000001;
                    GeminiAI.completion := Some (js " Hi Asha! ");
                    GeminiAI.nowUser := 1700000000900; GeminiAI.nowBot := 1700000000901;
                    GeminiAI.nowReply := 1700000000902; GeminiAI.random := 0 |};
               SessionManager.typingDelayMinEnv := None;
               SessionManager.typingDelayMaxEnv := None;
               SessionManager.typingRandom := 1 # 4;
               SessionManager.getChatOk := true; SessionManager.typingOk := true;
               SessionManager.clearOk := true; SessionManager.replyOk := true;
               SessionManager.apologyOk := true |} in
  let w2 := {| SessionManager.now := 1700000020000;
               SessionManager.contact := Some c;
               SessionManager.ai :=
                 {| GeminiAI.maxEnv := None; GeminiAI.nowCheck := 1700000020001;
                    GeminiAI.completion := Some (js "Again!");
                    GeminiAI.nowUser := 1700000020900; GeminiAI.nowBot := 1700000020901;
                    GeminiAI.nowReply := 1700000020902; GeminiAI.random := 0 |};
               SessionManager.typingDelayMinEnv := None;
               SessionManager.typingDelayMaxEnv := None;
               SessionManager.typingRandom := 1 # 4;
               SessionManager.getChatOk := true; SessionManager.typingOk := true;
               SessionManager.clearOk := true; SessionManager.replyOk := true;
               SessionManager.apologyOk := true |} in
  let message1 := {| SessionManager.from := js "919876543210@c.us";
                     SessionManager.fromMe := false;
                     SessionManager.body := js " hello ";
                     SessionManager.timestamp := 1699999999 |} in
  let message2 := {| SessionManager.from := js "919876543210@c.us";
                     SessionManager.fromMe := false;
                     SessionManager.body := js "are you there?";
                     SessionManager.timestamp := 1700000019 |} in
  exists st1 st2,
    SessionManager.handleIncomingMessage w1 message1 st = (Returned tt, st1)
    /\ SessionManager.messageCount st1 = (SessionManager.messageCount st + 1)%Z
    /\ SessionManager.handleIncomingMessage w2 message2 st1 = (Returned tt, st2)
    /\ SessionManager.effects st2 = SessionManager.effects st1
    /\ SessionManager.messageCount st2 = SessionManager.messageCount st1
    /\ SessionManager.geminiAI st2 = SessionManager.geminiAI st1.
Proof.
  intros st c w1 w2 message1 message2.
  apply (second_message_within_gap_unanswered w1 w2 message1 message2 st c
           (js " Hi Asha! ") (js "ello") (js "i Asha!") 104 72).
  - reflexivity.
  - reflexivity.
  - vm_compute. reflexivity.
  - vm_compute. discriminate.
  - reflexivity.
  - vm_compute. reflexivity.
  - vm_compute. reflexivity.
  - reflexivity.
  - vm_compute. reflexivity.
  - reflexivity.
  - reflexivity.
  - reflexivity.
  - reflexivity.
  - vm_compute. discriminate.
  - reflexivity.
  - vm_compute. reflexivity.
  - vm_compute. discriminate.
Defined.

(** ** The lifecycle of the session *)

Section LifecycleMore.

Import SessionManager.

(** What every run of [initializeClient] leaves, whether or not the adapter
    comes up. *)
Lemma initializeClient_effect initOk st :
  exists o st',
    initializeClient initOk st = (o, st')
    /\ client st' = Some (created st) /\ created st' = S (created st)
    /\ isReady st' = isReady st /\ qrRetries st' = qrRetries st
    /\ messageCount st' = messageCount st /\ timers st' = timers st
    /\ activeChats st' = activeChats st /\ geminiAI st' = geminiAI st.
Proof.
  unfold initializeClient. run_body. destruct initOk; simpl; eexists _, _; by repeat split.
Qed.

Lemma restartClient_effect destroyOk initOk st :
  exists st',
    restartClient destroyOk initOk st = (Returned tt, st')
    /\ timers st' = timers st /\ messageCount st' = messageCount st
    /\ activeChats st' = activeChats st /\ geminiAI st' = geminiAI st
    /\ if match client st with Some _ => destroyOk | None => true end
       then client st' = Some (created st) /\ created st' = S (created st)
            /\ isReady st' = false /\ qrRetries st' = 0%Z
       else st' = log (Emit "error" (js "Failed to restart client")) st.
Proof.
  unfold restartClient, initializeClient. run_body.
  destruct (client st) as [c|]; [destruct destroyOk|]; destruct initOk; simpl;
    eexists; by repeat split.
Qed.

Lemma onQr_effect qrOk destroyOk initOk qr st :
  exists st',
    onQr qrOk destroyOk initOk qr st = (Returned tt, st')
    /\ messageCount st' = messageCount st /\ timers st' = timers st
    /\ qrRetries st'
       = (if qrOk
          then if (maxQrRetries <? qrRetries st + 1)%Z
                  && match client st with Some _ => destroyOk | None => true end
               then 0 else qrRetries st + 1
          else qrRetries st)%Z
    /\ (if qrOk && (maxQrRetries <? qrRetries st + 1)%Z
           && match client st with Some _ => destroyOk | None => true end
        then client st' = Some (created st) /\ created st' = S (created st)
             /\ isReady st' = false
        else client st' = client st /\ created st' = created st
             /\ isReady st' = isReady st).
Proof.
  unfold onQr, restartClient, initializeClient. run_body.
  destruct qrOk; simpl; [|eexists; by repeat split].
  destruct (maxQrRetries <? qrRetries st + 1)%Z; simpl; [|eexists; by repeat split].
  destruct (client st) as [c|] eqn:Hc; [destruct destroyOk|]; destruct initOk; simpl;
    eexists; repeat split; simpl; rewrite ?Hc; done.
Qed.

Lemma statsTick_effect st :
  exists st',
    statsTick st = (Returned tt, st')
    /\ (isReady st = true -> (size (activeChats st') <= 50)%nat)
    /\ (isReady st = false -> st' = st)
    /\ client st' = client st /\ created st' = created st /\ isReady st' = isReady st
    /\ qrRetries st' = qrRetries st /\ messageCount st' = messageCount st
    /\ timers st' = timers st.
Proof.
  unfold statsTick. run_body. destruct (isReady st) eqn:Hready; [|by exists st].
  simpl. destruct (Nat.ltb_spec 50 (size (activeChats st))) as [Hmany|Hfew]; simpl.
  - eexists. repeat split; try done. intros _.
    change (size (∅ : gset (list N)) <= 50)%nat. rewrite size_empty. lia.
  - eexists. repeat split; done.
Qed.

Lemma stopClient_effect destroyOk st :
  exists st',
    stopClient destroyOk st = (Returned tt, st')
    /\ (client st' = None \/ client st' = client st /\ isReady st' = false)
    /\ (client st = None -> isReady st' = isReady st)
    /\ (client st <> None -> isReady st' = false)
    /\ created st' = created st /\ qrRetries st' = qrRetries st
    /\ messageCount st' = messageCount st /\ timers st' = timers st.
Proof.
  unfold stopClient. run_body.
  destruct (client st) as [c|] eqn:Hc; [destruct destroyOk|]; simpl;
    eexists; repeat split; try done; eauto.
Qed.

(** A step that keeps the client, replaces it by a newly constructed one
    or drops it keeps the invariant, if it restores the other parts. *)
Lemma sessionOk_keep st st' :
  Inv.sessionOk st ->
  (client st' = client st /\ created st' = created st
   \/ client st' = Some (created st) /\ created st' = S (created st)
   \/ client st' = None) ->
  (0 <= qrRetries st')%Z -> (0 <= messageCount st')%Z ->
  Inv.sessionOk st'.
Proof.
  intros (Hclient & Hqr & Hcount) Hcl Hq Hm. repeat split; try done.
  intros c Hc. destruct Hcl as [[Hcl Hcr]|[[Hcl Hcr]|Hcl]].
  - rewrite Hcr. apply Hclient. congruence.
  - rewrite Hcr. rewrite Hcl in Hc. injection Hc as <-. lia.
  - congruence.
Qed.

Lemma sessionOk_step i st : Inv.sessionOk st -> Inv.sessionOk (step st i).
Proof.
  intros Hok. pose proof (proj1 (proj2 Hok)) as Hqr.
  pose proof (proj2 (proj2 Hok)) as Hcount. unfold step.
  destruct i as [qrOk destroyOk initOk qr| |infoOk|w message|reason| |message
                 |n destroyOk initOk|initOk|destroyOk|destroyOk initOk];
    unfold handler.
  - destruct (onQr_effect qrOk destroyOk initOk qr st)
      as (st' & -> & Hm & _ & Hq & Hrest). simpl.
    apply (sessionOk_keep st _ Hok).
    + destruct (_ && _ && _); [right; left; by destruct Hrest as (? & ? & _)|].
      left. by destruct Hrest as (? & ? & _).
    + rewrite Hq. destruct qrOk; [|done]. destruct (_ && _); lia.
    + by rewrite Hm.
  - unfold onAuthenticated. run_body. simpl.
    apply (sessionOk_keep st _ Hok); simpl; try done; auto.
  - unfold onReady, startStatsUpdater. run_body. simpl.
    destruct (client st) as [c|] eqn:Hc; [destruct infoOk|]; simpl;
      apply (sessionOk_keep st _ Hok); simpl; try done; auto.
  - destruct (handleIncomingMessage_effects w message st)
      as (st' & new & -> & _ & _ & _ & Hm & Hcl & Hr & Hq & _ & Hcr). simpl.
    apply (sessionOk_keep st _ Hok).
    + by left.
    + by rewrite Hq.
    + rewrite Hm. lia.
  - unfold onDisconnected. run_body. simpl.
    apply (sessionOk_keep st _ Hok); simpl; try done; auto.
  - unfold onAuthFailure. run_body. simpl.
    apply (sessionOk_keep st _ Hok); simpl; try done; auto.
  - unfold onError. run_body. simpl.
    apply (sessionOk_keep st _ Hok); simpl; try done; auto.
  - unfold fire. run_body. destruct (timers st !! n) as [[ms|ms]|]; [| |exact Hok].
    + set (st0 := setTimers _ st).
      destruct (restartClient_effect destroyOk initOk st0)
        as (st' & -> & _ & Hm & _ & _ & Hrest).
      simpl. destruct (match client st0 with Some _ => destroyOk | None => true end).
      * destruct Hrest as (Hcl & Hcr & Hr & Hq). apply (sessionOk_keep st _ Hok).
        -- right. left. by split.
        -- by rewrite Hq.
        -- by rewrite Hm.
      * subst st' st0. apply (sessionOk_keep st _ Hok); simpl; try done; auto.
    + destruct (statsTick_effect st) as (st' & -> & _ & _ & Hcl & Hcr & Hr & Hq & Hm & _).
      simpl. apply (sessionOk_keep st _ Hok).
      * by left.
      * by rewrite Hq.
      * by rewrite Hm.
  - destruct (initializeClient_effect initOk st)
      as (o & st' & Hrun & Hcl & Hcr & Hr & Hq & Hm & _).
    rewrite Hrun. simpl. apply (sessionOk_keep st _ Hok).
    + right. left. by split.
    + by rewrite Hq.
    + by rewrite Hm.
  - destruct (stopClient_effect destroyOk st)
      as (st' & -> & Hcl & Hnone & Hsome & Hcr & Hq & Hm & _).
    simpl. apply (sessionOk_keep st _ Hok).
    + destruct Hcl as [Hcl|[Hcl _]]; [by right; right|by left].
    + by rewrite Hq.
    + by rewrite Hm.
  - destruct (restartClient_effect destroyOk initOk st) as (st' & -> & _ & Hm & _ & _ & Hrest).
    simpl. destruct (match client st with Some _ => destroyOk | None => true end).
    + destruct Hrest as (Hcl & Hcr & Hr & Hq). apply (sessionOk_keep st _ Hok).
      * right. left. by split.
      * by rewrite Hq.
      * by rewrite Hm.
    + subst st'. apply (sessionOk_keep st _ Hok); simpl; try done; auto.
Qed.

Lemma sessionOk_runAll ins st : Inv.sessionOk st -> Inv.sessionOk (runAll ins st).
Proof.
  revert st. induction ins as [|i ins IH]; intros st Hok; [done|].
  simpl. by apply IH, sessionOk_step.
Qed.

Lemma sessionOk_initial : Inv.sessionOk initial.
Proof. unfold Inv.sessionOk. simpl. repeat split; try done. Qed.

(** Each command leaves the session not ready when it goes through on a
    session that holds a client; [initializeClient] leaves the readiness as
    it was. *)
Lemma commands_readiness destroyOk initOk st :
  (client st <> None -> isReady (step st (Stop destroyOk)) = false)
  /\ (match client st with Some _ => destroyOk | None => true end = true ->
      isReady (step st (Restart destroyOk initOk)) = false)
  /\ isReady (step st (Start initOk)) = isReady st.
Proof.
  unfold step, handler. split; [|split].
  - intros Hc. destruct (stopClient_effect destroyOk st) as (st' & -> & _ & _ & Hsome & _).
    by apply Hsome.
  - intros Hd. destruct (restartClient_effect destroyOk initOk st)
      as (st' & -> & _ & _ & _ & _ & Hrest).
    rewrite Hd in Hrest. simpl. by destruct Hrest as (_ & _ & -> & _).
  - destruct (initializeClient_effect initOk st) as (o & st' & -> & _ & _ & Hr & _). exact Hr.
Qed.

(** The suffix is appended once. *)
Lemma chatId_includes to : includes (chatId to) (js "@c.us") = true.
Proof.
  unfold chatId. destruct (includes to (js "@c.us")) eqn:H; [done|apply includes_suffix].
Qed.

Lemma sendMessage_effect send to message st :
  sendMessage send to message st
  = (Returned (isReady st && match client st with Some _ => true | None => false end
               && send (chatId to) message), st).
Proof.
  unfold sendMessage. run_body.
  destruct (isReady st); simpl; [|done]. destruct (client st); simpl; [|done].
  by destruct (send _ _).
Qed.

End LifecycleMore.

(** X25.  The fourth QR code without an authentication restarts the client.
    [onQr] never throws.  When the code cannot be rendered nothing is
    counted.  Otherwise the counter goes up by one, and once it exceeds
    three the client is restarted: if the old adapter can be torn down (or
    there is none) a new client is constructed, the session is marked not
    ready and the counter starts again at 0; if the teardown fails the
    session keeps its client and the counter keeps growing. *)
Theorem onQr_restarts_after_three :
  forall (qrOk destroyOk initOk : bool) (qr : list N) (st : SessionManager.State),
    exists st',
      SessionManager.onQr qrOk destroyOk initOk qr st = (Returned tt, st')
      /\ SessionManager.messageCount st' = SessionManager.messageCount st
      /\ SessionManager.timers st' = SessionManager.timers st
      /\ SessionManager.qrRetries st'
         = (if qrOk
            then if (SessionManager.maxQrRetries <? SessionManager.qrRetries st + 1)%Z
                    && match SessionManager.client st with
                       | Some _ => destroyOk
                       | None => true
                       end
                 then 0 else SessionManager.qrRetries st + 1
            else SessionManager.qrRetries st)%Z
      /\ (if qrOk && (SessionManager.maxQrRetries <? SessionManager.qrRetries st + 1)%Z
             && match SessionManager.client st with
                | Some _ => destroyOk
                | None => true
                end
          then SessionManager.client st' = Some (SessionManager.created st)
               /\ SessionManager.created st' = S (SessionManager.created st)
               /\ SessionManager.isReady st' = false
          else SessionManager.client st' = SessionManager.client st
               /\ SessionManager.created st' = SessionManager.created st
               /\ SessionManager.isReady st' = SessionManager.isReady st).
Proof. intros qrOk destroyOk initOk qr st. apply onQr_effect. Qed.

(** X26.  [restartClient] never throws and touches neither the timers, the
    message count, the active chats nor the reply engine.  When the old
    adapter is torn down (or there is none) the session holds a newly
    constructed client, is not ready and has its QR counter at 0, whether
    or not the new adapter comes up.  When the teardown fails, the only
    effect is the error event: the session keeps its old client and its
    readiness. *)
Theorem restartClient_outcome :
  forall (destroyOk initOk : bool) (st : SessionManager.State),
    exists st',
      SessionManager.restartClient destroyOk initOk st = (Returned tt, st')
      /\ SessionManager.timers st' = SessionManager.timers st
      /\ SessionManager.messageCount st' = SessionManager.messageCount st
      /\ SessionManager.activeChats st' = SessionManager.activeChats st
      /\ SessionManager.geminiAI st' = SessionManager.geminiAI st
      /\ if match SessionManager.client st with Some _ => destroyOk | None => true end
         then SessionManager.client st' = Some (SessionManager.created st)
              /\ SessionManager.created st' = S (SessionManager.created st)
              /\ SessionManager.isReady st' = false
              /\ SessionManager.qrRetries st' = 0%Z
         else st' = SessionManager.log
                      (SessionManager.Emit "error" (js "Failed to restart client")) st.
Proof. intros destroyOk initOk st. apply restartClient_effect. Qed.

(** X27.  Whatever events, commands and timer expiries reach a session
    after its construction, the client held is one of those constructed so
    far and neither the QR counter nor the message count is negative.  A
    stop or a restart that goes through on a session holding a client leaves
    it not ready, and a start leaves the readiness as it was.  Readiness
    does not imply a client: the handlers never test [this.client], so after
    two starts and a stop the [ready] event of the first client, which was
    never destroyed, leaves a session that is ready and holds no client. *)
Theorem session_invariant :
  (forall ins : list SessionManager.input,
      Inv.sessionOk (SessionManager.runAll ins SessionManager.initial))
  /\ (forall (destroyOk initOk : bool) (st : SessionManager.State),
        (SessionManager.client st <> None ->
         SessionManager.isReady (SessionManager.step st (SessionManager.Stop destroyOk)) = false)
        /\ (match SessionManager.client st with Some _ => destroyOk | None => true end = true ->
            SessionManager.isReady
              (SessionManager.step st (SessionManager.Restart destroyOk initOk)) = false)
        /\ SessionManager.isReady (SessionManager.step st (SessionManager.Start initOk))
           = SessionManager.isReady st)
  /\ (let st := SessionManager.runAll
                  [SessionManager.Start true; SessionManager.Start true;
                   SessionManager.Stop true; SessionManager.Ready true]
                  SessionManager.initial in
      SessionManager.isReady st = true
      /\ SessionManager.client st = None
      /\ SessionManager.created st = 2%nat
      /\ SessionManager.effects st
         = [SessionManager.Emit "ready" [];
            SessionManager.Emit "disconnected" (js "Client stopped manually");
            SessionManager.ClientDestroy 1;
            SessionManager.ClientInitialize 1;
            SessionManager.ClientInitialize 0]).
Proof.
  split; [|split].
  - intros ins. apply sessionOk_runAll, sessionOk_initial.
  - intros destroyOk initOk st. apply commands_readiness.
  - vm_compute. by repeat split.
Qed.

(** The tick of the statistics never throws, does nothing while the
    session is not ready, and leaves at most fifty active chats behind when
    it is: above fifty the whole set is dropped. *)
Lemma statsTick_bounds_active_chats :
  forall st : SessionManager.State,
    exists st',
      SessionManager.statsTick st = (Returned tt, st')
      /\ (if SessionManager.isReady st
          then (size (SessionManager.activeChats st') <= 50)%nat
               /\ (SessionManager.activeChats st' = SessionManager.activeChats st
                   \/ SessionManager.activeChats st' = ∅)
          else st' = st).
Proof.
  intros st. destruct (statsTick_effect st) as (st' & Hrun & Hready & Hidle & _).
  exists st'. split; [done|]. destruct (SessionManager.isReady st) eqn:Hr; [|by apply Hidle].
  split; [by apply Hready|].
  revert Hrun. unfold SessionManager.statsTick. run_body. rewrite Hr. simpl.
  destruct (50 <? _)%nat; simpl; intros [= <-]; simpl; auto.
Qed.

(** X28.  [SessionManager.sendMessage] never throws and leaves the session
    as it is; it reports success exactly when the session is ready, holds a
    client and the adapter accepts the message.  The chat id it addresses
    always holds the suffix, which is appended at most once: sending to a
    chat id and to the bare string it was made from is the same call. *)
Theorem session_sendMessage_target :
  forall (send : list N -> list N -> bool) (to message : list N) (st : SessionManager.State),
    SessionManager.sendMessage send to message st
    = (Returned (SessionManager.isReady st
                 && match SessionManager.client st with Some _ => true | None => false end
                 && send (SessionManager.chatId to) message), st)
    /\ includes (SessionManager.chatId to) (js "@c.us") = true
    /\ SessionManager.chatId (SessionManager.chatId to) = SessionManager.chatId to
    /\ SessionManager.sendMessage send (SessionManager.chatId to) message st
       = SessionManager.sendMessage send to message st.
Proof.
  intros send to message st.
  assert (SessionManager.chatId (SessionManager.chatId to) = SessionManager.chatId to) as Hid.
  { unfold SessionManager.chatId at 1. by rewrite chatId_includes. }
  split; [apply sendMessage_effect|]. split; [apply chatId_includes|]. split; [done|].
  by rewrite !sendMessage_effect, Hid.
Qed.

(** ** The message handler of the multi-session server *)

Section ServerFacts.

Import WhatsAppBotServer.

(** [AIReply.generateReply] answers [null] to every call, so the handler
    never reaches its reply branch. *)
Lemma askAIReply_null w messageText fromNumber st :
  exists a,
    askAIReply w messageText fromNumber st = (Returned None, setAiReply a st)
    /\ AIReply.conversationHistory a = AIReply.conversationHistory (aiReply st).
Proof.
  unfold askAIReply. rewrite generateReply_suppressed.
  eexists. split; [done|]. apply checkRateLimit_history.
Qed.

Lemma server_handleIncomingMessage_effect w message st :
  exists st',
    handleIncomingMessage w message st = (Returned tt, st')
    /\ session st' = session st
    /\ AIReply.conversationHistory (aiReply st') = AIReply.conversationHistory (aiReply st)
    /\ effects st'
       = match contactNumber w with
         | Some _ => effects st
         | None =>
           if fallbackOk w then MessageReply (from message) (fallbackReply w) :: effects st
           else effects st
         end.
Proof.
  unfold handleIncomingMessage. run_body.
  destruct (contactNumber w) as [fromNumber|].
  - destruct (rateLimited _ _); [by exists st|].
    set (st0 := setRateLimits _ st).
    destruct (askAIReply_null w (body message) fromNumber st0) as (a & -> & Ha).
    eexists. by repeat split.
  - destruct (fallbackOk w); eexists; by repeat split.
Qed.

Lemma server_handleIncomingMessage_stamp w message st fromNumber :
  contactNumber w = Some fromNumber ->
  rateLimited (now w) (rateLimits st !! (js "rate_" ++ fromNumber)) = false ->
  exists st',
    handleIncomingMessage w message st = (Returned tt, st')
    /\ rateLimits st' = <[js "rate_" ++ fromNumber := now w]> (rateLimits st).
Proof.
  intros Hc Hfree. unfold handleIncomingMessage. run_body. rewrite Hc, Hfree.
  set (st0 := setRateLimits _ st).
  destruct (askAIReply_null w (body message) fromNumber st0) as (a & -> & Ha).
  eexists. by split.
Qed.

Lemma server_handleIncomingMessage_limited w message st fromNumber :
  contactNumber w = Some fromNumber ->
  rateLimited (now w) (rateLimits st !! (js "rate_" ++ fromNumber)) = true ->
  handleIncomingMessage w message st = (Returned tt, st).
Proof.
  intros Hc Hlimited. unfold handleIncomingMessage. run_body. by rewrite Hc, Hlimited.
Qed.

End ServerFacts.

(** X29.  As the reply engine stands, the multi-session server never sends
    a generated reply: for every inbound message the handler returns, the
    session's [messagesSent] and [lastActivity] and the conversation
    histories are as before, and the only message that can go out is the
    fixed fallback text, sent when the contact cannot be looked up.  The
    [message_create] handler runs it for every message that is not of the
    account itself. *)
Theorem server_never_sends_generated_reply :
  forall (w : WhatsAppBotServer.World) (message : WhatsAppBotServer.Message)
         (st : WhatsAppBotServer.State),
    exists st',
      WhatsAppBotServer.handleIncomingMessage w message st = (Returned tt, st')
      /\ WhatsAppBotServer.session st' = WhatsAppBotServer.session st
      /\ AIReply.conversationHistory (WhatsAppBotServer.aiReply st')
         = AIReply.conversationHistory (WhatsAppBotServer.aiReply st)
      /\ WhatsAppBotServer.effects st'
         = match WhatsAppBotServer.contactNumber w with
           | Some _ => WhatsAppBotServer.effects st
           | None =>
             if WhatsAppBotServer.fallbackOk w
             then WhatsAppBotServer.MessageReply (WhatsAppBotServer.from message)
                                                 (WhatsAppBotServer.fallbackReply w)
                  :: WhatsAppBotServer.effects st
             else WhatsAppBotServer.effects st
           end
      /\ WhatsAppBotServer.onMessageCreate w message st
         = (Returned tt, if WhatsAppBotServer.fromMe message then st else st').
Proof.
  intros w message st.
  destruct (server_handleIncomingMessage_effect w message st) as (st' & Hrun & Hrest).
  exists st'. split; [done|]. repeat (split; [apply Hrest|]).
  unfold WhatsAppBotServer.onMessageCreate.
  destruct (WhatsAppBotServer.fromMe message); [done|].
  unfold tryCatch. by rewrite Hrun.
Qed.

(** X30.  The limiter of the server: a message of a contact that passes the
    check stamps the contact with the instant of the check, and a message
    of the same contact checked less than thirty seconds after that instant
    is dropped with the state as it is. *)
Theorem server_thirty_second_gap :
  forall (w1 w2 : WhatsAppBotServer.World) (message1 message2 : WhatsAppBotServer.Message)
         (st : WhatsAppBotServer.State) (fromNumber : list N),
    WhatsAppBotServer.contactNumber w1 = Some fromNumber ->
    WhatsAppBotServer.contactNumber w2 = Some fromNumber ->
    WhatsAppBotServer.rateLimited
      (WhatsAppBotServer.now w1)
      (WhatsAppBotServer.rateLimits st !! (js "rate_" ++ fromNumber)) = false ->
    (WhatsAppBotServer.now w2 - WhatsAppBotServer.now w1 < 30000)%Z ->
    exists st1,
      WhatsAppBotServer.handleIncomingMessage w1 message1 st = (Returned tt, st1)
      /\ WhatsAppBotServer.rateLimits st1 !! (js "rate_" ++ fromNumber)
         = Some (WhatsAppBotServer.now w1)
      /\ WhatsAppBotServer.handleIncomingMessage w2 message2 st1 = (Returned tt, st1).
Proof.
  intros w1 w2 message1 message2 st fromNumber Hc1 Hc2 Hfree Hgap.
  destruct (server_handleIncomingMessage_stamp w1 message1 st fromNumber Hc1 Hfree)
    as (st1 & Hrun & Hstamp).
  assert (WhatsAppBotServer.rateLimits st1 !! (js "rate_" ++ fromNumber)
          = Some (WhatsAppBotServer.now w1)) as Hstored
    by (rewrite Hstamp; apply lookup_insert_eq).
  exists st1. split; [done|]. split; [done|].
  apply (server_handleIncomingMessage_limited _ _ _ fromNumber Hc2).
  rewrite Hstored. simpl. by apply Z.ltb_lt.
Qed.

(** Two messages of one contact, ten seconds apart. *)
Lemma server_thirty_second_gap_witness :
  let w1 := {| WhatsAppBotServer.contactNumber := Some (js "919876543210");
               WhatsAppBotServer.now := 1700000000000;
               WhatsAppBotServer.limitEnv := None;
               WhatsAppBotServer.apiResult := Some (js "Hi!");
               WhatsAppBotServer.nowAi := 1700000000001;
               WhatsAppBotServer.typingOk := true; WhatsAppBotServer.random := 1 # 2;
               WhatsAppBotServer.replyOk := true;
               WhatsAppBotServer.nowSent := 1700000002500;
               WhatsAppBotServer.dbPool := None; WhatsAppBotServer.fallbackEnv := [];
               WhatsAppBotServer.fallbackOk := true |} in
  let w2 := {| WhatsAppBotServer.contactNumber := Some (js "919876543210");
               WhatsAppBotServer.now := 1700000010000;
               WhatsAppBotServer.limitEnv := None;
               WhatsAppBotServer.apiResult := Some (js "Hi again!");
               WhatsAppBotServer.nowAi := 1700000010001;
               WhatsAppBotServer.typingOk := true; WhatsAppBotServer.random := 1 # 2;
               WhatsAppBotServer.replyOk := true;
               WhatsAppBotServer.nowSent := 1700000012500;
               WhatsAppBotServer.dbPool := None; WhatsAppBotServer.fallbackEnv := [];
               WhatsAppBotServer.fallbackOk := true |} in
  let message1 := {| WhatsAppBotServer.from := js "919876543210@c.us";
                     WhatsAppBotServer.fromMe := false;
                     WhatsAppBotServer.body := js "hello" |} in
  let message2 := {| WhatsAppBotServer.from := js "919876543210@c.us";
                     WhatsAppBotServer.fromMe := false;
                     WhatsAppBotServer.body := js "anyone?" |} in
  let st := WhatsAppBotServer.initial (js "session-1") 1699999990000 in
  exists st1,
    WhatsAppBotServer.handleIncomingMessage w1 message1 st = (Returned tt, st1)
    /\ WhatsAppBotServer.rateLimits st1 !! (js "rate_" ++ js "919876543210")
       = Some (WhatsAppBotServer.now w1)
    /\ WhatsAppBotServer.handleIncomingMessage w2 message2 st1 = (Returned tt, st1).
Proof.
  intros w1 w2 message1 message2 st.
  apply (server_thirty_second_gap w1 w2 message1 message2 st (js "919876543210")).
  - reflexivity.
  - reflexivity.
  - vm_compute. reflexivity.
  - vm_compute. reflexivity.
Defined.
